(** * Workik AI test-case generator: tree explorer, generation pipeline, publisher

    A shallow embedding of the React components
    [client/src/components/FileExplorer.jsx],
    [client/src/components/TestCaseGenerator.jsx] and
    [client/src/components/TestCaseViewer.jsx].

    Conventions of the embedding.
    - JavaScript strings are Rocq strings (sequences of 8-bit characters;
      text outside ASCII is carried in UTF-8). A surrogate that is not part
      of a pair is carried as the three bytes the same scheme gives its
      code point, ED A0..BF 80..BF, which well-formed UTF-8 never holds; a
      pair is always the four bytes of its code point. The components put
      ASCII text between any two texts they join, so joining keeps this
      form.
    - Values whose shape is decided by a remote server (JSON documents) are
      [JsValue]s; values whose shape is fixed by the GitHub contents API
      (directory entries) are records.
    - An abrupt completion ([throw], a rejected promise under [await]) is
      the [Throw] case of [Completion]; [try]/[catch]/[finally] are
      combinators of the monad [M].
    - The network is an oracle that answers a request given the requests
      sent before it; every request is recorded in [sent].
    - [console.error] calls are recorded in [errlog]; [console.log] calls,
      animation and the 500 ms progress delay are not modelled.
    - React state cells ([useState]) are the fields of a per-component
      state record, written by the corresponding setter.
    - A handler runs to completion, the asynchronous work it starts
      without awaiting ([fetchFolderContents] in [toggleFolder]) included;
      the page is single-threaded and no two handlers interleave here. *)

From Stdlib Require Import ZArith Lia Bool Ascii.
From stdpp Require Import base list strings gmap sets sorting pretty.

Set Warnings "-register-all".

Local Open Scope string_scope.
Local Open Scope list_scope.
Local Open Scope Z_scope.

(** ** JavaScript values and built-ins *)

Module Js.

(** An [Error] object: its constructor name and its [message]. *)
Record JsError := mkError { ename : string; message : string }.

Inductive Completion (A : Type) : Type :=
| Normal (a : A)
| Throw (e : JsError).
Arguments Normal {A} a.
Arguments Throw {A} e.

Definition Error (msg : string) : JsError := mkError "Error" msg.
Definition TypeError (msg : string) : JsError := mkError "TypeError" msg.
Definition ReferenceError (msg : string) : JsError := mkError "ReferenceError" msg.
Definition URIError (msg : string) : JsError := mkError "URIError" msg.

(** The double quote and the line feed, for template literals. *)
Definition dq : string := String "034"%char EmptyString.
Definition nl : string := String "010"%char EmptyString.

(** JSON-shaped values. Numbers are integers: no claim depends on
    fractions. An object is its list of own properties, first match wins;
    its prototype is [Object.prototype], an array's [Array.prototype]. *)
Inductive JsValue : Type :=
| JUndefined
| JNull
| JBool (b : bool)
| JNum (n : Z)
| JStr (s : string)
| JArr (elems : list JsValue)
| JObj (props : list (string * JsValue)).

Fixpoint assoc (k : string) (props : list (string * JsValue)) : option JsValue :=
  match props with
  | [] => None
  | (k', v) :: rest => if String.eqb k k' then Some v else assoc k rest
  end.

(** ToBoolean. *)
Definition truthy (v : JsValue) : bool :=
  match v with
  | JUndefined | JNull => false
  | JBool b => b
  | JNum n => negb (n =? 0)
  | JStr s => negb (String.eqb s "")
  | JArr _ | JObj _ => true
  end.

(** [v === s] for a string literal [s]. *)
Definition strict_eq_string (v : JsValue) (s : string) : bool :=
  match v with
  | JStr t => String.eqb t s
  | _ => false
  end.

(** [a || b]. *)
Definition or_else (a b : JsValue) : JsValue := if truthy a then a else b.

(** [s.length]: the UTF-16 code units of the text that the bytes [s]
    carry. A continuation byte adds none, the lead byte of a four-byte
    sequence two. *)
Fixpoint length_utf16 (s : string) : nat :=
  match s with
  | EmptyString => 0
  | String c rest =>
      let b := N_of_ascii c in
      ((if (128 <=? b)%N && (b <? 192)%N then 0
        else if (240 <=? b)%N then 2 else 1)
       + length_utf16 rest)%nat
  end.

(** Property read [v.k]: a TypeError on [undefined] and [null]. *)
Definition get (v : JsValue) (k : string) : Completion JsValue :=
  match v with
  | JUndefined => Throw (TypeError ("Cannot read properties of undefined (reading '" +:+ k +:+ "')"))
  | JNull => Throw (TypeError ("Cannot read properties of null (reading '" +:+ k +:+ "')"))
  | JObj props => Normal (default JUndefined (assoc k props))
  | JArr elems =>
      if String.eqb k "length" then Normal (JNum (Z.of_nat (length elems))) else Normal JUndefined
  | JStr s =>
      if String.eqb k "length" then Normal (JNum (Z.of_nat (length_utf16 s))) else Normal JUndefined
  | JBool _ | JNum _ => Normal JUndefined
  end.

Definition join (sep : string) (parts : list string) : string :=
  match parts with
  | [] => ""
  | p :: rest => fold_left (fun acc q => acc +:+ sep +:+ q) rest p
  end.

(** *** Numbers as text

    [JNum n] is the Number that the integer literal [n] denotes: the
    double nearest to [n]. Number::toString prints the shortest decimal
    that reads back as that double, in full up to 21 digits and with an
    exponent beyond. *)

(** The double nearest to the integer [a >= 0], as an integer: 53
    significant bits, ties to even; [None] for an infinity. *)
Definition nearest_double (a : Z) : option Z :=
  let e := Z.max 0 (Z.log2 a + 1 - 53) in
  let q := Z.shiftr a e in
  let r := a - Z.shiftl q e in
  let up := (2 ^ e <? 2 * r) || ((2 ^ e =? 2 * r) && Z.odd q) in
  let m := Z.shiftl (if up then q + 1 else q) e in
  if 2 ^ 1024 <=? m then None else Some m.

Definition decimal_digits (a : Z) : Z := Z.of_nat (String.length (pretty a)).

Definition reads_back (x v : Z) : bool :=
  match nearest_double v with
  | Some y => y =? x
  | None => false
  end.

(** The decimal of [k] significant digits that reads back as [x], the
    nearer to [x] of the two candidates (the even one on a tie). *)
Definition shortest_with (x k : Z) : option Z :=
  let p := 10 ^ (decimal_digits x - k) in
  let lo := x / p * p in
  let hi := lo + p in
  match reads_back x lo, reads_back x hi with
  | true, true =>
      Some (if x - lo <? hi - x then lo
            else if hi - x <? x - lo then hi
            else if Z.even (x / p) then lo else hi)
  | true, false => Some lo
  | false, true => Some hi
  | false, false => None
  end.

Fixpoint shortest_from (x k : Z) (fuel : nat) : Z :=
  match fuel with
  | O => x
  | S fuel' =>
      match shortest_with x k with
      | Some v => v
      | None => shortest_from x (k + 1) fuel'
      end
  end.

Fixpoint strip_zeros (digits : list ascii) : list ascii :=
  match digits with
  | [] => []
  | d :: rest =>
      match strip_zeros rest with
      | [] => if Ascii.eqb d "0"%char then [] else [d]
      | rest' => d :: rest'
      end
  end.

(** Number::toString on the positive integer double [x]. *)
Definition positive_toString (x : Z) : string :=
  let v := shortest_from x 1 (Z.to_nat (Z.min (decimal_digits x) 17)) in
  let n := decimal_digits v in
  if n <=? 21 then pretty v
  else
    match strip_zeros (String.list_ascii_of_string (pretty v)) with
    | [] => pretty v
    | [d] => String d "e+" +:+ pretty (n - 1)
    | d :: rest =>
        String d ("." +:+ String.string_of_list_ascii rest) +:+ "e+" +:+ pretty (n - 1)
    end.

Definition Number_toString (n : Z) : string :=
  if n =? 0 then "0"
  else
    match nearest_double (Z.abs n) with
    | None => if n <? 0 then "-Infinity" else "Infinity"
    | Some x => (if n <? 0 then "-" else "") +:+ positive_toString x
    end.

(** ToString, as template literals and the [Error] constructor apply it.
    On an object it calls the [toString] method: [Object.prototype]'s
    unless the object has a property of that name of its own, and a
    property that holds data is not callable; [valueOf] then gives back
    the object and the conversion fails. An array joins its elements with
    commas, [undefined] and [null] as the empty text. *)
Fixpoint toString (v : JsValue) : Completion string :=
  match v with
  | JUndefined => Normal "undefined"
  | JNull => Normal "null"
  | JBool true => Normal "true"
  | JBool false => Normal "false"
  | JNum n => Normal (Number_toString n)
  | JStr s => Normal s
  | JArr elems =>
      match
        (fix elements (es : list JsValue) : Completion (list string) :=
           match es with
           | [] => Normal []
           | e :: rest =>
               match (match e with
                      | JUndefined | JNull => Normal ""
                      | _ => toString e
                      end) with
               | Throw err => Throw err
               | Normal s =>
                   match elements rest with
                   | Throw err => Throw err
                   | Normal ss => Normal (s :: ss)
                   end
               end
           end) elems
      with
      | Throw err => Throw err
      | Normal parts => Normal (join "," parts)
      end
  | JObj props =>
      match assoc "toString" props with
      | Some _ => Throw (TypeError "Cannot convert object to primitive value")
      | None => Normal "[object Object]"
      end
  end.

(** [s.endsWith(ext)]: [ext] is one of the suffixes of [s]. *)
Fixpoint endsWith (s ext : string) : bool :=
  String.eqb s ext
  || match s with
     | EmptyString => false
     | String _ s' => endsWith s' ext
     end.

(** [exts.some(ext => name.endsWith(ext))]. *)
Definition some_endsWith (exts : list string) (name : string) : bool :=
  existsb (fun ext => endsWith name ext) exts.

(** [s.replace(/\n/g, '')]. *)
Fixpoint remove_newlines (s : string) : string :=
  match s with
  | EmptyString => EmptyString
  | String c s' =>
      if Ascii.eqb c "010"%char then remove_newlines s' else String c (remove_newlines s')
  end.

(** [arr.findIndex(p)]: the first index whose element satisfies [p], or -1. *)
Fixpoint findIndex {A} (p : A -> bool) (arr : list A) : Z :=
  match arr with
  | [] => -1
  | x :: rest =>
      if p x then 0
      else let i := findIndex p rest in if i =? -1 then -1 else i + 1
  end.

(** [arr.splice(index, 1)] for [index >= 0]: the array without that element. *)
Definition splice1 {A} (index : Z) (arr : list A) : list A :=
  delete (Z.to_nat index) arr.

(** [arr.sort(cmp)] for a consistent comparator: the stable arrangement
    in which no element is followed by one that [cmp] puts strictly before
    it. ECMAScript fixes the result for consistent comparators only; the
    theorems below stay inside that domain. *)
Fixpoint sort_insert {A} (cmp : A -> A -> Z) (x : A) (sorted : list A) : list A :=
  match sorted with
  | [] => [x]
  | y :: rest => if 0 <? cmp x y then y :: sort_insert cmp x rest else x :: y :: rest
  end.

Fixpoint sort {A} (cmp : A -> A -> Z) (arr : list A) : list A :=
  match arr with
  | [] => []
  | x :: rest => sort_insert cmp x (sort cmp rest)
  end.

(** *** Base64 *)

Definition b64_digit (n : N) : ascii :=
  ascii_of_N (if (n <? 26)%N then n + 65
              else if (n <? 52)%N then n + 71
              else if (n <? 62)%N then n - 4
              else if (n =? 62)%N then 43 else 47).

Definition b64_value (c : ascii) : option N :=
  let n := N_of_ascii c in
  if ((65 <=? n) && (n <=? 90))%N then Some (n - 65)%N
  else if ((97 <=? n) && (n <=? 122))%N then Some (n - 71)%N
  else if ((48 <=? n) && (n <=? 57))%N then Some (n + 4)%N
  else if (n =? 43)%N then Some 62%N
  else if (n =? 47)%N then Some 63%N
  else None.

Fixpoint b64_encode (bytes : list N) : list ascii :=
  match bytes with
  | [] => []
  | [a] =>
      [b64_digit (a / 4); b64_digit ((a mod 4) * 16); "="%char; "="%char]
  | [a; b] =>
      [b64_digit (a / 4); b64_digit ((a mod 4) * 16 + b / 16);
       b64_digit ((b mod 16) * 4); "="%char]
  | a :: b :: c :: rest =>
      b64_digit (a / 4) :: b64_digit ((a mod 4) * 16 + b / 16)
      :: b64_digit ((b mod 16) * 4 + c / 64) :: b64_digit (c mod 64)
      :: b64_encode rest
  end%N.

(** [btoa(s)] on a string of 8-bit characters. *)
Definition btoa (s : string) : string :=
  String.string_of_list_ascii (b64_encode (map N_of_ascii (String.list_ascii_of_string s))).

(** [s] holds a surrogate that is not part of a pair: the three bytes
    ED A0..BF 80..BF (see the conventions at the head of the file). *)
Fixpoint has_lone_surrogate (s : string) : bool :=
  match s with
  | EmptyString => false
  | String c rest =>
      match rest with
      | String c' _ => (N_of_ascii c =? 237)%N && (160 <=? N_of_ascii c')%N
      | EmptyString => false
      end
      || has_lone_surrogate rest
  end.

(** [unescape(encodeURIComponent(s))] re-encodes [s] in UTF-8, one
    character per byte: the bytes that carry [s]. [encodeURIComponent]
    throws on a lone surrogate. *)
Definition utf8_bytes (s : string) : Completion string :=
  if has_lone_surrogate s then Throw (URIError "URI malformed") else Normal s.

Fixpoint b64_decode (digits : list N) : list N :=
  match digits with
  | a :: b :: c :: d :: rest =>
      (a * 4 + b / 16) :: ((b mod 16) * 16 + c / 4) :: ((c mod 4) * 64 + d)
      :: b64_decode rest
  | [a; b; c] => [a * 4 + b / 16; (b mod 16) * 16 + c / 4]
  | [a; b] => [a * 4 + b / 16]
  | _ => []
  end%N.

Definition is_ascii_whitespace (c : ascii) : bool :=
  let n := N_of_ascii c in
  ((n =? 9) || (n =? 10) || (n =? 12) || (n =? 13) || (n =? 32))%N.

Definition strip_padding (cs : list ascii) : list ascii :=
  if (length cs mod 4 =? 0)%nat then
    match reverse cs with
    | "="%char :: "="%char :: r => reverse r
    | "="%char :: r => reverse r
    | _ => cs
    end
  else cs.

Definition InvalidCharacterError : JsError :=
  mkError "InvalidCharacterError" "The string to be decoded is not correctly encoded.".

(** [atob(s)]: the forgiving base64 decoder of the HTML standard. *)
Definition atob (s : string) : Completion string :=
  let cs := strip_padding (filter (fun c => is_ascii_whitespace c = false) (String.list_ascii_of_string s)) in
  if (length cs mod 4 =? 1)%nat then Throw InvalidCharacterError
  else match mapM b64_value cs with
       | None => Throw InvalidCharacterError
       | Some digits => Normal (String.string_of_list_ascii (map ascii_of_N (b64_decode digits)))
       end.

(** *** Text *)

(** [s.includes(t)]: [t] occurs in [s]. *)
Fixpoint includes (s t : string) : bool :=
  String.prefix t s
  || match s with
     | EmptyString => false
     | String _ s' => includes s' t
     end.

(** [s.split(sep)] for a one-character separator: the pieces between
    the separators, one more than there are separators. *)
Fixpoint split (sep : ascii) (s : string) : list string :=
  match s with
  | EmptyString => [EmptyString]
  | String c s' =>
      if Ascii.eqb c sep then EmptyString :: split sep s'
      else match split sep s' with
           | piece :: pieces => String c piece :: pieces
           | [] => [String c EmptyString]
           end
  end.

End Js.

(** ** The remote services *)

Module Net.
Import Js.

Record Request := mkRequest {
  method : string;
  url : string;
  headers : list (string * string);
  (** the value handed to [JSON.stringify] for the body, if any *)
  body : option JsValue
}.

(** A response: [response.status], the result of [response.text()] and
    the result of [response.json()] (a rejection when the body is not
    JSON). *)
Record Response := mkResponse {
  status : Z;
  text : string;
  json : Completion JsValue
}.

(** [response.ok]. *)
Definition ok (r : Response) : bool := (200 <=? status r) && (status r <=? 299).

Inductive FetchOutcome :=
| Rejected (e : JsError)
| Resolved (r : Response).

(** One entry of a GitHub contents listing: the fields the components
    read. The entry's other fields ([sha], [url], [html_url], ...) are
    copied along by the spread in [processFileTree] and never read. *)
Record RawEntry := mkRawEntry {
  raw_name : string;
  raw_path : string;
  raw_type : string;
  raw_size : Z;
  raw_download_url : option string
}.

(** The world outside the page. [net] answers [fetch]; [listing] answers
    [axios.get] on a contents URL with [response.data] already parsed
    ([Throw] for a transport error, a status outside 2xx, or data that is
    not a list of entries). Both see the requests sent so far. *)
Record World := mkWorld {
  net : list Request -> Request -> FetchOutcome;
  listing : list Request -> Request -> Completion (list RawEntry);
  sent : list Request;
  errlog : list (string * JsError);
  (** the next unused object identity of the page's heap *)
  fresh : nat
}.

Definition record_request (rq : Request) (w : World) : World :=
  mkWorld (net w) (listing w) (sent w ++ [rq]) (errlog w) (fresh w).

Definition record_error (label : string) (e : JsError) (w : World) : World :=
  mkWorld (net w) (listing w) (sent w) (errlog w ++ [(label, e)]) (fresh w).

Definition set_fresh (n : nat) (w : World) : World :=
  mkWorld (net w) (listing w) (sent w) (errlog w) n.

(** *** The monad of handlers

    A handler of a component with state [S] runs on the world and the
    component state and completes normally or abruptly. *)
Definition M (S A : Type) : Type := World * S -> Completion A * (World * S).

Definition ret {S A} (a : A) : M S A := fun st => (Normal a, st).

Definition bind {S A B} (m : M S A) (k : A -> M S B) : M S B :=
  fun st =>
    match m st with
    | (Normal a, st') => k a st'
    | (Throw e, st') => (Throw e, st')
    end.

Definition throw {S A} (e : JsError) : M S A := fun st => (Throw e, st).

(** [try { body } catch (err) { handler }]. *)
Definition try_catch {S A} (body : M S A) (handler : JsError -> M S A) : M S A :=
  fun st =>
    match body st with
    | (Normal a, st') => (Normal a, st')
    | (Throw e, st') => handler e st'
    end.

(** [try { body } finally { cleanup }]. *)
Definition try_finally {S A} (body : M S A) (cleanup : M S unit) : M S A :=
  fun st =>
    match body st with
    | (r, st') =>
        match cleanup st' with
        | (Normal _, st'') => (r, st'')
        | (Throw e, st'') => (Throw e, st'')
        end
    end.

(** A value computed without effects that may still throw. *)
Definition lift {S A} (c : Completion A) : M S A := fun st => (c, st).

Definition get_state {S} : M S S := fun st => (Normal (snd st), st).
Definition modify {S} (f : S -> S) : M S unit := fun st => (Normal tt, (fst st, f (snd st))).

(** [await fetch(...)]. *)
Definition fetch {S} (rq : Request) : M S Response :=
  fun st =>
    let w := fst st in
    let st' := (record_request rq w, snd st) in
    match net w (sent w) rq with
    | Rejected e => (Throw e, st')
    | Resolved r => (Normal r, st')
    end.

(** [(await axios.get(...)).data]. *)
Definition axios_get {S} (rq : Request) : M S (list RawEntry) :=
  fun st =>
    let w := fst st in
    (listing w (sent w) rq, (record_request rq w, snd st)).

(** [console.error(label, err)]. *)
Definition console_error {S} (label : string) (e : JsError) : M S unit :=
  fun st => (Normal tt, (record_error label e (fst st), snd st)).

(** Code that allocates objects, as a function of the next unused
    identity, run on the page's heap. *)
Definition with_heap {S A} (f : nat -> A * nat) : M S A :=
  fun st =>
    let '(a, n) := f (fresh (fst st)) in
    (Normal a, (set_fresh n (fst st), snd st)).

Declare Scope js_scope.
Delimit Scope js_scope with js.
Notation "x <- m ;; k" := (bind m (fun x => k))
  (at level 100, m at next level, right associativity) : js_scope.
Notation "m ;; k" := (bind m (fun _ => k))
  (at level 100, right associativity) : js_scope.

Definition github_headers (token : string) : list (string * string) :=
  [("Authorization", "token " +:+ token); ("Accept", "application/vnd.github.v3+json")].

(** The repository object chosen at sign-in. *)
Record Repo := mkRepo {
  repo_name : string;
  full_name : string;
  default_branch : string
}.

(** [selectedRepo.k] on a prop that is [null] until a repository is chosen. *)
Definition repo_field (k : string) (f : Repo -> string) (selectedRepo : option Repo)
  : Completion string :=
  match selectedRepo with
  | Some r => Normal (f r)
  | None => Throw (TypeError ("Cannot read properties of null (reading '" +:+ k +:+ "')"))
  end.

End Net.

(** ** FileExplorer.jsx *)

Module FileExplorer.
Import Js Net.
Local Open Scope js_scope.

(** A processed tree item: the listing entry's fields, the fields added by
    [processFileTree], and [oid], the identity of the JavaScript object
    (two items are the same object exactly when their [oid]s agree).
    [children] is [null] ([None]) or an array. *)
Inductive Item : Type := mkItem {
  oid : nat;
  name : string;
  path : string;
  type : string;
  size : Z;
  download_url : option string;
  fullPath : string;
  isCodeFile : bool;
  isTestFile : bool;
  children : option (list Item)
}.

Definition codeExtensions : list string :=
  [".js"; ".jsx"; ".ts"; ".tsx"; ".py"; ".java"; ".cpp"; ".c"; ".cs"; ".php"; ".rb"; ".go"].
Definition testExtensions : list string :=
  [".test.js"; ".spec.js"; ".test.ts"; ".spec.ts"; ".test.py"].

(** [{ ...item, children: c }]: a new object with [item]'s fields. *)
Definition with_children (o : nat) (item : Item) (c : option (list Item)) : Item :=
  mkItem o (name item) (path item) (type item) (size item) (download_url item)
         (fullPath item) (isCodeFile item) (isTestFile item) c.

(** The body of the loop of [processFileTree]: the object [processedItem]. *)
Definition processItem (basePath : string) (o : nat) (item : RawEntry) : Item :=
  mkItem o (raw_name item) (raw_path item) (raw_type item) (raw_size item)
         (raw_download_url item)
         (if negb (String.eqb basePath "") then basePath +:+ "/" +:+ raw_name item
          else raw_name item)
         (some_endsWith codeExtensions (raw_name item))
         (some_endsWith testExtensions (raw_name item))
         (if String.eqb (raw_type item) "dir" then Some [] else None).

Fixpoint processItems (basePath : string) (items : list RawEntry) (next : nat) : list Item :=
  match items with
  | [] => []
  | item :: rest => processItem basePath next item :: processItems basePath rest (S next)
  end.

(** [updateTree] of [fetchFolderContents], for the folder path [target]
    and its [processedChildren]; [next] is the next unused identity. The
    inner loop is [items.map] on the children. *)
Fixpoint updateItem (target : string) (processedChildren : list Item)
    (item : Item) (next : nat) {struct item} : Item * nat :=
  if String.eqb (path item) target then
    (with_children next item (Some processedChildren), S next)
  else
    match children item with
    | Some cs =>
        let '(cs', next') :=
          (fix map_items (cs : list Item) (n : nat) : list Item * nat :=
             match cs with
             | [] => ([], n)
             | c :: rest =>
                 let '(c', n1) := updateItem target processedChildren c n in
                 let '(rest', n2) := map_items rest n1 in
                 (c' :: rest', n2)
             end) cs (S next) in
        (with_children next item (Some cs'), next')
    | None => (item, next)
    end.

Fixpoint updateTree (target : string) (processedChildren : list Item)
    (items : list Item) (next : nat) : list Item * nat :=
  match items with
  | [] => ([], next)
  | item :: rest =>
      let '(item', n1) := updateItem target processedChildren item next in
      let '(rest', n2) := updateTree target processedChildren rest n1 in
      (item' :: rest', n2)
  end.

(** The component's state cells. *)
Record State := mkState {
  fileTree : list Item;
  selectedFiles : list Item;
  expandedFolders : gset string;
  error : string;
  isLoading : bool
}.

Definition setFileTree (t : list Item) : M State unit :=
  modify (fun s => mkState t (selectedFiles s) (expandedFolders s) (error s) (isLoading s)).
Definition setSelectedFiles (f : list Item) : M State unit :=
  modify (fun s => mkState (fileTree s) f (expandedFolders s) (error s) (isLoading s)).
Definition setExpandedFolders (e : gset string) : M State unit :=
  modify (fun s => mkState (fileTree s) (selectedFiles s) e (error s) (isLoading s)).
Definition setError (e : string) : M State unit :=
  modify (fun s => mkState (fileTree s) (selectedFiles s) (expandedFolders s) e (isLoading s)).
Definition setIsLoading (b : bool) : M State unit :=
  modify (fun s => mkState (fileTree s) (selectedFiles s) (expandedFolders s) (error s) b).

Section Component.

(** The host's collation, [String.prototype.localeCompare]. *)
Variable localeCompare : string -> string -> Z.
(** Props. *)
Variable githubToken : string.
Variable selectedRepo : option Repo.

(** The comparator handed to [sort]. *)
Definition compareItems (a b : Item) : Z :=
  if String.eqb (type a) (type b) then localeCompare (name a) (name b)
  else if String.eqb (type a) "dir" then -1 else 1.

Definition processFileTree (items : list RawEntry) (basePath : string) (next : nat)
  : list Item * nat :=
  (sort compareItems (processItems basePath items next), (next + length items)%nat).

Definition contents_request (p : string) (full : string) : Request :=
  mkRequest "GET"
    ("https://api.github.com/repos/" +:+ full +:+ "/contents" +:+ p)
    (github_headers githubToken) None.

Definition fetchRepoContents (p : string) : M State unit :=
  setIsLoading true ;;
  setError "" ;;
  try_finally
    (try_catch
       (full <- lift (repo_field "full_name" full_name selectedRepo) ;;
        data <- axios_get (contents_request
                             (if negb (String.eqb p "") then "/" +:+ p else "") full) ;;
        processedFiles <- with_heap (processFileTree data "") ;;
        setFileTree processedFiles)
       (fun err =>
          setError "Failed to fetch repository contents" ;;
          console_error "Fetch error:" err))
    (setIsLoading false).

Definition fetchFolderContents (folder : Item) : M State unit :=
  try_catch
    (full <- lift (repo_field "full_name" full_name selectedRepo) ;;
     data <- axios_get (contents_request ("/" +:+ path folder) full) ;;
     processedChildren <- with_heap (processFileTree data (fullPath folder)) ;;
     st <- get_state ;;
     tree <- with_heap (updateTree (path folder) processedChildren (fileTree st)) ;;
     setFileTree tree)
    (fun err => console_error "Failed to fetch folder contents:" err).

(** [!folder.children || folder.children.length === 0]. *)
Definition no_children (folder : Item) : bool :=
  match children folder with
  | None => true
  | Some cs => (length cs =? 0)%nat
  end.

Definition toggleFolder (folder : Item) : M State unit :=
  st <- get_state ;;
  let newExpanded := expandedFolders st in
  if decide (path folder ∈ newExpanded) then
    setExpandedFolders (newExpanded ∖ {[path folder]})
  else
    (if no_children folder then fetchFolderContents folder else ret tt) ;;
    setExpandedFolders ({[path folder]} ∪ newExpanded).

Definition toggleFileSelection (file : Item) : M State unit :=
  st <- get_state ;;
  let newSelected := selectedFiles st in
  let index := findIndex (fun f => String.eqb (path f) (path file)) newSelected in
  if -1 <? index then setSelectedFiles (splice1 index newSelected)
  else setSelectedFiles (newSelected ++ [file]).

(** The [onClick] handler of a rendered item. *)
Definition onClick (item : Item) : M State unit :=
  if String.eqb (type item) "dir" then toggleFolder item
  else if isCodeFile item then toggleFileSelection item
  else ret tt.

(** The effect run when the component mounts or its props change. *)
Definition loadOnMount : M State unit :=
  if negb (String.eqb githubToken "")
     && match selectedRepo with Some _ => true | None => false end
  then fetchRepoContents ""
  else ret tt.

End Component.

(** [filterFiles], with the state cells [searchTerm] and [filterType] and
    the host's [toLowerCase] as arguments. *)
Definition matchesFilter (toLowerCase : string -> string) (searchTerm filterType : string)
    (item : Item) : bool :=
  let matchesSearch := includes (toLowerCase (name item)) (toLowerCase searchTerm) in
  if String.eqb filterType "code" then matchesSearch && isCodeFile item
  else if String.eqb filterType "test" then matchesSearch && isTestFile item
  else matchesSearch.

Definition filterFiles (toLowerCase : string -> string) (searchTerm filterType : string)
    (items : list Item) : list Item :=
  List.filter (matchesFilter toLowerCase searchTerm filterType) items.

End FileExplorer.

(** ** TestCaseGenerator.jsx *)

Module TestCaseGenerator.
Import Js Net.
Import FileExplorer(Item, name, path, type, size, download_url, mkItem).
Local Open Scope js_scope.

(** One element of [summaries]. [testCaseCount] is [testCases.length],
    whatever the backend sent as [test_cases]. *)
Record Summary := mkSummary {
  fileName : string;
  filePath : string;
  testCaseCount : JsValue;
  status : string;
  testCases : JsValue
}.

(** The component's state cells, and the calls made to the
    [onTestCasesGenerated] prop. *)
Record State := mkState {
  currentFileIndex : Z;
  testCaseSummaries : list Summary;
  isGenerating : bool;
  error : string;
  generatedTestCases : gmap string JsValue;
  reported : list (list Summary)
}.

Definition setCurrentFileIndex (i : Z) : M State unit :=
  modify (fun s => mkState i (testCaseSummaries s) (isGenerating s) (error s)
                     (generatedTestCases s) (reported s)).
Definition setTestCaseSummaries (l : list Summary) : M State unit :=
  modify (fun s => mkState (currentFileIndex s) l (isGenerating s) (error s)
                     (generatedTestCases s) (reported s)).
Definition setIsGenerating (b : bool) : M State unit :=
  modify (fun s => mkState (currentFileIndex s) (testCaseSummaries s) b (error s)
                     (generatedTestCases s) (reported s)).
Definition setError (e : string) : M State unit :=
  modify (fun s => mkState (currentFileIndex s) (testCaseSummaries s) (isGenerating s) e
                     (generatedTestCases s) (reported s)).
Definition setGeneratedTestCases (f : gmap string JsValue -> gmap string JsValue)
  : M State unit :=
  modify (fun s => mkState (currentFileIndex s) (testCaseSummaries s) (isGenerating s)
                     (error s) (f (generatedTestCases s)) (reported s)).
Definition onTestCasesGenerated (summaries : list Summary) : M State unit :=
  modify (fun s => mkState (currentFileIndex s) (testCaseSummaries s) (isGenerating s)
                     (error s) (generatedTestCases s) (reported s ++ [summaries])).

(** The identifiers [selectedRepo] and [githubToken] are read by
    [fetchFileContent], but the component destructures only
    [selectedFiles], [onTestCasesGenerated], [onCodeGenerated] and
    [setIsLoading] from its props and the module declares neither. A
    [Scope] says what each identifier resolves to, [None] for an
    identifier without a binding. *)
Record Scope := mkScope {
  scope_selectedRepo : option (option Repo);
  scope_githubToken : option string
}.

(** The scope the component's source gives. *)
Definition component_scope : Scope := mkScope None None.

Definition resolve {A} (id : string) (binding : option A) : Completion A :=
  match binding with
  | Some v => Normal v
  | None => Throw (ReferenceError (id +:+ " is not defined"))
  end.

(** The text returned by the [catch] of [fetchFileContent]. *)
Definition mockContent (fileName msg : string) : string :=
  "// Mock content for " +:+ fileName +:+ " (failed to fetch real content)" +:+ nl
  +:+ "// Error: " +:+ msg +:+ nl
  +:+ "function sampleFunction() {" +:+ nl
  +:+ "  return " +:+ dq +:+ "Hello World" +:+ dq +:+ ";" +:+ nl
  +:+ "}".

Definition download_request (u : string) : Request := mkRequest "GET" u [] None.

Definition api_request (full p token : string) : Request :=
  mkRequest "GET" ("https://api.github.com/repos/" +:+ full +:+ "/contents/" +:+ p)
            (github_headers token) None.

(** The statements after the [if (file.download_url)] block. *)
Definition fetchViaApi {S} (scope : Scope) (file : Item) : M S string :=
  repo <- lift (resolve "selectedRepo" (scope_selectedRepo scope)) ;;
  full <- lift (repo_field "full_name" full_name repo) ;;
  token <- lift (resolve "githubToken" (scope_githubToken scope)) ;;
  response <- fetch (api_request full (path file) token) ;;
  if negb (ok response) then
    throw (Error ("GitHub API error: " +:+ pretty (Net.status response)))
  else
    data <- lift (json response) ;;
    ty <- lift (get data "type") ;;
    content <- lift (get data "content") ;;
    if strict_eq_string ty "file" && truthy content then
      match content with
      | JStr c => lift (atob (remove_newlines c))
      | _ => throw (TypeError "data.content.replace is not a function")
      end
    else throw (Error "Invalid file data received from GitHub API").

Definition fetchFileContent_in {S} (scope : Scope) (file : Item) : M S string :=
  try_catch
    (match download_url file with
     | Some u =>
         if negb (String.eqb u "") then
           response <- fetch (download_request u) ;;
           if negb (ok response) then
             throw (Error ("Failed to fetch via download_url: "
                           +:+ pretty (Net.status response)))
           else ret (text response)
         else fetchViaApi scope file
     | None => fetchViaApi scope file
     end)
    (fun err =>
       console_error "❌ Error fetching file content:" err ;;
       ret (mockContent (name file) (message err))).

Definition fetchFileContent {S} (file : Item) : M S string :=
  fetchFileContent_in component_scope file.

Definition mockTestCases (fileName : string) : JsValue :=
  JArr [
    JObj [("input", JStr ("// Function from " +:+ fileName));
          ("output", JStr (dq +:+ "Mock Result 1" +:+ dq))];
    JObj [("input", JStr ("// Test case 2 for " +:+ fileName));
          ("output", JStr (dq +:+ "Mock Result 2" +:+ dq))];
    JObj [("input", JStr ("// Test case 3 for " +:+ fileName));
          ("output", JStr (dq +:+ "Mock Result 3" +:+ dq))];
    JObj [("input", JStr ("// Test case 4 for " +:+ fileName));
          ("output", JStr (dq +:+ "Mock Result 4" +:+ dq))]
  ].

Definition generation_request (code : string) : Request :=
  mkRequest "POST" "http://127.0.0.1:5000/generate-testcases"
            [("Content-Type", "application/json")]
            (Some (JObj [("code", JStr code)])).

Definition generateTestCasesForFile {S} (code fileName : string) : M S JsValue :=
  try_catch
    (response <- fetch (generation_request code) ;;
     if negb (ok response) then
       throw (Error ("HTTP error! status: " +:+ pretty (Net.status response)))
     else
       data <- lift (json response) ;;
       test_cases <- lift (get data "test_cases") ;;
       ret (or_else test_cases (JArr [])))
    (fun err =>
       console_error "❌ API Error:" err ;;
       ret (mockTestCases fileName)).

(** The body of the [for] loop of [startGeneration], from index [i] on,
    with [summaries] as accumulated so far. *)
Fixpoint processFiles (files : list Item) (i : Z) (summaries : list Summary)
  : M State (list Summary) :=
  match files with
  | [] => ret summaries
  | file :: rest =>
      setCurrentFileIndex i ;;
      fileContent <- fetchFileContent file ;;
      testCases <- generateTestCasesForFile fileContent (name file) ;;
      count <- lift (get testCases "length") ;;
      let summary := mkSummary (name file) (path file) count "completed" testCases in
      let summaries := summaries ++ [summary] in
      setTestCaseSummaries summaries ;;
      setGeneratedTestCases (fun prev => <[path file := testCases]> prev) ;;
      processFiles rest (i + 1) summaries
  end.

Definition startGeneration (selectedFiles : list Item) : M State unit :=
  setIsGenerating true ;;
  setError "" ;;
  setCurrentFileIndex 0 ;;
  setTestCaseSummaries [] ;;
  setGeneratedTestCases (fun _ => ∅) ;;
  try_finally
    (try_catch
       (summaries <- processFiles selectedFiles 0 [] ;;
        onTestCasesGenerated summaries)
       (fun err =>
          console_error "💥 Generation failed:" err ;;
          setError ("Failed to generate test cases: " +:+ message err)))
    (setIsGenerating false).

(** The first lines of [finalCode]. *)
Definition finalCodeHeader : string :=
  "// Generated Test Cases" +:+ nl +:+ "// Generated by Workik AI Test Generator" +:+ nl
  +:+ nl.

(** The stub appended for one test case: the body of the inner
    [forEach] of [generateFinalCode]. Reading [input] of a [null] element
    throws, and so does an [input] or [output] that has no text. *)
Definition testStub (index : Z) (testCase : JsValue) : Completion string :=
  match get testCase "input" with
  | Throw e => Throw e
  | Normal input =>
      match toString input with
      | Throw e => Throw e
      | Normal inputText =>
          match get testCase "output" with
          | Throw e => Throw e
          | Normal output =>
              match toString output with
              | Throw e => Throw e
              | Normal outputText =>
                  Normal ("  test('Test case " +:+ pretty (index + 1) +:+ "', () => {" +:+ nl
                          +:+ "    // Input: " +:+ inputText +:+ nl
                          +:+ "    // Expected Output: " +:+ outputText +:+ nl
                          +:+ "    // TODO: Implement test logic" +:+ nl
                          +:+ "  });" +:+ nl +:+ nl)
              end
          end
      end
  end.

(** [summary.testCases.forEach(...)] on an array, from [index] on. *)
Fixpoint appendTestCases (finalCode : string) (index : Z) (cases : list JsValue)
  : Completion string :=
  match cases with
  | [] => Normal finalCode
  | testCase :: rest =>
      match testStub index testCase with
      | Throw e => Throw e
      | Normal stub => appendTestCases (finalCode +:+ stub) (index + 1) rest
      end
  end.

(** The body of the outer [forEach]: [forEach] exists on arrays only. *)
Definition appendSummary (finalCode : string) (summary : Summary) : Completion string :=
  let opened :=
    finalCode +:+ "// Test cases for " +:+ fileName summary +:+ nl
    +:+ "describe('" +:+ fileName summary +:+ "', () => {" +:+ nl in
  match testCases summary with
  | JArr cases =>
      match appendTestCases opened 0 cases with
      | Throw e => Throw e
      | Normal code => Normal (code +:+ "});" +:+ nl +:+ nl)
      end
  | JUndefined =>
      Throw (TypeError "Cannot read properties of undefined (reading 'forEach')")
  | JNull => Throw (TypeError "Cannot read properties of null (reading 'forEach')")
  | _ => Throw (TypeError "summary.testCases.forEach is not a function")
  end.

Fixpoint appendSummaries (finalCode : string) (summaries : list Summary)
  : Completion string :=
  match summaries with
  | [] => Normal finalCode
  | summary :: rest =>
      match appendSummary finalCode summary with
      | Throw e => Throw e
      | Normal code => appendSummaries code rest
      end
  end.

(** [generateFinalCode]; the value is the text handed to the
    [onCodeGenerated] prop. *)
Definition generateFinalCode : M State string :=
  st <- get_state ;;
  lift (appendSummaries finalCodeHeader (testCaseSummaries st)).

End TestCaseGenerator.

(** ** TestCaseViewer.jsx *)

Module TestCaseViewer.
Import Js Net.
Local Open Scope js_scope.

(** The component's state cells. *)
Record State := mkState {
  pushStatus : string;
  pushMessage : string;
  fileName : string;
  commitMessage : string;
  branchName : string;
  isLoading : bool
}.

Definition initial_state : State :=
  mkState "" "" "generated-tests.test.js" "Add generated test cases by Workik AI"
          "workik-test-cases" false.

Definition setPushStatus (v : string) : M State unit :=
  modify (fun s => mkState v (pushMessage s) (fileName s) (commitMessage s)
                     (branchName s) (isLoading s)).
Definition setPushMessage (v : string) : M State unit :=
  modify (fun s => mkState (pushStatus s) v (fileName s) (commitMessage s)
                     (branchName s) (isLoading s)).
Definition setIsLoading (b : bool) : M State unit :=
  modify (fun s => mkState (pushStatus s) (pushMessage s) (fileName s) (commitMessage s)
                     (branchName s) b).

Section Component.

(** Props. *)
Variable generatedCode : string.
Variable githubToken : string.
Variable selectedRepo : option Repo.

Definition json_headers : list (string * string) :=
  github_headers githubToken ++ [("Content-Type", "application/json")].

Definition default_ref_request (full branch : string) : Request :=
  mkRequest "GET"
    ("https://api.github.com/repos/" +:+ full +:+ "/git/ref/heads/" +:+ branch)
    (github_headers githubToken) None.

Definition create_ref_request (full branch : string) (sha : JsValue) : Request :=
  mkRequest "POST" ("https://api.github.com/repos/" +:+ full +:+ "/git/refs")
    json_headers
    (Some (JObj [("ref", JStr ("refs/heads/" +:+ branch)); ("sha", sha)])).

Definition createBranchIfNotExists : M State unit :=
  try_catch
    (full <- lift (repo_field "full_name" full_name selectedRepo) ;;
     branch <- lift (repo_field "default_branch" default_branch selectedRepo) ;;
     defaultBranchResponse <- fetch (default_ref_request full branch) ;;
     if negb (ok defaultBranchResponse) then
       throw (Error "Failed to get default branch")
     else
       defaultBranchData <- lift (json defaultBranchResponse) ;;
       object <- lift (get defaultBranchData "object") ;;
       sha <- lift (get object "sha") ;;
       st <- get_state ;;
       createBranchResponse <- fetch (create_ref_request full (branchName st) sha) ;;
       if negb (ok createBranchResponse) && negb (Net.status createBranchResponse =? 422)
       then throw (Error "Failed to create branch")
       else ret tt)
    (fun err => console_error "Branch creation error:" err).

Definition existing_file_request (full file branch : string) : Request :=
  mkRequest "GET"
    ("https://api.github.com/repos/" +:+ full +:+ "/contents/" +:+ file
     +:+ "?ref=" +:+ branch)
    (github_headers githubToken) None.

(** [fileContent]: the text, re-encoded and in base64. *)
Definition fileContent : Completion string :=
  match utf8_bytes generatedCode with
  | Throw e => Throw e
  | Normal bytes => Normal (btoa bytes)
  end.

(** [requestBody], with [sha] added when [existingFileSha] is truthy. *)
Definition requestBody (content : string) (st : State) (existingFileSha : JsValue)
  : JsValue :=
  JObj ([("message", JStr (commitMessage st));
         ("content", JStr content);
         ("branch", JStr (branchName st))]
        ++ (if truthy existingFileSha then [("sha", existingFileSha)] else [])).

Definition put_file_request (full content : string) (st : State)
    (existingFileSha : JsValue) : Request :=
  mkRequest "PUT"
    ("https://api.github.com/repos/" +:+ full +:+ "/contents/" +:+ fileName st)
    json_headers (Some (requestBody content st existingFileSha)).

(** The existence check: the value of [existingFileSha] after the first
    [try] block. *)
Definition checkExistingFile : M State JsValue :=
  try_catch
    (full <- lift (repo_field "full_name" full_name selectedRepo) ;;
     st <- get_state ;;
     existingFileResponse <-
       fetch (existing_file_request full (fileName st) (branchName st)) ;;
     if ok existingFileResponse then
       existingFileData <- lift (json existingFileResponse) ;;
       lift (get existingFileData "sha")
     else ret JNull)
    (fun _ => ret JNull).

Definition createOrUpdateFile : M State unit :=
  existingFileSha <- checkExistingFile ;;
  content <- lift fileContent ;;
  st <- get_state ;;
  full <- lift (repo_field "full_name" full_name selectedRepo) ;;
  response <- fetch (put_file_request full content st existingFileSha) ;;
  if negb (ok response) then
    errorData <- lift (json response) ;;
    msg <- lift (get errorData "message") ;;
    text <- lift (toString (or_else msg (JStr "Failed to create/update file"))) ;;
    throw (Error text)
  else ret tt.

Definition pushToGitHub : M State unit :=
  setPushStatus "pushing" ;;
  setPushMessage "" ;;
  setIsLoading true ;;
  try_finally
    (try_catch
       (createBranchIfNotExists ;;
        createOrUpdateFile ;;
        setPushStatus "success" ;;
        rname <- lift (repo_field "name" repo_name selectedRepo) ;;
        st <- get_state ;;
        setPushMessage ("Successfully pushed test cases to " +:+ rname +:+ "/"
                        +:+ branchName st))
       (fun err =>
          setPushStatus "error" ;;
          setPushMessage ("Failed to push to GitHub: " +:+ message err) ;;
          console_error "Push error:" err))
    (setIsLoading false).

(** One element of [formatCodeWithLineNumbers()]. *)
Record Line := mkLine { number : Z; content : string }.

Fixpoint numberLines (index : Z) (lines : list string) : list Line :=
  match lines with
  | [] => []
  | line :: rest => mkLine (index + 1) line :: numberLines (index + 1) rest
  end.

Definition formatCodeWithLineNumbers : list Line :=
  numberLines 0 (split "010"%char generatedCode).

(** The "Lines of Code" figure, [generatedCode.split('\n').length]. *)
Definition linesOfCode : Z := Z.of_nat (length (split "010"%char generatedCode)).

End Component.

End TestCaseViewer.

(** ** App.jsx *)

Module App.
Import Js Net.
Import FileExplorer(Item).
Import TestCaseGenerator(Summary).

(** The state cells of [App]. *)
Record State := mkState {
  currentStep : string;
  githubToken : string;
  selectedRepo : option Repo;
  selectedFiles : list Item;
  testCaseSummaries : list Summary;
  generatedCode : string;
  isLoading : bool
}.

(** The page: the state cells and the browser's local storage, which
    outlives a reload. *)
Definition Page : Type := State * gmap string string.

(** The state a freshly loaded page starts from. *)
Definition initial_state : State := mkState "auth" "" None [] [] "" false.

(** The mount effect: a saved, non-empty token skips the sign-in step. *)
Definition onMount (page : Page) : Page :=
  let '(st, storage) := page in
  match storage !! "github_token" with
  | Some savedToken =>
      if negb (String.eqb savedToken "") then
        (mkState "files" savedToken (selectedRepo st) (selectedFiles st)
                 (testCaseSummaries st) (generatedCode st) (isLoading st), storage)
      else page
  | None => page
  end.

(** A reload: the state cells start over, the storage stays. *)
Definition reload (page : Page) : Page := onMount (initial_state, snd page).

Definition handleAuthSuccess (token : string) (repo : Repo) (page : Page) : Page :=
  let '(st, storage) := page in
  (mkState "files" token (Some repo) (selectedFiles st) (testCaseSummaries st)
           (generatedCode st) (isLoading st),
   <["github_token" := token]> storage).

Definition handleFilesSelected (files : list Item) (page : Page) : Page :=
  let '(st, storage) := page in
  (mkState "generate" (githubToken st) (selectedRepo st) files (testCaseSummaries st)
           (generatedCode st) (isLoading st), storage).

Definition handleTestCasesGenerated (summaries : list Summary) (page : Page) : Page :=
  let '(st, storage) := page in
  (mkState (currentStep st) (githubToken st) (selectedRepo st) (selectedFiles st)
           summaries (generatedCode st) (isLoading st), storage).

Definition handleCodeGenerated (code : string) (page : Page) : Page :=
  let '(st, storage) := page in
  (mkState "view" (githubToken st) (selectedRepo st) (selectedFiles st)
           (testCaseSummaries st) code (isLoading st), storage).

Definition handleReset (page : Page) : Page :=
  let '(st, storage) := page in
  (mkState "auth" "" None [] [] "" (isLoading st), delete "github_token" storage).

End App.

(** ** A host collation and sample inputs *)

Module Host.
Import Js.

(** Comparison of two strings by their code units, as [<] on strings
    does: -1, 0 or 1. This is case-sensitive lexicographic order. *)
Definition compareCodeUnits (a b : string) : Z :=
  match String.compare a b with
  | Lt => -1
  | Eq => 0
  | Gt => 1
  end.

Definition foldCase (c : ascii) : ascii :=
  let n := N_of_ascii c in
  if ((65 <=? n) && (n <=? 90))%N then ascii_of_N (n + 32) else c.

Fixpoint foldCases (s : string) : string :=
  match s with
  | EmptyString => EmptyString
  | String c s' => String (foldCase c) (foldCases s')
  end.

(** A collation of the kind browsers give [localeCompare] by default:
    letters are compared without regard to case first, and the case only
    breaks ties, lower case first. On names whose first difference, case
    set aside, is between two letters, as in ["B.js"] and ["a.js"], it
    agrees with the ICU root collation. *)
Definition alphabeticCollation (a b : string) : Z :=
  let primary := compareCodeUnits (foldCases a) (foldCases b) in
  if primary =? 0 then - compareCodeUnits a b else primary.

End Host.

Module Samples.
Import Js Net FileExplorer.

Definition entry (nm ty : string) (url : option string) : RawEntry :=
  mkRawEntry nm nm ty 120 url.

Definition file_item (o : nat) (nm : string) (url : option string) : Item :=
  mkItem o nm nm "file" 120 url nm (some_endsWith codeExtensions nm)
         (some_endsWith testExtensions nm) None.

Definition dir_item (o : nat) (nm : string) (cs : list Item) : Item :=
  mkItem o nm nm "dir" 0 None nm (some_endsWith codeExtensions nm)
         (some_endsWith testExtensions nm) (Some cs).

Definition repo : Repo := mkRepo "demo" "octo/demo" "main".

(** Every request fails in transport. *)
Definition offline : World :=
  mkWorld (fun _ _ => Rejected (TypeError "Failed to fetch"))
          (fun _ _ => Throw (mkError "AxiosError" "Network Error"))
          [] [] 100.

(** Every request is answered with the given status and an empty body
    that is not JSON. *)
Definition answering (code : Z) : World :=
  mkWorld (fun _ _ => Resolved (mkResponse code ""
                                  (Throw (mkError "SyntaxError" "Unexpected end of JSON input"))))
          (fun _ _ => Throw (mkError "AxiosError" "Request failed"))
          [] [] 100.

(** Listings succeed with the given entries; [fetch] fails in transport. *)
Definition serving (entries : list RawEntry) : World :=
  mkWorld (fun _ _ => Rejected (TypeError "Failed to fetch"))
          (fun _ _ => Normal entries)
          [] [] 100.

Definition a_js : Item :=
  file_item 1 "a.js" (Some "https://raw.githubusercontent.com/octo/demo/main/a.js").
Definition b_py : Item :=
  file_item 2 "b.py" (Some "https://raw.githubusercontent.com/octo/demo/main/b.py").
Definition notes_md : Item := file_item 3 "notes.md" None.
Definition util_test_js : Item := file_item 4 "util.test.js" None.

(** A tree with two sibling directories: [src], not yet expanded, and
    [lib], expanded before, with one cached child. *)
Definition lib_child : Item := file_item 12 "index.js" None.
Definition src_dir : Item := dir_item 10 "src" [].
Definition lib_dir : Item := dir_item 11 "lib" [lib_child].
Definition sample_tree : list Item := [lib_dir; src_dir; a_js].
Definition src_children : list Item := [file_item 20 "main.js" None].

(** The default branch tip is read; every later request is answered 422. *)
Definition branch_exists_world : World :=
  mkWorld
    (fun hist _ =>
       match hist with
       | [] => Resolved (mkResponse 200 ""
                 (Normal (JObj [("object", JObj [("sha", JStr "c0ffee")])])))
       | _ => Resolved (mkResponse 422 ""
                 (Normal (JObj [("message", JStr "Reference already exists")])))
       end)
    (fun _ _ => Throw (mkError "AxiosError" "Network Error"))
    [] [] 100.

(** Every request is answered 200 with a contents object whose [sha] is
    ["abc123"]. *)
Definition file_present_world : World :=
  mkWorld
    (fun _ _ => Resolved (mkResponse 200 ""
                  (Normal (JObj [("name", JStr "generated-tests.test.js");
                                 ("sha", JStr "abc123")]))))
    (fun _ _ => Throw (mkError "AxiosError" "Network Error"))
    [] [] 100.

Definition empty_explorer : FileExplorer.State :=
  FileExplorer.mkState sample_tree [] ∅ "" false.

(** A tree whose only node is the directory [src]; listings succeed and
    hold no entries. *)
Definition lone_directory : World * FileExplorer.State :=
  (serving [], FileExplorer.mkState [src_dir] [] ∅ "" false).

(** A click on the first node of the tree, with the item as rendered from
    the current state. *)
Definition click_first (st : World * FileExplorer.State) : World * FileExplorer.State :=
  snd (onClick Host.alphabeticCollation "tok" (Some repo)
         (default src_dir (fileTree (snd st) !! 0%nat)) st).

Definition empty_generator : TestCaseGenerator.State :=
  TestCaseGenerator.mkState 0 [] false "" ∅ [].

(** The backend answers every request 200 with [test_cases] set to a
    string instead of an array. *)
Definition misshapen_backend : World :=
  mkWorld
    (fun _ _ => Resolved (mkResponse 200 ""
                  (Normal (JObj [("test_cases", JStr "abc")]))))
    (fun _ _ => Throw (mkError "AxiosError" "Network Error"))
    [] [] 100.

(** The generator after a run that fell back on the mock for [a.js]. *)
Definition after_mock_run : TestCaseGenerator.State :=
  TestCaseGenerator.mkState 0
    [TestCaseGenerator.mkSummary "a.js" "a.js" (JNum 4) "completed"
       (TestCaseGenerator.mockTestCases "a.js")]
    false "" ∅ [].

Definition after_mock_run_code : string :=
  Eval vm_compute in
    match TestCaseGenerator.appendSummaries TestCaseGenerator.finalCodeHeader
            (TestCaseGenerator.testCaseSummaries after_mock_run) with
    | Normal text => text
    | Throw _ => ""
    end.


End Samples.

(** * Properties *)

(** ** Facts about the built-ins *)

Module JsFacts.
Import Js.

Lemma app_empty (s : string) : "" +:+ s = s.
Proof. reflexivity. Qed.

Lemma app_String (c : ascii) (a b : string) : String c a +:+ b = String c (a +:+ b).
Proof. reflexivity. Qed.

Lemma endsWith_suffix (s ext : string) :
  endsWith s ext = true <-> exists p, s = p +:+ ext.
Proof.
  induction s as [|c s IH]; cbn [endsWith].
  - rewrite orb_false_r, String.eqb_eq. split.
    + intros <-. by exists "".
    + intros [[|c p] Hp]; [by rewrite app_empty in Hp | by rewrite app_String in Hp].
  - rewrite orb_true_iff, String.eqb_eq, IH. split.
    + intros [<- | [p ->]]; [by exists "" | by exists (String c p)].
    + intros [[|c' p] Hp]; [by left | right].
      rewrite app_String in Hp. injection Hp as -> ->. by exists p.
Qed.

Lemma string_app_assoc (a b c : string) : (a +:+ b) +:+ c = a +:+ (b +:+ c).
Proof.
  induction a as [|x a IH]; [done |].
  by rewrite !app_String, IH.
Qed.

(** A name that ends with [a +:+ b] ends with [b]. *)
Lemma endsWith_longer (s a b : string) :
  endsWith s (a +:+ b) = true -> endsWith s b = true.
Proof.
  rewrite !endsWith_suffix. intros [p ->].
  exists (p +:+ a). by rewrite string_app_assoc.
Qed.

Lemma some_endsWith_elem (exts : list string) (nm : string) :
  some_endsWith exts nm = true <-> exists ext, ext ∈ exts /\ endsWith nm ext = true.
Proof.
  unfold some_endsWith. rewrite existsb_exists.
  split; intros (ext & Hin & He); exists ext; split; try done;
    by apply list_elem_of_In.
Qed.

Example toString_samples :
  toString (JNum 42) = Normal "42" /\
  toString (JNum (-7)) = Normal "-7" /\
  toString (JNum (2 ^ 53 + 1)) = Normal "9007199254740992" /\
  toString (JNum (10 ^ 21)) = Normal "1e+21" /\
  toString (JNum (2 ^ 70)) = Normal "1.1805916207174113e+21" /\
  toString (JArr [JNum 1; JNull; JArr [JStr "a"; JUndefined]; JBool true]) = Normal "1,,a,,true" /\
  toString (JObj [("input", JNum 1)]) = Normal "[object Object]" /\
  toString (JObj [("toString", JNum 1)])
  = Throw (TypeError "Cannot convert object to primitive value") /\
  toString (JArr [JStr "a"; JObj [("toString", JNull)]])
  = Throw (TypeError "Cannot convert object to primitive value").
Proof. vm_compute. by repeat split. Qed.

(** U+D800 alone, and the pair U+D83D U+DE00 as the four bytes of U+1F600. *)
Example utf8_bytes_samples :
  utf8_bytes (String "237"%char (String "160"%char (String "128"%char "")))
  = Throw (URIError "URI malformed") /\
  (let pair := String "240"%char (String "159"%char (String "152"%char
                 (String "128"%char ""))) in
   utf8_bytes pair = Normal pair /\ length_utf16 pair = 2%nat) /\
  utf8_bytes "// tests" = Normal "// tests".
Proof. vm_compute. by repeat split. Qed.

Example btoa_sample : btoa "// tests" = "Ly8gdGVzdHM=".
Proof. reflexivity. Qed.

Example atob_sample : atob (remove_newlines ("Ly8g" +:+ nl +:+ "dGVzdHM=")) = Normal "// tests".
Proof. reflexivity. Qed.

Example atob_rejects : atob "a" = Throw InvalidCharacterError.
Proof. reflexivity. Qed.

Section Sorting.
Context {A : Type} (cmp : A -> A -> Z).

(** [a] may stand before [b]. *)
Definition before (a b : A) : Prop := cmp a b <= 0.

Lemma sort_insert_perm (x : A) (l : list A) : sort_insert cmp x l ≡ₚ x :: l.
Proof.
  induction l as [|y l IH]; simpl; [done |].
  destruct (0 <? cmp x y); [| done].
  rewrite IH. apply Permutation_swap.
Qed.

Lemma sort_perm (l : list A) : sort cmp l ≡ₚ l.
Proof.
  induction l as [|x l IH]; simpl; [done |].
  by rewrite sort_insert_perm, IH.
Qed.

(** The comparator is consistent on the elements that satisfy [dom]. *)
Variable dom : A -> Prop.
Hypothesis cmp_total : forall a b, dom a -> dom b -> 0 < cmp a b -> cmp b a <= 0.
Hypothesis cmp_trans :
  forall a b c, dom a -> dom b -> dom c -> cmp a b <= 0 -> cmp b c <= 0 -> cmp a c <= 0.

Lemma sort_insert_sorted (x : A) (l : list A) :
  dom x -> Forall dom l ->
  StronglySorted before l -> StronglySorted before (sort_insert cmp x l).
Proof.
  intros Hx Hl Hs. induction Hs as [|y l Hs IH Hy]; simpl.
  - repeat constructor.
  - apply Forall_cons in Hl as [Hdy Hl].
    destruct (0 <? cmp x y) eqn:Hc.
    + apply Z.ltb_lt in Hc. constructor; [by apply IH |].
      rewrite sort_insert_perm. constructor; [by apply cmp_total | done].
    + apply Z.ltb_ge in Hc. constructor; [by constructor |].
      constructor; [done |].
      rewrite Forall_forall in Hy, Hl. apply Forall_forall. intros z Hz.
      apply (cmp_trans x y z); auto. by apply Hy.
Qed.

Lemma sort_sorted (l : list A) :
  Forall dom l -> StronglySorted before (sort cmp l).
Proof.
  induction 1 as [|x l Hx Hl IH]; simpl; [constructor |].
  apply sort_insert_sorted; [done | | done].
  by rewrite sort_perm.
Qed.

End Sorting.

Lemma StronglySorted_lookup {A} (R : A -> A -> Prop) (l : list A) (i j : nat) (a b : A) :
  StronglySorted R l -> (i < j)%nat -> l !! i = Some a -> l !! j = Some b -> R a b.
Proof.
  intros Hs. revert i j. induction Hs as [|x l Hs IH Hx]; intros i j Hij Hi Hj.
  - by rewrite lookup_nil in Hi.
  - destruct j as [|j]; [lia |]. simpl in Hj. destruct i as [|i]; simpl in Hi.
    + injection Hi as ->. rewrite Forall_forall in Hx. apply Hx.
      by eapply list_elem_of_lookup_2.
    + apply (IH i j); [lia | done | done].
Qed.

End JsFacts.

(** ** The sample collation is a consistent comparator *)

Module HostFacts.
Import Host.

Lemma compareCodeUnits_opp (a b : string) : compareCodeUnits b a = - compareCodeUnits a b.
Proof.
  unfold compareCodeUnits. rewrite (String.compare_antisym a b).
  by destruct (String.compare b a).
Qed.

Lemma compareCodeUnits_eq (a b : string) : compareCodeUnits a b = 0 -> a = b.
Proof.
  unfold compareCodeUnits. destruct (String.compare a b) eqn:E; try done.
  intros _. by apply String.compare_eq_iff.
Qed.

Lemma compareCodeUnits_le (a b : string) : compareCodeUnits a b <= 0 <-> String.le a b.
Proof.
  unfold compareCodeUnits, String.le, String.leb.
  destruct (String.compare a b); simpl; (split; [intros ?; try done; lia | done]).
Qed.

Lemma compareCodeUnits_trans (a b c : string) :
  compareCodeUnits a b <= 0 -> compareCodeUnits b c <= 0 -> compareCodeUnits a c <= 0.
Proof. rewrite !compareCodeUnits_le. intros H1 H2. by etrans. Qed.

Lemma alphabeticCollation_total (a b : string) :
  0 < alphabeticCollation a b -> alphabeticCollation b a <= 0.
Proof.
  unfold alphabeticCollation.
  rewrite (compareCodeUnits_opp (foldCases a) (foldCases b)), (compareCodeUnits_opp a b).
  destruct (compareCodeUnits (foldCases a) (foldCases b) =? 0) eqn:E1;
    destruct (- compareCodeUnits (foldCases a) (foldCases b) =? 0) eqn:E2; lia.
Qed.

Lemma alphabeticCollation_trans (a b c : string) :
  alphabeticCollation a b <= 0 -> alphabeticCollation b c <= 0 ->
  alphabeticCollation a c <= 0.
Proof.
  unfold alphabeticCollation. intros Hab Hbc.
  assert (Pab : compareCodeUnits (foldCases a) (foldCases b) <= 0)
    by (destruct (_ =? 0) eqn:E in Hab; lia).
  assert (Pbc : compareCodeUnits (foldCases b) (foldCases c) <= 0)
    by (destruct (_ =? 0) eqn:E in Hbc; lia).
  pose proof (compareCodeUnits_trans _ _ _ Pab Pbc) as Pac.
  destruct (compareCodeUnits (foldCases a) (foldCases c) =? 0) eqn:Eac; [| done].
  apply Z.eqb_eq, compareCodeUnits_eq in Eac.
  rewrite <- Eac in Pbc, Hbc. rewrite (compareCodeUnits_opp (foldCases a) (foldCases b)) in Pbc, Hbc.
  assert (E0 : compareCodeUnits (foldCases a) (foldCases b) = 0) by lia.
  rewrite E0 in Hab, Hbc. simpl in Hab, Hbc.
  rewrite <- (compareCodeUnits_opp a b) in Hab. rewrite <- (compareCodeUnits_opp b c) in Hbc.
  rewrite <- (compareCodeUnits_opp a c). by apply (compareCodeUnits_trans c b a).
Qed.

End HostFacts.

(** ** FileExplorer: classification and sibling order *)

Module ExplorerFacts.
Import Js Net FileExplorer JsFacts.

(** Each test suffix ends with a code suffix. *)
Lemma test_extensions_covered :
  forallb (fun t => existsb (fun c => endsWith t c) codeExtensions) testExtensions = true.
Proof. reflexivity. Qed.

Lemma test_name_is_code_name (nm : string) :
  some_endsWith testExtensions nm = true -> some_endsWith codeExtensions nm = true.
Proof.
  rewrite !some_endsWith_elem. intros (ext & Hin & He).
  unfold testExtensions in Hin. repeat (apply elem_of_cons in Hin as [-> | Hin]);
    [exists ".js" | exists ".js" | exists ".ts" | exists ".ts" | exists ".py" |
      by apply elem_of_nil in Hin];
    (split; [unfold codeExtensions; set_solver |]).
  - by apply (endsWith_longer nm ".test" ".js").
  - by apply (endsWith_longer nm ".spec" ".js").
  - by apply (endsWith_longer nm ".test" ".ts").
  - by apply (endsWith_longer nm ".spec" ".ts").
  - by apply (endsWith_longer nm ".test" ".py").
Qed.

Lemma processItems_elem (basePath : string) (entries : list RawEntry) (next : nat) (it : Item) :
  it ∈ processItems basePath entries next ->
  exists o e, e ∈ entries /\ it = processItem basePath o e.
Proof.
  revert next. induction entries as [|e entries IH]; intros next; simpl.
  - by intros ?%elem_of_nil.
  - intros [-> | Hin]%elem_of_cons.
    + exists next, e. split; [left | done].
    + destruct (IH _ Hin) as (o & e' & He' & ->). exists o, e'. split; [by right | done].
Qed.

Lemma processFileTree_elem lc (entries : list RawEntry) (basePath : string) (next : nat)
    (it : Item) :
  it ∈ (processFileTree lc entries basePath next).1 ->
  exists o e, e ∈ entries /\ it = processItem basePath o e.
Proof.
  unfold processFileTree. simpl. rewrite (sort_perm (compareItems lc)).
  apply processItems_elem.
Qed.

Section Order.
Variable localeCompare : string -> string -> Z.
Hypothesis lc_total : forall a b, 0 < localeCompare a b -> localeCompare b a <= 0.
Hypothesis lc_trans :
  forall a b c, localeCompare a b <= 0 -> localeCompare b c <= 0 -> localeCompare a c <= 0.

(** The two kinds of the tree: directories and files. *)
Definition dir_or_file (it : Item) : Prop := type it = "dir" \/ type it = "file".

Lemma compareItems_total (a b : Item) :
  dir_or_file a -> dir_or_file b ->
  0 < compareItems localeCompare a b -> compareItems localeCompare b a <= 0.
Proof.
  unfold compareItems. intros [Ha | Ha] [Hb | Hb]; rewrite Ha, Hb; simpl;
    auto; lia.
Qed.

Lemma compareItems_trans (a b c : Item) :
  dir_or_file a -> dir_or_file b -> dir_or_file c ->
  compareItems localeCompare a b <= 0 -> compareItems localeCompare b c <= 0 ->
  compareItems localeCompare a c <= 0.
Proof.
  unfold compareItems. intros [Ha | Ha] [Hb | Hb] [Hc | Hc]; rewrite Ha, Hb, Hc; simpl;
    eauto; lia.
Qed.

Lemma processItems_kinds (basePath : string) (entries : list RawEntry) (next : nat) :
  Forall (fun e => raw_type e = "dir" \/ raw_type e = "file") entries ->
  Forall dir_or_file (processItems basePath entries next).
Proof.
  intros H. revert next. induction H as [|e entries He H IH]; intros next; simpl;
    constructor; auto.
Qed.

Lemma processFileTree_sorted (entries : list RawEntry) (basePath : string) (next : nat) :
  Forall (fun e => raw_type e = "dir" \/ raw_type e = "file") entries ->
  StronglySorted (before (compareItems localeCompare))
                 (processFileTree localeCompare entries basePath next).1.
Proof.
  intros H. unfold processFileTree. simpl.
  apply (sort_sorted (compareItems localeCompare) dir_or_file).
  - apply compareItems_total.
  - apply compareItems_trans.
  - by apply processItems_kinds.
Qed.

End Order.

End ExplorerFacts.

Module ExplorerOrder.
Import Js Net FileExplorer JsFacts ExplorerFacts.

(** C9, as amended. Within the sibling group built from a listing whose
    entries are all of type [dir] or [file], no file stands before a
    directory, and of two nodes of the same kind the earlier one is not
    placed after the later one by the host's collation [localeCompare] of
    their names; the group holds exactly the processed entries. The order
    among names is the collation's, for any consistent collation, not the
    order of the code units. The condition on the listing is needed: the
    comparator places two entries of different types, neither of them
    [dir] (a file and a symlink, say), each after the other, so with such
    an entry it is not a consistent ordering and the order of the group
    is left to the host's [sort]. *)
Theorem siblings_follow_host_collation
    (localeCompare : string -> string -> Z)
    (lc_total : forall a b, 0 < localeCompare a b -> localeCompare b a <= 0)
    (lc_trans : forall a b c,
        localeCompare a b <= 0 -> localeCompare b c <= 0 -> localeCompare a c <= 0)
    (entries : list RawEntry) (basePath : string) (next : nat) :
  let siblings := (processFileTree localeCompare entries basePath next).1 in
  (Forall (fun e => raw_type e = "dir" \/ raw_type e = "file") entries ->
   siblings ≡ₚ processItems basePath entries next /\
   forall (i j : nat) (a b : Item),
     (i < j)%nat -> siblings !! i = Some a -> siblings !! j = Some b ->
     ~ (type a = "file" /\ type b = "dir") /\
     (type a = type b -> localeCompare (name a) (name b) <= 0)) /\
  (forall a b : Item,
     type a <> "dir" -> type b <> "dir" -> type a <> type b ->
     compareItems localeCompare a b = 1 /\ compareItems localeCompare b a = 1).
Proof.
  intros siblings. split.
  - intros kinds. split.
    + apply sort_perm.
    + intros i j a b Hij Ha Hb.
      pose proof (processFileTree_sorted localeCompare lc_total lc_trans
                    entries basePath next kinds) as Hs.
      pose proof (StronglySorted_lookup _ _ i j a b Hs Hij Ha Hb) as Hab.
      unfold before, compareItems in Hab. split.
      * intros [Hfa Hfb]. rewrite Hfa, Hfb in Hab. simpl in Hab. lia.
      * intros Heq. rewrite Heq, String.eqb_refl in Hab. done.
  - intros a b Ha Hb Hab. unfold compareItems.
    apply String.eqb_neq in Ha, Hb. rewrite Ha, Hb.
    assert (Hba : type b <> type a) by congruence.
    apply String.eqb_neq in Hab, Hba. by rewrite Hab, Hba.
Qed.

Lemma siblings_follow_host_collation_witness :
  let siblings :=
    (processFileTree Host.alphabeticCollation
       [Samples.entry "b.js" "file" None; Samples.entry "src" "dir" None;
        Samples.entry "a.js" "file" None] "" 0).1 in
  map name siblings = ["src"; "a.js"; "b.js"] /\
  forall (i j : nat) (a b : Item),
    (i < j)%nat -> siblings !! i = Some a -> siblings !! j = Some b ->
    ~ (type a = "file" /\ type b = "dir") /\
    (type a = type b -> Host.alphabeticCollation (name a) (name b) <= 0).
Proof.
  split; [reflexivity |].
  destruct (siblings_follow_host_collation Host.alphabeticCollation
              HostFacts.alphabeticCollation_total HostFacts.alphabeticCollation_trans
              [Samples.entry "b.js" "file" None; Samples.entry "src" "dir" None;
               Samples.entry "a.js" "file" None] "" 0%nat) as [Hsorted _].
  apply Hsorted.
  repeat (apply List.Forall_cons; [simpl; auto |]). apply List.Forall_nil.
Defined.

(** C9 as stated fails. With a collation that compares letters before
    their case, the files ["B.js"] and ["a.js"] come out as ["a.js"],
    ["B.js"], while the case-sensitive order of code units puts ["B.js"]
    first. *)
Lemma siblings_not_in_code_unit_order :
  let siblings :=
    (processFileTree Host.alphabeticCollation
       [Samples.entry "B.js" "file" None; Samples.entry "a.js" "file" None] "" 0).1 in
  map name siblings = ["a.js"; "B.js"] /\
  ~ (forall (i j : nat) (a b : Item),
       (i < j)%nat -> siblings !! i = Some a -> siblings !! j = Some b ->
       type a = type b -> Host.compareCodeUnits (name a) (name b) <= 0).
Proof.
  split; [reflexivity |].
  intros H.
  specialize (H 0%nat 1%nat (Samples.file_item 1 "a.js" None) (Samples.file_item 0 "B.js" None)).
  apply (Zle_not_lt _ _ (H ltac:(lia) eq_refl eq_refl eq_refl)). reflexivity.
Qed.

(** C10. A node of a processed listing that is recognised as a test file is
    classified as a code file, because each test suffix ends with a code
    suffix; when it is not a directory, a click on it therefore toggles
    its selection. *)
Theorem test_files_are_code_files
    (localeCompare : string -> string -> Z) (githubToken : string)
    (selectedRepo : option Repo)
    (entries : list RawEntry) (basePath : string) (next : nat) (it : Item) :
  it ∈ (processFileTree localeCompare entries basePath next).1 ->
  isTestFile it = true ->
  isCodeFile it = true /\
  (type it <> "dir" ->
   onClick localeCompare githubToken selectedRepo it = toggleFileSelection it).
Proof.
  intros Hin Htest.
  destruct (processFileTree_elem _ _ _ _ _ Hin) as (o & e & _ & ->).
  change (some_endsWith testExtensions (raw_name e) = true) in Htest.
  apply test_name_is_code_name in Htest.
  change (type (processItem basePath o e)) with (raw_type e).
  split; [exact Htest |].
  intros Hty. unfold onClick.
  change (type (processItem basePath o e)) with (raw_type e).
  change (isCodeFile (processItem basePath o e))
    with (some_endsWith codeExtensions (raw_name e)).
  rewrite Htest.
  destruct (String.eqb (raw_type e) "dir") eqn:E; [| done].
  by apply String.eqb_eq in E.
Qed.

Lemma test_files_are_code_files_witness :
  let it := processItem "" 0 (Samples.entry "util.test.js" "file" None) in
  isCodeFile it = true /\
  (type it <> "dir" ->
   onClick Host.alphabeticCollation "tok" (Some Samples.repo) it = toggleFileSelection it).
Proof.
  apply (test_files_are_code_files Host.alphabeticCollation "tok" (Some Samples.repo)
           [Samples.entry "util.test.js" "file" None] "" 0%nat).
  - vm_compute. apply list_elem_of_here.
  - reflexivity.
Defined.

End ExplorerOrder.

(** ** TestCaseGenerator: content retrieval and the generation run *)

Module GeneratorFacts.
Import Js Net TestCaseGenerator.
Import FileExplorer(Item, name, path, download_url).

Ltac run_monad :=
  unfold bind, ret, throw, lift, try_catch, try_finally, fetch, console_error,
    get_state, modify, with_heap; simpl.

Lemma mockContent_nonempty (fileName msg : string) : mockContent fileName msg <> "".
Proof. unfold mockContent. by rewrite JsFacts.app_String. Qed.

(** What the direct tier returns for the answer to its request. *)
Definition direct_result (file : Item) (answer : FetchOutcome) : string :=
  match answer with
  | Resolved r =>
      if ok r then text r
      else mockContent (name file)
             ("Failed to fetch via download_url: " +:+ pretty (Net.status r))
  | Rejected e => mockContent (name file) (message e)
  end.

(** The API tier succeeded in scope [scope] with decoded text [content]. *)
Definition api_success (scope : Scope) (file : Item) (w : World) (content : string)
    (w' : World) : Prop :=
  exists repo token r data c,
    scope = mkScope (Some (Some repo)) (Some token) /\
    net w (sent w) (api_request (full_name repo) (path file) token) = Resolved r /\
    ok r = true /\ json r = Normal data /\
    get data "type" = Normal (JStr "file") /\
    get data "content" = Normal (JStr c) /\
    atob (remove_newlines c) = Normal content /\
    sent w' = sent w ++ [api_request (full_name repo) (path file) token].

Lemma strict_eq_string_true (v : JsValue) (s : string) :
  strict_eq_string v s = true -> v = JStr s.
Proof. destruct v; simpl; try done. by intros ->%String.eqb_eq. Qed.

Lemma fetchViaApi_cases {S} (scope : Scope) (file : Item) (w : World) (s : S) :
  exists r w', @fetchViaApi S scope file (w, s) = (r, (w', s)) /\
    net w' = net w /\
    match r with
    | Normal content => api_success scope file w content w'
    | Throw e => sent w' = sent w \/ exists rq, sent w' = sent w ++ [rq]
    end.
Proof.
  unfold fetchViaApi. destruct scope as [[[repo|]|] [token|]]; run_monad;
    try (eexists _, w; split; [reflexivity |]; split; [done |]; by left).
  destruct (net w (sent w) (api_request (full_name repo) (path file) token)) as [e|r] eqn:Hnet.
  { eexists _, _; split; [reflexivity |]; split; [done |]; right; by eexists. }
  destruct (ok r) eqn:Hok; simpl.
  2: { eexists _, _; split; [reflexivity |]; split; [done |]; right; by eexists. }
  destruct (json r) as [data|e] eqn:Hjson.
  2: { eexists _, _; split; [reflexivity |]; split; [done |]; right; by eexists. }
  destruct (get data "type") as [ty|e] eqn:Hty.
  2: { eexists _, _; split; [reflexivity |]; split; [done |]; right; by eexists. }
  destruct (get data "content") as [content|e] eqn:Hcontent.
  2: { eexists _, _; split; [reflexivity |]; split; [done |]; right; by eexists. }
  destruct (strict_eq_string ty "file") eqn:Hfile; simpl.
  2: { eexists _, _; split; [reflexivity |]; split; [done |]; right; by eexists. }
  apply strict_eq_string_true in Hfile as ->.
  destruct (truthy content) eqn:Htruthy.
  2: { eexists _, _; split; [reflexivity |]; split; [done |]; right; by eexists. }
  destruct content as [| | | |c| |];
    try (eexists _, _; split; [reflexivity |]; split; [done |]; right; by eexists).
  destruct (atob (remove_newlines c)) as [decoded|e] eqn:Hatob.
  - eexists _, _; split; [reflexivity |]; split; [done |].
    by exists repo, token, r, data, c.
  - eexists _, _; split; [reflexivity |]; split; [done |]; right; by eexists.
Qed.

(** Content retrieval, tier by tier. *)
Lemma fetchFileContent_in_cases {S} (scope : Scope) (file : Item) (w : World) (s : S) :
  exists content w',
    @fetchFileContent_in S scope file (w, s) = (Normal content, (w', s)) /\
    net w' = net w /\
    match download_url file with
    | Some u =>
        if negb (String.eqb u "") then
          sent w' = sent w ++ [download_request u] /\
          content = direct_result file (net w (sent w) (download_request u))
        else
          api_success scope file w content w' \/
          exists e w1,
            @fetchViaApi S scope file (w, s) = (Throw e, (w1, s)) /\
            content = mockContent (name file) (message e)
    | None =>
        api_success scope file w content w' \/
        exists e w1,
          @fetchViaApi S scope file (w, s) = (Throw e, (w1, s)) /\
          content = mockContent (name file) (message e)
    end.
Proof.
  assert (Hapi : exists content w',
    try_catch (@fetchViaApi S scope file)
      (fun err => bind (console_error "❌ Error fetching file content:" err)
                    (fun _ => ret (mockContent (name file) (message err)))) (w, s)
    = (Normal content, (w', s)) /\ net w' = net w /\
    (api_success scope file w content w' \/
     exists e w1,
       @fetchViaApi S scope file (w, s) = (Throw e, (w1, s)) /\
       content = mockContent (name file) (message e))).
  { destruct (fetchViaApi_cases scope file w s) as (r & w1 & Hrun & Hnet & Hr).
    unfold try_catch. rewrite Hrun. destruct r as [content|e].
    - exists content, w1. auto.
    - run_monad. eexists _, _. split; [reflexivity |]. split; [done |].
      right. by exists e, w1. }
  unfold fetchFileContent_in. destruct (download_url file) as [u|]; [| exact Hapi].
  destruct (negb (String.eqb u "")) eqn:Hu; [| exact Hapi].
  run_monad. destruct (net w (sent w) (download_request u)) as [e|r]; simpl.
  - eexists _, _. split; [reflexivity |]. done.
  - destruct (ok r); simpl; eexists _, _; (split; [reflexivity |]); done.
Qed.

(** The generation call met a transport error, a status outside 2xx, or
    a body that is not JSON. *)
Definition generation_fails (answer : FetchOutcome) : bool :=
  match answer with
  | Rejected _ => true
  | Resolved r => negb (ok r) || match json r with Throw _ => true | Normal _ => false end
  end.

(** The summary built from the mock test cases. *)
Definition mock_summary (file : Item) : Summary :=
  mkSummary (name file) (path file) (JNum 4) "completed" (mockTestCases (name file)).

Lemma length_of_test_cases (test_cases : JsValue) :
  exists n, get (or_else test_cases (JArr [])) "length" = Normal n.
Proof.
  unfold or_else. destruct (truthy test_cases) eqn:Ht; [| by eexists].
  destruct test_cases; simpl in *; try done; try by eexists.
Qed.

Lemma generateTestCasesForFile_cases {S} (code fileName : string) (w : World) (s : S) :
  exists testCases w',
    @generateTestCasesForFile S code fileName (w, s) = (Normal testCases, (w', s)) /\
    net w' = net w /\
    (exists n, get testCases "length" = Normal n) /\
    (generation_fails (net w (sent w) (generation_request code)) = true ->
     testCases = mockTestCases fileName).
Proof.
  unfold generateTestCasesForFile, generation_fails. run_monad.
  destruct (net w (sent w) (generation_request code)) as [e|r]; simpl.
  { eexists _, _. split; [reflexivity |]. split; [done |]. split; [by eexists | done]. }
  destruct (ok r); simpl.
  2: { eexists _, _. split; [reflexivity |]. split; [done |]. split; [by eexists | done]. }
  destruct (json r) as [data|e]; simpl.
  2: { eexists _, _. split; [reflexivity |]. split; [done |]. split; [by eexists | done]. }
  destruct (get data "test_cases") as [test_cases|e]; simpl.
  2: { eexists _, _. split; [reflexivity |]. split; [done |]. split; [by eexists | done]. }
  eexists _, _. split; [reflexivity |]. split; [done |]. split; [| done].
  apply length_of_test_cases.
Qed.

Section Run.

(** The answers of the network during the run. *)
Variable oracle : list Request -> Request -> FetchOutcome.

(** [sm] is the summary of [file]. *)
Definition summary_of (file : Item) (sm : Summary) : Prop :=
  fileName sm = name file /\ filePath sm = path file /\
  TestCaseGenerator.status sm = "completed" /\
  (exists n, get (testCases sm) "length" = Normal n /\ testCaseCount sm = n).

Lemma processFiles_cases (files : list Item) :
  forall (i : Z) (acc : list Summary) (w : World) (s : State),
    net w = oracle ->
    testCaseSummaries s = acc ->
    exists sums w' s',
      processFiles files i acc (w, s) = (Normal (acc ++ sums), (w', s')) /\
      net w' = oracle /\
      Forall2 summary_of files sums /\
      testCaseSummaries s' = acc ++ sums /\
      isGenerating s' = isGenerating s /\
      error s' = error s /\
      reported s' = reported s.
Proof.
  induction files as [|file rest IH]; intros i acc w s Hnet Hacc.
  - exists [], w, s. simpl. unfold ret. rewrite app_nil_r. by repeat split.
  - cbn [processFiles]. unfold bind at 1. unfold setCurrentFileIndex at 1, modify at 1.
    cbn [fst snd].
    set (s1 := mkState i _ _ _ _ _).
    destruct (fetchFileContent_in_cases component_scope file w s1)
      as (content & w1 & Hfetch & Hnet1 & _).
    unfold bind at 1. unfold fetchFileContent. rewrite Hfetch.
    destruct (generateTestCasesForFile_cases content (name file) w1 s1)
      as (tcs & w2 & Hgen & Hnet2 & (n & Hlen) & Hmock).
    unfold bind at 1. rewrite Hgen.
    unfold bind at 1, lift at 1. rewrite Hlen.
    unfold bind at 1. unfold setTestCaseSummaries at 1, modify at 1. cbn [fst snd].
    unfold bind at 1. unfold setGeneratedTestCases at 1, modify at 1. cbn [fst snd].
    set (sm := mkSummary (name file) (path file) n "completed" tcs).
    set (s2 := mkState _ _ _ _ _ _).
    destruct (IH (i + 1) (acc ++ [sm]) w2 s2)
      as (sums & w' & s' & Hrun & Hnet' & Hall & Hts & Hg & He & Hr).
    { congruence. }
    { done. }
    exists (sm :: sums), w', s'. rewrite Hrun.
    rewrite <- app_assoc in *. simpl in *. repeat split; try done.
    constructor; [| done].
    repeat split. by exists n.
Qed.

Lemma summaries_follow_selection (files : list Item) (sums : list Summary) :
  Forall2 summary_of files sums ->
  map fileName sums = map name files /\
  map filePath sums = map path files /\
  Forall (fun sm => TestCaseGenerator.status sm = "completed") sums.
Proof.
  induction 1 as [|f sm fs sms (Hn & Hp & Hc & _) _ (IH1 & IH2 & IH3)]; simpl.
  - by repeat split.
  - repeat split; [by f_equal | by f_equal | by constructor].
Qed.

Lemma startGeneration_cases (selectedFiles : list Item) (w : World) (s : State) :
  net w = oracle ->
  exists sums w' s',
    startGeneration selectedFiles (w, s) = (Normal tt, (w', s')) /\
    Forall2 summary_of selectedFiles sums /\
    testCaseSummaries s' = sums /\
    isGenerating s' = false /\
    error s' = "" /\
    reported s' = reported s ++ [sums].
Proof.
  intros Hnet. unfold startGeneration.
  unfold setIsGenerating, setError, setCurrentFileIndex, setTestCaseSummaries,
    setGeneratedTestCases.
  unfold bind at 1, modify at 1. cbn [fst snd].
  unfold bind at 1, modify at 1. cbn [fst snd].
  unfold bind at 1, modify at 1. cbn [fst snd].
  unfold bind at 1, modify at 1. cbn [fst snd].
  unfold bind at 1, modify at 1. cbn [fst snd].
  cbn [currentFileIndex testCaseSummaries isGenerating error generatedTestCases reported].
  set (s0 := mkState _ _ _ _ _ _).
  destruct (processFiles_cases selectedFiles 0 [] w s0 Hnet eq_refl)
    as (sums & w' & s' & Hrun & _ & Hall & Hts & Hg & He & Hr).
  unfold try_finally, try_catch. unfold bind at 1. rewrite Hrun.
  unfold onTestCasesGenerated, modify. cbn [fst snd].
  eexists sums, w', _. split; [reflexivity |].
  cbn [currentFileIndex testCaseSummaries isGenerating error generatedTestCases reported].
  rewrite Hts, He, Hr. done.
Qed.

End Run.

Lemma generateTestCasesForFile_outcome
    {S} (code fileName : string) (w : World) (s : S) :
  exists testCases w',
    @generateTestCasesForFile S code fileName (w, s) = (Normal testCases, (w', s)) /\
    sent w' = sent w ++ [generation_request code] /\
    net w' = net w /\
    ((errlog w' = errlog w /\
      exists r data test_cases,
        net w (sent w) (generation_request code) = Resolved r /\
        ok r = true /\ json r = Normal data /\
        get data "test_cases" = Normal test_cases /\
        testCases = if truthy test_cases then test_cases else JArr []) \/
     (testCases = mockTestCases fileName /\
      exists e, errlog w' = errlog w ++ [("❌ API Error:", e)])).
Proof.
  unfold generateTestCasesForFile. run_monad.
  destruct (net w (sent w) (generation_request code)) as [e|r] eqn:Hnet; simpl.
  { eexists _, _. repeat (split; [reflexivity |]). right. split; [done | by eexists]. }
  destruct (ok r) eqn:Hok; simpl.
  2: { eexists _, _. repeat (split; [reflexivity |]). right. split; [done | by eexists]. }
  destruct (json r) as [data|e] eqn:Hjson; simpl.
  2: { eexists _, _. repeat (split; [reflexivity |]). right. split; [done | by eexists]. }
  destruct (get data "test_cases") as [test_cases|e] eqn:Hget; simpl.
  2: { eexists _, _. repeat (split; [reflexivity |]). right. split; [done | by eexists]. }
  eexists _, _. repeat (split; [reflexivity |]). left. split; [done |].
  by exists r, data, test_cases.
Qed.

(** The direct-content URL of a file, when it has a non-empty one. *)
Definition direct_url (file : Item) : option string :=
  match download_url file with
  | Some u => if negb (String.eqb u "") then Some u else None
  | None => None
  end.

(** The text retrieved for a file after the requests [hist], and the
    request that retrieval sends, in the component as written. *)
Definition retrieved (answers : list Request -> Request -> FetchOutcome)
    (hist : list Request) (file : Item) : string * list Request :=
  match direct_url file with
  | Some u => (direct_result file (answers hist (download_request u)), [download_request u])
  | None => (mockContent (name file) "selectedRepo is not defined", [])
  end.

Lemma fetchFileContent_retrieved {S} (file : Item) (w : World) (s : S) :
  exists w',
    @fetchFileContent S file (w, s)
    = (Normal (retrieved (net w) (sent w) file).1, (w', s)) /\
    sent w' = sent w ++ (retrieved (net w) (sent w) file).2 /\
    net w' = net w.
Proof.
  unfold retrieved, direct_url, fetchFileContent, fetchFileContent_in.
  destruct (download_url file) as [u|].
  2: { run_monad. eexists. split; [reflexivity |]. simpl. by rewrite app_nil_r. }
  destruct (negb (String.eqb u "")).
  2: { run_monad. eexists. split; [reflexivity |]. simpl. by rewrite app_nil_r. }
  run_monad. destruct (net w (sent w) (download_request u)) as [e|r]; simpl.
  - by eexists.
  - destruct (ok r); simpl; by eexists.
Qed.

(** The calls to the generation service that a run over [files] makes
    when it starts after the requests [hist]: each request, with the
    requests sent before it. The request of a file carries the text
    retrieved for that file. *)
Fixpoint generation_calls (answers : list Request -> Request -> FetchOutcome)
    (hist : list Request) (files : list Item) : list (list Request * Request) :=
  match files with
  | [] => []
  | file :: rest =>
      let before := hist ++ (retrieved answers hist file).2 in
      let call := generation_request (retrieved answers hist file).1 in
      (before, call) :: generation_calls answers (before ++ [call]) rest
  end.

Lemma generation_calls_fail (answers : list Request -> Request -> FetchOutcome)
    (files : list Item) :
  (forall hist code, generation_fails (answers hist (generation_request code)) = true) ->
  forall hist,
    Forall (fun call => generation_fails (answers call.1 call.2) = true)
           (generation_calls answers hist files).
Proof.
  intros Hfail. induction files as [|file rest IH]; intros hist; simpl.
  - apply List.Forall_nil.
  - apply List.Forall_cons; [apply Hfail | apply IH].
Qed.

Lemma processFiles_mock (files : list Item) :
  forall (i : Z) (acc : list Summary) (w : World) (s : State),
    testCaseSummaries s = acc ->
    Forall (fun call => generation_fails (net w call.1 call.2) = true)
           (generation_calls (net w) (sent w) files) ->
    exists w' s',
      processFiles files i acc (w, s)
      = (Normal (acc ++ map mock_summary files), (w', s')) /\
      testCaseSummaries s' = acc ++ map mock_summary files.
Proof.
  induction files as [|file rest IH]; intros i acc w s Hacc Hfail.
  - exists w, s. simpl. unfold ret. rewrite app_nil_r. by split.
  - cbn [generation_calls] in Hfail. apply Forall_cons in Hfail as [Hcall Hrest].
    cbn [processFiles]. unfold bind at 1. unfold setCurrentFileIndex at 1, modify at 1.
    cbn [fst snd].
    set (s1 := mkState i _ _ _ _ _).
    destruct (fetchFileContent_retrieved file w s1) as (w1 & Hfetch & Hsent1 & Hnet1).
    unfold bind at 1. rewrite Hfetch.
    set (content := (retrieved (net w) (sent w) file).1) in *.
    destruct (generateTestCasesForFile_cases content (name file) w1 s1)
      as (tcs & w2 & Hgen & Hnet2 & _ & Hmock).
    destruct (generateTestCasesForFile_outcome content (name file) w1 s1)
      as (tcs' & w2' & Hgen' & Hsent2 & _).
    rewrite Hgen in Hgen'. injection Hgen' as <- <-.
    assert (tcs = mockTestCases (name file)) as ->.
    { apply Hmock. rewrite Hnet1, Hsent1. exact Hcall. }
    unfold bind at 1. rewrite Hgen.
    unfold bind at 1, lift at 1. cbn [mockTestCases get]. cbn [String.eqb Ascii.eqb Bool.eqb].
    cbn [length Z.of_nat Pos.of_succ_nat Pos.succ].
    unfold bind at 1. unfold setTestCaseSummaries at 1, modify at 1. cbn [fst snd].
    unfold bind at 1. unfold setGeneratedTestCases at 1, modify at 1. cbn [fst snd].
    change (mkSummary (name file) (path file) (JNum (Z.of_nat 4)) "completed"
              (mockTestCases (name file))) with (mock_summary file).
    set (s2 := mkState _ _ _ _ _ _).
    destruct (IH (i + 1) (acc ++ [mock_summary file]) w2 s2 eq_refl) as (w' & s' & Hrun & Hts).
    { rewrite Hnet2, Hnet1, Hsent2, Hsent1. exact Hrest. }
    exists w', s'. rewrite Hrun. by rewrite <- !app_assoc in *.
Qed.

Lemma startGeneration_mock (selectedFiles : list Item) (w : World) (s : State) :
  Forall (fun call => generation_fails (net w call.1 call.2) = true)
         (generation_calls (net w) (sent w) selectedFiles) ->
  exists w' s',
    startGeneration selectedFiles (w, s) = (Normal tt, (w', s')) /\
    testCaseSummaries s' = map mock_summary selectedFiles.
Proof.
  intros Hfail. unfold startGeneration.
  unfold setIsGenerating, setError, setCurrentFileIndex, setTestCaseSummaries,
    setGeneratedTestCases.
  do 5 (unfold bind at 1, modify at 1; cbn [fst snd]).
  cbn [currentFileIndex testCaseSummaries isGenerating error generatedTestCases reported].
  set (s0 := mkState _ _ _ _ _ _).
  destruct (processFiles_mock selectedFiles 0 [] w s0 eq_refl Hfail)
    as (w' & s' & Hrun & Hts).
  unfold try_finally, try_catch. unfold bind at 1. rewrite Hrun.
  unfold onTestCasesGenerated, modify. cbn [fst snd].
  eexists w', _. split; [reflexivity |]. exact Hts.
Qed.

End GeneratorFacts.

Module GeneratorRun.
Import Js Net TestCaseGenerator GeneratorFacts.
Import FileExplorer(Item, name, path, download_url).

(** C1. For every selection and every behaviour of the network,
    [startGeneration] completes normally, leaves no error message, and
    leaves one summary per selected file, in the order of the selection,
    each marked completed; the same sequence is handed to
    [onTestCasesGenerated]. No assumption is made on the answers of the
    network, so this covers the run in which every request fails. *)
Theorem run_emits_one_summary_per_file
    (selectedFiles : list Item) (w : World) (s : State) :
  exists w' s',
    startGeneration selectedFiles (w, s) = (Normal tt, (w', s')) /\
    length (testCaseSummaries s') = length selectedFiles /\
    map fileName (testCaseSummaries s') = map name selectedFiles /\
    map filePath (testCaseSummaries s') = map path selectedFiles /\
    Forall (fun sm => TestCaseGenerator.status sm = "completed") (testCaseSummaries s') /\
    error s' = "" /\
    isGenerating s' = false /\
    reported s' = reported s ++ [testCaseSummaries s'].
Proof.
  destruct (startGeneration_cases (net w) selectedFiles w s eq_refl)
    as (sums & w' & s' & Hrun & Hall & Hts & Hg & He & Hr).
  exists w', s'. rewrite Hts.
  destruct (summaries_follow_selection _ _ Hall) as (Hn & Hp & Hc).
  repeat split; try done.
  symmetry. by eapply Forall2_length.
Qed.

(** C8. When every call that the run makes to the generation service
    fails (a transport error, a status outside 2xx or a body that is not
    JSON; whatever the content fetches do, so in particular when they fail
    too), the summary of each selected file has [testCaseCount] 4, status
    completed, and as test cases the four mock pairs, whose inputs name
    the file and whose outputs are the four mock results. There is one
    such summary per selected file, in the order of the selection. *)
Theorem failed_generation_gives_mock_summaries
    (selectedFiles : list Item) (w : World) (s : State) :
  Forall (fun call => generation_fails (net w call.1 call.2) = true)
         (generation_calls (net w) (sent w) selectedFiles) ->
  exists w' s',
    startGeneration selectedFiles (w, s) = (Normal tt, (w', s')) /\
    testCaseSummaries s' =
      map (fun file =>
             mkSummary (name file) (path file) (JNum 4) "completed"
               (JArr [JObj [("input", JStr ("// Function from " +:+ name file));
                            ("output", JStr (dq +:+ "Mock Result 1" +:+ dq))];
                      JObj [("input", JStr ("// Test case 2 for " +:+ name file));
                            ("output", JStr (dq +:+ "Mock Result 2" +:+ dq))];
                      JObj [("input", JStr ("// Test case 3 for " +:+ name file));
                            ("output", JStr (dq +:+ "Mock Result 3" +:+ dq))];
                      JObj [("input", JStr ("// Test case 4 for " +:+ name file));
                            ("output", JStr (dq +:+ "Mock Result 4" +:+ dq))]]))
          selectedFiles.
Proof. apply startGeneration_mock. Qed.

Lemma failed_generation_gives_mock_summaries_witness :
  exists w' s',
    startGeneration [Samples.a_js; Samples.b_py] (Samples.offline, Samples.empty_generator)
    = (Normal tt, (w', s')) /\
    testCaseSummaries s' =
      [mkSummary "a.js" "a.js" (JNum 4) "completed"
         (JArr [JObj [("input", JStr "// Function from a.js");
                      ("output", JStr (dq +:+ "Mock Result 1" +:+ dq))];
                JObj [("input", JStr "// Test case 2 for a.js");
                      ("output", JStr (dq +:+ "Mock Result 2" +:+ dq))];
                JObj [("input", JStr "// Test case 3 for a.js");
                      ("output", JStr (dq +:+ "Mock Result 3" +:+ dq))];
                JObj [("input", JStr "// Test case 4 for a.js");
                      ("output", JStr (dq +:+ "Mock Result 4" +:+ dq))]]);
       mkSummary "b.py" "b.py" (JNum 4) "completed"
         (JArr [JObj [("input", JStr "// Function from b.py");
                      ("output", JStr (dq +:+ "Mock Result 1" +:+ dq))];
                JObj [("input", JStr "// Test case 2 for b.py");
                      ("output", JStr (dq +:+ "Mock Result 2" +:+ dq))];
                JObj [("input", JStr "// Test case 3 for b.py");
                      ("output", JStr (dq +:+ "Mock Result 3" +:+ dq))];
                JObj [("input", JStr "// Test case 4 for b.py");
                      ("output", JStr (dq +:+ "Mock Result 4" +:+ dq))]])].
Proof.
  apply (failed_generation_gives_mock_summaries
           [Samples.a_js; Samples.b_py] Samples.offline Samples.empty_generator).
  repeat (apply List.Forall_cons; [reflexivity |]). apply List.Forall_nil.
Defined.

(** C2, as amended. Content retrieval never throws and leaves the
    component state alone. With a direct-content URL it sends that one
    request and nothing else: a 2xx answer gives the body as it is, any
    other answer or a transport error gives the placeholder. Without a
    direct URL the result is the decoded payload of an API answer or, when
    the API tier throws, the placeholder made from the message of the
    error it threw; in the scope the component has, that error is always
    "selectedRepo is not defined" and no request is sent. The placeholder
    is the text below: it names the file, carries the error message and is
    never empty. *)
Theorem content_retrieval_tiers {S} (scope : Scope) (file : Item) (w : World) (s : S) :
  exists content w',
    @fetchFileContent_in S scope file (w, s) = (Normal content, (w', s)) /\
    match download_url file with
    | Some u =>
        if negb (String.eqb u "") then
          sent w' = sent w ++ [download_request u] /\
          content =
            match net w (sent w) (download_request u) with
            | Resolved r =>
                if ok r then text r
                else mockContent (name file)
                       ("Failed to fetch via download_url: " +:+ pretty (Net.status r))
            | Rejected e => mockContent (name file) (message e)
            end
        else
          api_success scope file w content w' \/
          exists e w1,
            @fetchViaApi S scope file (w, s) = (Throw e, (w1, s)) /\
            content = mockContent (name file) (message e)
    | None =>
        api_success scope file w content w' \/
        exists e w1,
          @fetchViaApi S scope file (w, s) = (Throw e, (w1, s)) /\
          content = mockContent (name file) (message e)
    end /\
    (scope = component_scope -> direct_url file = None ->
     content = mockContent (name file) "selectedRepo is not defined" /\
     sent w' = sent w) /\
    forall msg,
      mockContent (name file) msg
      = "// Mock content for " +:+ name file +:+ " (failed to fetch real content)" +:+ nl
        +:+ "// Error: " +:+ msg +:+ nl
        +:+ "function sampleFunction() {" +:+ nl
        +:+ "  return " +:+ dq +:+ "Hello World" +:+ dq +:+ ";" +:+ nl
        +:+ "}" /\
      mockContent (name file) msg <> "".
Proof.
  destruct (fetchFileContent_in_cases scope file w s) as (content & w' & Hrun & _ & H).
  exists content, w'. split; [done |]. split; [exact H |]. split.
  - intros -> Hdirect.
    destruct (fetchFileContent_retrieved file w s) as (w1 & Hrun1 & Hsent1 & _).
    unfold fetchFileContent in Hrun1. rewrite Hrun in Hrun1.
    unfold retrieved in Hrun1, Hsent1. rewrite Hdirect in Hrun1, Hsent1.
    injection Hrun1 as -> ->. split; [done |]. by rewrite Hsent1, app_nil_r.
  - intros msg. split; [reflexivity | apply mockContent_nonempty].
Qed.

(** C2 as stated fails twice. A refused direct fetch (404) goes straight
    to the placeholder: the direct request is the only one sent, also in a
    scope that binds [selectedRepo] and [githubToken]. And a direct fetch
    answered 200 with an empty body returns the empty string. *)
Lemma refused_download_skips_api_and_empty_body_is_returned :
  let bound := mkScope (Some (Some Samples.repo)) (Some "tok") in
  let direct :=
    download_request "https://raw.githubusercontent.com/octo/demo/main/a.js" in
  (exists w',
     fetchFileContent_in bound Samples.a_js (Samples.answering 404, Samples.empty_generator)
     = (Normal (mockContent "a.js" "Failed to fetch via download_url: 404"),
        (w', Samples.empty_generator)) /\
     sent w' = [direct]) /\
  fst (fetchFileContent Samples.a_js (Samples.answering 200, Samples.empty_generator))
  = Normal "".
Proof. split; [eexists; split; reflexivity | reflexivity]. Qed.

(** In the component as written, [selectedRepo] has no binding: a file
    without a direct URL gets the placeholder and no request is sent. *)
Remark api_tier_in_component_scope {S} (file : Item) (w : World) (s : S) :
  download_url file = None ->
  @fetchFileContent S file (w, s)
  = (Normal (mockContent (name file) "selectedRepo is not defined"),
     (record_error "❌ Error fetching file content:"
        (ReferenceError "selectedRepo is not defined") w, s)).
Proof. intros H. unfold fetchFileContent, fetchFileContent_in. by rewrite H. Qed.

End GeneratorRun.

(** ** TestCaseViewer: the branch step and the file write *)

Module ViewerFacts.
Import Js Net TestCaseViewer.

Ltac run_monad :=
  unfold bind, ret, throw, lift, try_catch, try_finally, fetch, console_error,
    get_state, modify; simpl.

Section Publish.
Variable generatedCode : string.
Variable githubToken : string.
Variable selectedRepo : option Repo.

(** The branch step ran both requests and the creation was accepted or
    answered 422. *)
Definition branch_ready (w : World) (s : State) : Prop :=
  exists repo r1 data object sha r2,
    selectedRepo = Some repo /\
    net w (sent w)
        (default_ref_request githubToken (full_name repo) (default_branch repo))
    = Resolved r1 /\
    ok r1 = true /\
    json r1 = Normal data /\ get data "object" = Normal object /\
    get object "sha" = Normal sha /\
    net w (sent w ++ [default_ref_request githubToken (full_name repo)
                        (default_branch repo)])
        (create_ref_request githubToken (full_name repo) (branchName s) sha)
    = Resolved r2 /\
    (ok r2 = true \/ Net.status r2 = 422).

Lemma createBranchIfNotExists_cases (w : World) (s : State) :
  exists w',
    createBranchIfNotExists githubToken selectedRepo (w, s) = (Normal tt, (w', s)) /\
    net w' = net w /\
    ((errlog w' = errlog w /\ branch_ready w s) \/
     (exists e, errlog w' = errlog w ++ [("Branch creation error:", e)]) /\
     ~ branch_ready w s).
Proof.
  unfold createBranchIfNotExists, branch_ready.
  destruct selectedRepo as [repo|]; run_monad.
  2: { eexists. split; [reflexivity |]. split; [done |]. right.
       split; [by eexists |]. by intros (? & ? & ? & ? & ? & ? & ? & _). }
  assert (Hno : forall (P : Repo -> Response -> JsValue -> JsValue -> JsValue -> Response -> Prop),
             (forall r1 data object sha r2, ~ P repo r1 data object sha r2) ->
             ~ exists repo' r1 data object sha r2, Some repo = Some repo' /\ P repo' r1 data object sha r2).
  { intros P HP (repo' & r1 & data & object & sha & r2 & [= <-] & H). by eapply HP. }
  destruct (net w (sent w)
              (default_ref_request githubToken (full_name repo) (default_branch repo)))
    as [e|r1] eqn:Hread.
  { eexists. split; [reflexivity |]. split; [done |]. right.
    split; [by eexists |]. apply Hno. intros ????? (? & _). congruence. }
  destruct (ok r1) eqn:Hok1; simpl.
  2: { eexists. split; [reflexivity |]. split; [done |]. right.
       split; [by eexists |]. apply Hno. intros ????? (? & ? & _). congruence. }
  destruct (json r1) as [data|e] eqn:Hjson.
  2: { eexists. split; [reflexivity |]. split; [done |]. right.
       split; [by eexists |]. apply Hno. intros ????? (? & ? & ? & _). congruence. }
  destruct (get data "object") as [object|e] eqn:Hobj.
  2: { eexists. split; [reflexivity |]. split; [done |]. right.
       split; [by eexists |]. apply Hno. intros ????? (? & ? & ? & ? & _). congruence. }
  destruct (get object "sha") as [sha|e] eqn:Hsha.
  2: { eexists. split; [reflexivity |]. split; [done |]. right.
       split; [by eexists |]. apply Hno. intros ????? (? & ? & ? & ? & ? & _). congruence. }
  destruct (net w (sent w ++ [default_ref_request githubToken (full_name repo)
                                 (default_branch repo)])
              (create_ref_request githubToken (full_name repo) (branchName s) sha))
    as [e|r2] eqn:Hcreate.
  { eexists. split; [reflexivity |]. split; [done |]. right.
    split; [by eexists |]. apply Hno. intros ????? (? & ? & ? & ? & ? & ? & _). congruence. }
  destruct (ok r2) eqn:Hok2; simpl.
  { eexists. split; [reflexivity |]. split; [done |]. left. split; [done |].
    exists repo, r1, data, object, sha, r2. repeat split; auto. }
  destruct (Net.status r2 =? 422) eqn:H422; simpl.
  { eexists. split; [reflexivity |]. split; [done |]. left. split; [done |].
    exists repo, r1, data, object, sha, r2. repeat split; auto. right. lia. }
  eexists. split; [reflexivity |]. split; [done |]. right.
  split; [by eexists |]. apply Hno.
  intros r1' data' object' sha' r2' (E1 & _ & E2 & E3 & E4 & E5 & [E6 | E6]).
  - congruence.
  - assert (r1' = r1) as -> by congruence.
    assert (data' = data) as -> by congruence.
    assert (object' = object) as -> by congruence.
    assert (sha' = sha) as -> by congruence.
    assert (r2' = r2) as -> by congruence. lia.
Qed.

(** The existence check found a file: the answer is 2xx and its JSON
    carries the revision marker [sha]. *)
Definition file_found (answer : FetchOutcome) (sha : JsValue) : Prop :=
  exists r data,
    answer = Resolved r /\ ok r = true /\ json r = Normal data /\
    get data "sha" = Normal sha /\ truthy sha = true.

Lemma checkExistingFile_cases (repo : Repo) (w : World) (s : State) :
  selectedRepo = Some repo ->
  let check :=
    existing_file_request githubToken (full_name repo) (fileName s) (branchName s) in
  exists existingFileSha,
    checkExistingFile githubToken selectedRepo (w, s)
    = (Normal existingFileSha, (record_request check w, s)) /\
    forall sha,
      (truthy existingFileSha = true /\ existingFileSha = sha)
      <-> file_found (net w (sent w) check) sha.
Proof.
  intros -> check. unfold checkExistingFile, file_found. run_monad. fold check.
  destruct (net w (sent w) check) as [e|r] eqn:Hnet.
  { exists JNull. split; [done |]. intros sha. split; [by intros [? _] |].
    by intros (? & ? & ? & _). }
  destruct (ok r) eqn:Hok.
  2: { exists JNull. split; [done |]. intros sha. split; [by intros [? _] |].
       intros (? & ? & [= <-] & ? & _). congruence. }
  destruct (json r) as [data|e] eqn:Hjson.
  2: { exists JNull. split; [done |]. intros sha. split; [by intros [? _] |].
       intros (? & ? & [= <-] & ? & ? & _). congruence. }
  destruct (get data "sha") as [v|e] eqn:Hsha.
  2: { exists JNull. split; [done |]. intros sha. split; [by intros [? _] |].
       intros (? & ? & [= <-] & ? & ? & ? & _). congruence. }
  exists v. split; [done |]. intros sha. split.
  - intros [Ht <-]. by exists r, data.
  - intros (r' & data' & [= <-] & _ & Hj & Hg & Ht).
    assert (data' = data) as -> by congruence.
    assert (sha = v) as -> by congruence. done.
Qed.

(** The properties of [requestBody] before [sha] is considered. *)
Definition base_properties (s : State) : list (string * JsValue) :=
  [("message", JStr (commitMessage s));
   ("content", JStr (btoa generatedCode));
   ("branch", JStr (branchName s))].

Lemma fileContent_cases :
  fileContent generatedCode
  = if has_lone_surrogate generatedCode then Throw (URIError "URI malformed")
    else Normal (btoa generatedCode).
Proof. unfold fileContent, utf8_bytes. by destruct (has_lone_surrogate generatedCode). Qed.

Lemma createOrUpdateFile_cases (repo : Repo) (w : World) (s : State) :
  selectedRepo = Some repo ->
  let check :=
    existing_file_request githubToken (full_name repo) (fileName s) (branchName s) in
  exists result w' marker,
    createOrUpdateFile generatedCode githubToken selectedRepo (w, s) = (result, (w', s)) /\
    (if has_lone_surrogate generatedCode then
       sent w' = sent w ++ [check] /\ result = Throw (URIError "URI malformed")
     else
       sent w' =
         sent w ++
         [check;
          mkRequest "PUT"
            ("https://api.github.com/repos/" +:+ full_name repo +:+ "/contents/"
             +:+ fileName s)
            (json_headers githubToken)
            (Some (JObj (base_properties s
                         ++ match marker with
                            | Some sha => [("sha", sha)]
                            | None => []
                            end)))]) /\
    forall sha, marker = Some sha <-> file_found (net w (sent w) check) sha.
Proof.
  intros Hrepo check.
  destruct (checkExistingFile_cases repo w s Hrepo) as (v & Hcheck & Hfound).
  fold check in Hcheck, Hfound.
  assert (Hmarker : forall sha,
             (if truthy v then Some v else None) = Some sha
             <-> file_found (net w (sent w) check) sha).
  { intros sha. rewrite <- Hfound. destruct (truthy v); split.
    - by intros [= <-].
    - by intros [_ <-].
    - done.
    - by intros [? _]. }
  unfold createOrUpdateFile. unfold bind at 1. rewrite Hcheck. subst selectedRepo.
  unfold bind at 1, lift at 1. rewrite fileContent_cases.
  destruct (has_lone_surrogate generatedCode).
  { exists (Throw (URIError "URI malformed")), (record_request check w),
      (if truthy v then Some v else None).
    split; [reflexivity |]. split; [by split |]. exact Hmarker. }
  unfold bind at 1, get_state at 1. cbn [fst snd].
  unfold bind at 1, lift at 1. cbn [repo_field].
  unfold bind at 1, fetch at 1. cbn [fst snd].
  unfold put_file_request, requestBody. fold (base_properties s).
  set (put := mkRequest "PUT" _ _ _).
  exists (match net (record_request check w) (sent (record_request check w)) put with
          | Rejected e => Throw e
          | Resolved r =>
              fst ((if negb (ok r)
                    then bind (lift (json r)) (fun errorData =>
                           bind (lift (get errorData "message")) (fun msg =>
                             bind (lift (toString
                                           (or_else msg
                                              (JStr "Failed to create/update file"))))
                                  (fun text => throw (Error text))))
                    else ret tt) (record_request put (record_request check w), s))
          end),
         (record_request put (record_request check w)),
         (if truthy v then Some v else None).
  split; [| split; [| exact Hmarker]].
  - destruct (net _ _ put) as [e|r]; [done |].
    destruct (ok r); simpl; [done |]. run_monad.
    destruct (json r) as [errorData|e]; [| done].
    destruct (get errorData "message") as [msg|e]; [| done].
    by destruct (toString (or_else msg (JStr "Failed to create/update file"))).
  - subst put. simpl. rewrite <- app_assoc. simpl. by destruct (truthy v).
Qed.

Lemma pushToGitHub_proceeds (repo : Repo) (w : World) (s : State) :
  selectedRepo = Some repo ->
  exists w' s',
    pushToGitHub generatedCode githubToken selectedRepo (w, s) = (Normal tt, (w', s')) /\
    existing_file_request githubToken (full_name repo) (fileName s) (branchName s)
    ∈ sent w'.
Proof.
  intros Hrepo. unfold pushToGitHub, setPushStatus, setPushMessage, setIsLoading.
  unfold bind at 1, modify at 1. cbn [fst snd].
  unfold bind at 1, modify at 1. cbn [fst snd].
  unfold bind at 1, modify at 1. cbn [fst snd].
  cbn [pushStatus pushMessage fileName commitMessage branchName isLoading].
  set (s1 := mkState _ _ _ _ _ _).
  destruct (createBranchIfNotExists_cases w s1) as (w1 & Hbranch & _).
  destruct (createOrUpdateFile_cases repo w1 s1 Hrepo) as (r & w2 & marker & Hwrite & Hsent & _).
  unfold try_finally, try_catch. unfold bind at 1. rewrite Hbranch.
  unfold bind at 1. rewrite Hwrite.
  assert (Hin : existing_file_request githubToken (full_name repo) (fileName s) (branchName s)
                ∈ sent w2).
  { destruct (has_lone_surrogate generatedCode).
    - destruct Hsent as [-> _]. apply elem_of_app. right. apply list_elem_of_here.
    - rewrite Hsent. apply elem_of_app. right. apply list_elem_of_here. }
  subst selectedRepo. destruct r as [[]|e]; run_monad; by eexists _, _.
Qed.

End Publish.

End ViewerFacts.

Module Publish.
Import Js Net TestCaseViewer ViewerFacts.

(** C6. [createBranchIfNotExists] always completes normally and leaves
    the component state alone. Either both requests ran and the creation
    was accepted or answered 422, and then nothing is logged; or, for any
    other course of events (the read of the default branch tip failing
    included), exactly one error is logged under "Branch creation error:".
    In both cases [pushToGitHub] goes on to the file write: it sends the
    existence check of [createOrUpdateFile] and completes normally. *)
Theorem ensure_branch_never_propagates
    (generatedCode githubToken : string) (selectedRepo : option Repo)
    (w : World) (s : State) :
  (exists w',
     createBranchIfNotExists githubToken selectedRepo (w, s) = (Normal tt, (w', s)) /\
     ((errlog w' = errlog w /\ branch_ready githubToken selectedRepo w s) \/
      (exists e, errlog w' = errlog w ++ [("Branch creation error:", e)]) /\
      ~ branch_ready githubToken selectedRepo w s)) /\
  (forall repo, selectedRepo = Some repo ->
     exists w' s',
       pushToGitHub generatedCode githubToken selectedRepo (w, s) = (Normal tt, (w', s')) /\
       existing_file_request githubToken (full_name repo) (fileName s) (branchName s)
       ∈ sent w').
Proof.
  split.
  - destruct (createBranchIfNotExists_cases githubToken selectedRepo w s)
      as (w' & Hrun & _ & H).
    by exists w'.
  - intros repo Hrepo. by apply pushToGitHub_proceeds.
Qed.

Lemma ensure_branch_never_propagates_witness :
  (exists w',
     createBranchIfNotExists "tok" (Some Samples.repo)
       (Samples.branch_exists_world, initial_state)
     = (Normal tt, (w', initial_state)) /\
     errlog w' = []) /\
  (exists w' s',
     pushToGitHub "// tests" "tok" (Some Samples.repo) (Samples.offline, initial_state)
     = (Normal tt, (w', s')) /\
     existing_file_request "tok" "octo/demo" "generated-tests.test.js" "workik-test-cases"
     ∈ sent w').
Proof.
  destruct (ensure_branch_never_propagates "// tests" "tok" (Some Samples.repo)
              Samples.branch_exists_world initial_state)
    as [(w' & Hrun & [[Hlog _] | [_ Hnot]]) _].
  - split; [by exists w' |].
    destruct (ensure_branch_never_propagates "// tests" "tok" (Some Samples.repo)
                Samples.offline initial_state) as [_ Hpush].
    apply (Hpush Samples.repo). reflexivity.
  - exfalso. apply Hnot.
    exists Samples.repo,
      (mkResponse 200 "" (Normal (JObj [("object", JObj [("sha", JStr "c0ffee")])]))),
      (JObj [("object", JObj [("sha", JStr "c0ffee")])]),
      (JObj [("sha", JStr "c0ffee")]), (JStr "c0ffee"),
      (mkResponse 422 "" (Normal (JObj [("message", JStr "Reference already exists")]))).
    repeat split; try reflexivity. by right.
Defined.


(** The scenario of the specification: no prior file, then a prior file. *)
Example write_without_prior_file :
  exists result w',
    createOrUpdateFile "// tests" "tok" (Some Samples.repo)
      (Samples.answering 404, initial_state) = (result, (w', initial_state)) /\
    (body <$> sent w' !! 1%nat)
    = Some (Some (JObj [("message", JStr "Add generated test cases by Workik AI");
                        ("content", JStr "Ly8gdGVzdHM=");
                        ("branch", JStr "workik-test-cases")])).
Proof. eexists _, _. split; reflexivity. Qed.

Example write_over_prior_file :
  exists result w',
    createOrUpdateFile "// tests" "tok" (Some Samples.repo)
      (Samples.file_present_world, initial_state) = (result, (w', initial_state)) /\
    (body <$> sent w' !! 1%nat)
    = Some (Some (JObj [("message", JStr "Add generated test cases by Workik AI");
                        ("content", JStr "Ly8gdGVzdHM=");
                        ("branch", JStr "workik-test-cases");
                        ("sha", JStr "abc123")])).
Proof. eexists _, _. split; reflexivity. Qed.

End Publish.

(** ** FileExplorer: substitution into the tree *)

Module TreeFacts.
Import Js Net FileExplorer.

(** Some node of the subtree of [item] has the path [target]. *)
Fixpoint mentions (target : string) (item : Item) : bool :=
  String.eqb (path item) target
  || match children item with
     | Some cs => existsb (mentions target) cs
     | None => false
     end.

(** The contents of a subtree, identities set aside. *)
Fixpoint contents (item : Item) : Item :=
  mkItem 0 (name item) (path item) (type item) (size item) (download_url item)
         (fullPath item) (isCodeFile item) (isTestFile item)
         (match children item with
          | Some cs => Some (map contents cs)
          | None => None
          end).

Lemma Item_nested_ind (P : Item -> Prop) :
  (forall o n p t s d f c te, P (mkItem o n p t s d f c te None)) ->
  (forall o n p t s d f c te cs, Forall P cs -> P (mkItem o n p t s d f c te (Some cs))) ->
  forall item, P item.
Proof.
  intros Hleaf Hnode. fix IH 1. intros [o n p t s d f c te [cs|]].
  - apply Hnode. revert cs. fix IHcs 1. intros [|x cs].
    + constructor.
    + constructor; [apply IH | apply IHcs].
  - apply Hleaf.
Qed.

Section Substitution.
Variable target : string.
Variable processedChildren : list Item.

(** [updateItem] is the callback of [items.map] in [updateTree]. *)
Lemma updateItem_eq (item : Item) (next : nat) :
  updateItem target processedChildren item next =
  if String.eqb (path item) target then
    (with_children next item (Some processedChildren), S next)
  else
    match children item with
    | Some cs =>
        let '(cs', next') := updateTree target processedChildren cs (S next) in
        (with_children next item (Some cs'), next')
    | None => (item, next)
    end.
Proof.
  destruct item as [o n p t s d f c te [cs|]]; simpl; [| done].
  destruct (String.eqb p target); [done |].
  match goal with
  | |- (let '(_, _) := ?f cs (S next) in _) = _ =>
      assert (E : forall l k, f l k = updateTree target processedChildren l k)
  end.
  { induction l as [|x l IHl]; intros k; simpl; [done |].
    destruct (updateItem target processedChildren x k) as [x' n1]. by rewrite IHl. }
  by rewrite E.
Qed.

Lemma updateItem_next (item : Item) :
  forall next, (next <= (updateItem target processedChildren item next).2)%nat.
Proof.
  induction item as [o n p t s d f c te | o n p t s d f c te cs IH] using Item_nested_ind;
    intros next; rewrite updateItem_eq; simpl.
  - destruct (String.eqb p target); simpl; lia.
  - destruct (String.eqb p target); simpl; [lia |].
    assert (H : forall k, (k <= (updateTree target processedChildren cs k).2)%nat).
    { induction IH as [|x l Hx _ IHl]; intros k; simpl; [done |].
      specialize (Hx k).
      destruct (updateItem target processedChildren x k) as [x' n1]. simpl in Hx.
      specialize (IHl n1).
      destruct (updateTree target processedChildren l n1) as [l' n2]. simpl in *. lia. }
    specialize (H (S next)).
    destruct (updateTree target processedChildren cs (S next)) as [cs' n']. simpl in *. lia.
Qed.

Lemma updateTree_length (items : list Item) :
  forall next, length (updateTree target processedChildren items next).1 = length items.
Proof.
  induction items as [|x l IH]; intros next; simpl; [done |].
  destruct (updateItem target processedChildren x next) as [x' n1].
  specialize (IH n1). destruct (updateTree target processedChildren l n1) as [l' n2].
  simpl in *. by rewrite IH.
Qed.

(** Each position of the result holds the image of the item at that
    position, made at some step of the allocation counter. *)
Lemma updateTree_lookup (items : list Item) :
  forall next i item,
    items !! i = Some item ->
    exists n, (next <= n)%nat /\
      (updateTree target processedChildren items next).1 !! i
      = Some (updateItem target processedChildren item n).1.
Proof.
  induction items as [|x l IH]; intros next i item Hi; [by rewrite lookup_nil in Hi |].
  simpl. pose proof (updateItem_next x next) as Hn.
  destruct (updateItem target processedChildren x next) as [x' n1] eqn:Hx.
  destruct i as [|i]; simpl in Hi.
  - injection Hi as <-. exists next. split; [done |].
    destruct (updateTree target processedChildren l n1). simpl. by rewrite Hx.
  - destruct (IH n1 i item Hi) as (n & Hle & Hl). exists n. simpl in Hn. split; [lia |].
    destruct (updateTree target processedChildren l n1). simpl in *. done.
Qed.

(** Substitution keeps every node at its place with its own fields, so a
    sibling group stays in the order [processFileTree] gave it. *)
Lemma updateTree_keeps_fields (items : list Item) :
  forall next,
    map (fun it => (name it, path it, type it, isCodeFile it, isTestFile it))
        (updateTree target processedChildren items next).1
    = map (fun it => (name it, path it, type it, isCodeFile it, isTestFile it)) items.
Proof.
  induction items as [|x l IH]; intros next; simpl; [done |].
  pose proof (updateItem_eq x next) as Hx.
  destruct (updateItem target processedChildren x next) as [x' n1].
  specialize (IH n1). destruct (updateTree target processedChildren l n1) as [l' n2].
  simpl in *. rewrite IH. f_equal.
  destruct (String.eqb (path x) target); [by injection Hx as -> _ |].
  destruct (children x) as [cs|]; [| by injection Hx as -> _].
  destruct (updateTree target processedChildren cs (S next)). by injection Hx as -> _.
Qed.

(** A subtree that does not hold the target keeps its contents. *)
Lemma updateItem_contents (item : Item) :
  forall next,
    mentions target item = false ->
    contents (updateItem target processedChildren item next).1 = contents item.
Proof.
  induction item as [o n p t s d f c te | o n p t s d f c te cs IH] using Item_nested_ind;
    intros next; rewrite updateItem_eq; simpl.
  - rewrite orb_false_r. by intros ->.
  - intros [Hp Hcs]%orb_false_elim. rewrite Hp.
    assert (H : forall k, map contents (updateTree target processedChildren cs k).1
                          = map contents cs).
    { clear Hp. induction IH as [|x l Hx _ IHl]; intros k; simpl; [done |].
      simpl in Hcs. apply orb_false_elim in Hcs as [Hx0 Hl0].
      specialize (Hx k Hx0).
      destruct (updateItem target processedChildren x k) as [x' n1]. simpl in Hx.
      specialize (IHl Hl0 n1).
      destruct (updateTree target processedChildren l n1) as [l' n2]. simpl in *.
      by rewrite Hx, IHl. }
    specialize (H (S next)).
    destruct (updateTree target processedChildren cs (S next)) as [cs' n']. simpl in *.
    by rewrite H.
Qed.

End Substitution.

End TreeFacts.

Module TreeSubstitution.
Import Js Net FileExplorer TreeFacts.

(** C3, as amended. In the result of [updateTree] every position holds the
    image of the item that was there. An item whose path is the target
    becomes a new object with the item's other fields and the new
    children. Any other item with [null] children (a file) is returned as
    the same object. Any other item with a children array (every directory,
    sibling directories included) becomes a new object with the item's
    other fields and the recursively updated children; when its subtree
    does not hold the target, the new object has the same contents as the
    old one, but not its identity. New objects take identities that were
    unused before the call. *)
Theorem updateTree_copies_every_directory
    (target : string) (processedChildren items : list Item) (next i : nat) (item : Item) :
  items !! i = Some item ->
  exists item',
    (updateTree target processedChildren items next).1 !! i = Some item' /\
    if String.eqb (path item) target then
      exists o, (next <= o)%nat /\
        item' = with_children o item (Some processedChildren)
    else
      match children item with
      | None => item' = item
      | Some cs =>
          exists o, (next <= o)%nat /\
            item' = with_children o item
                      (Some (updateTree target processedChildren cs (S o)).1) /\
            (mentions target item = false -> contents item' = contents item)
      end.
Proof.
  intros Hi.
  destruct (updateTree_lookup target processedChildren items next i item Hi)
    as (n & Hn & Hl).
  eexists. split; [exact Hl |].
  pose proof (updateItem_contents target processedChildren item n) as Hc.
  rewrite updateItem_eq in Hc |- *.
  destruct (String.eqb (path item) target); simpl; [by exists n |].
  destruct (children item) as [cs|]; [| done].
  exists n. split; [done |].
  destruct (updateTree target processedChildren cs (S n)) as [cs' n'] eqn:E.
  simpl in *. split; [done | exact Hc].
Qed.

Lemma updateTree_copies_every_directory_witness :
  exists item',
    (updateTree "src" Samples.src_children Samples.sample_tree 100).1 !! 0%nat
    = Some item' /\
    exists o, (100 <= o)%nat /\
      item' = with_children o Samples.lib_dir
                (Some (updateTree "src" Samples.src_children [Samples.lib_child] (S o)).1) /\
      (mentions "src" Samples.lib_dir = false ->
       contents item' = contents Samples.lib_dir).
Proof.
  apply (updateTree_copies_every_directory "src" Samples.src_children
           Samples.sample_tree 100 0 Samples.lib_dir).
  reflexivity.
Defined.

(** C3 as stated fails. [lib] is a sibling of the target [src] and holds a
    cached child. After the substitution the node at its place is another
    object (identity 100, not 11) with the same contents; the cached child,
    a file, is the same object as before. *)
Lemma sibling_directory_is_a_new_object :
  let tree := (updateTree "src" Samples.src_children Samples.sample_tree 100).1 in
  tree !! 0%nat <> Some Samples.lib_dir /\
  oid <$> tree !! 0%nat = Some 100%nat /\
  oid Samples.lib_dir = 11%nat /\
  contents <$> tree !! 0%nat = Some (contents Samples.lib_dir) /\
  (tree !! 0%nat) ≫= children = Some [Samples.lib_child].
Proof. repeat split; try reflexivity. discriminate. Qed.

End TreeSubstitution.

(** ** FileExplorer: expansion and selection *)

Module ExplorerHandlers.
Import Js Net FileExplorer.

Ltac run_monad :=
  unfold bind, ret, throw, lift, try_catch, try_finally, axios_get, console_error,
    get_state, modify, with_heap; simpl.

Section Handlers.
Variable localeCompare : string -> string -> Z.
Variable githubToken : string.
Variable repo : Repo.

(** The state with another tree. *)
Definition with_tree (s : State) (t : list Item) : State :=
  mkState t (selectedFiles s) (expandedFolders s) (error s) (isLoading s).

Definition with_expanded (s : State) (e : gset string) : State :=
  mkState (fileTree s) (selectedFiles s) e (error s) (isLoading s).

Definition with_selected (s : State) (f : list Item) : State :=
  mkState (fileTree s) f (expandedFolders s) (error s) (isLoading s).

Lemma fetchFolderContents_cases (folder : Item) (w : World) (s : State) :
  exists w' tree,
    fetchFolderContents localeCompare githubToken (Some repo) folder (w, s)
    = (Normal tt, (w', with_tree s tree)) /\
    sent w' = sent w ++ [contents_request githubToken ("/" +:+ path folder) (full_name repo)].
Proof.
  unfold fetchFolderContents. run_monad.
  destruct (listing w (sent w) _) as [data|e].
  - destruct (updateTree _ _ _ _) as [tree n]. by eexists _, tree.
  - exists (record_error "Failed to fetch folder contents:" e
              (record_request
                 (contents_request githubToken ("/" +:+ path folder) (full_name repo)) w)),
           (fileTree s).
    by destruct s.
Qed.

Lemma toggleFolder_cases (folder : Item) (w : World) (s : State) :
  exists w' tree,
    toggleFolder localeCompare githubToken (Some repo) folder (w, s)
    = (Normal tt,
       (w', with_expanded (with_tree s tree)
              (if decide (path folder ∈ expandedFolders s)
               then expandedFolders s ∖ {[path folder]}
               else {[path folder]} ∪ expandedFolders s))) /\
    if decide (path folder ∈ expandedFolders s) then w' = w /\ tree = fileTree s
    else
      match children folder with
      | Some (_ :: _) => w' = w /\ tree = fileTree s
      | _ =>
          sent w' = sent w ++
            [contents_request githubToken ("/" +:+ path folder) (full_name repo)]
      end.
Proof.
  unfold toggleFolder. unfold bind at 1, get_state at 1. cbn [fst snd].
  destruct (decide (path folder ∈ expandedFolders s)) as [Hin|Hout].
  { exists w, (fileTree s). split; [| done]. by destruct s. }
  unfold no_children.
  destruct (children folder) as [[|c cs]|] eqn:Hc; simpl.
  - destruct (fetchFolderContents_cases folder w s) as (w' & tree & Hrun & Hsent).
    exists w', tree. unfold bind. rewrite Hrun. done.
  - exists w, (fileTree s). split; [| done]. by destruct s.
  - destruct (fetchFolderContents_cases folder w s) as (w' & tree & Hrun & Hsent).
    exists w', tree. unfold bind. rewrite Hrun. done.
Qed.

(** The selection without its first entry of path [p]. *)
Fixpoint without_path (p : string) (files : list Item) : list Item :=
  match files with
  | [] => []
  | f :: rest => if String.eqb (path f) p then rest else f :: without_path p rest
  end.

Definition has_path (p : string) (files : list Item) : bool :=
  existsb (fun f => String.eqb (path f) p) files.

Lemma findIndex_cases (p : string) (files : list Item) :
  if has_path p files
  then 0 <= findIndex (fun f => String.eqb (path f) p) files /\
       splice1 (findIndex (fun f => String.eqb (path f) p) files) files
       = without_path p files
  else findIndex (fun f => String.eqb (path f) p) files = -1.
Proof.
  unfold has_path. induction files as [|f rest IH]; simpl.
  { done. }
  destruct (String.eqb (path f) p); simpl; [done |].
  destruct (existsb _ rest).
  - destruct IH as [Hge Hsp].
    destruct (findIndex _ rest =? -1) eqn:E; [lia |].
    split; [lia |]. unfold splice1 in *.
    replace (Z.to_nat (findIndex (fun f0 => String.eqb (path f0) p) rest + 1))
      with (S (Z.to_nat (findIndex (fun f0 => String.eqb (path f0) p) rest))) by lia.
    simpl. by rewrite Hsp.
  - by rewrite IH.
Qed.

Lemma toggleFileSelection_cases (file : Item) (w : World) (s : State) :
  toggleFileSelection file (w, s)
  = (Normal tt,
     (w, with_selected s
           (if has_path (path file) (selectedFiles s)
            then without_path (path file) (selectedFiles s)
            else selectedFiles s ++ [file]))).
Proof.
  unfold toggleFileSelection. run_monad.
  pose proof (findIndex_cases (path file) (selectedFiles s)) as H.
  destruct (has_path (path file) (selectedFiles s)).
  - destruct H as [Hge ->].
    by destruct (-1 <? findIndex _ (selectedFiles s)) eqn:E; [| lia].
  - by rewrite H.
Qed.

Lemma has_path_elem (p : string) (files : list Item) :
  has_path p files = true <-> p ∈ (path <$> files).
Proof.
  unfold has_path. rewrite existsb_exists, list_elem_of_fmap. split.
  - intros (f & Hin & Heq%String.eqb_eq). exists f. split; [done | by apply list_elem_of_In].
  - intros (f & -> & Hin). exists f. split; [by apply list_elem_of_In | apply String.eqb_refl].
Qed.

Lemma without_path_paths (p : string) (files : list Item) :
  NoDup (path <$> files) ->
  NoDup (path <$> without_path p files) /\
  (p ∉ (path <$> without_path p files)) /\
  forall q, q <> p -> (q ∈ (path <$> without_path p files)) <-> (q ∈ (path <$> files)).
Proof.
  induction files as [|f rest IH]; simpl.
  - intros _. repeat split; [constructor | by intros ?%elem_of_nil | done | done].
  - intros [Hf Hrest]%NoDup_cons. destruct (String.eqb (path f) p) eqn:E.
    + apply String.eqb_eq in E as <-. repeat split; try done.
      * intros Hq. by right.
      * intros [Hq | Hq]%elem_of_cons; done.
    + apply String.eqb_neq in E. destruct (IH Hrest) as (Hnd & Hnot & Hiff).
      simpl. repeat split.
      * apply NoDup_cons. split; [| done]. intros Hin. apply Hf.
        by apply (Hiff (path f) E).
      * intros [Hq | Hq]%elem_of_cons; [congruence | done].
      * intros [Hq | Hq]%elem_of_cons; [rewrite Hq; by left | right; by apply Hiff].
      * intros [Hq | Hq]%elem_of_cons; [rewrite Hq; by left | right; by apply Hiff].
Qed.

End Handlers.

End ExplorerHandlers.

Module Expansion.
Import Js Net FileExplorer ExplorerHandlers.

(** C4, as amended. [toggleFolder] completes normally and toggles the
    expanded marker. Collapsing sends nothing. Expanding a folder whose
    children array is not empty sends nothing and leaves the tree as it
    is. Expanding a folder whose children are [null] or an empty array
    sends one listing request for its path: an empty array is treated as
    not yet fetched. *)
Theorem expansion_fetches_unless_children_nonempty
    (localeCompare : string -> string -> Z) (githubToken : string) (repo : Repo)
    (folder : Item) (w : World) (s : State) :
  exists w' tree,
    toggleFolder localeCompare githubToken (Some repo) folder (w, s)
    = (Normal tt,
       (w', mkState tree (selectedFiles s)
              (if decide (path folder ∈ expandedFolders s)
               then expandedFolders s ∖ {[path folder]}
               else {[path folder]} ∪ expandedFolders s)
              (error s) (isLoading s))) /\
    if decide (path folder ∈ expandedFolders s) then w' = w /\ tree = fileTree s
    else
      match children folder with
      | Some (_ :: _) => w' = w /\ tree = fileTree s
      | _ =>
          sent w' = sent w ++
            [contents_request githubToken ("/" +:+ path folder) (full_name repo)]
      end.
Proof. apply toggleFolder_cases. Qed.

(** C4 as stated fails. The directory [src] is expanded and its listing
    comes back empty, so its children are fetched and are the empty
    sequence. It is collapsed and expanded again: a second listing request
    is sent. *)
Lemma fetched_empty_directory_is_fetched_again :
  let st1 := Samples.click_first Samples.lone_directory in
  let st2 := Samples.click_first st1 in
  let st3 := Samples.click_first st2 in
  children <$> fileTree st1.2 !! 0%nat = Some (Some []) /\
  length (sent st1.1) = 1%nat /\
  length (sent st2.1) = 1%nat /\
  length (sent st3.1) = 2%nat.
Proof. repeat split; reflexivity. Qed.

End Expansion.

Module Selection.
Import Js Net FileExplorer ExplorerHandlers.

(** C5, as amended. A click never raises an error. On a directory it
    toggles the folder and leaves the selection as it is; on a file that is
    not a code file it does nothing. On a code file it appends the file
    when no selected entry has its path, and otherwise removes the first
    selected entry with that path; on a selection without repeated paths
    the path is then selected exactly when it was not before. *)
Theorem click_selects_code_files_only
    (localeCompare : string -> string -> Z) (githubToken : string) (repo : Repo)
    (item : Item) (w : World) (s : State) :
  exists w' s',
    onClick localeCompare githubToken (Some repo) item (w, s) = (Normal tt, (w', s')) /\
    if String.eqb (type item) "dir" then selectedFiles s' = selectedFiles s
    else if isCodeFile item then
      w' = w /\
      s' = mkState (fileTree s)
             (if has_path (path item) (selectedFiles s)
              then without_path (path item) (selectedFiles s)
              else selectedFiles s ++ [item])
             (expandedFolders s) (error s) (isLoading s) /\
      (NoDup (path <$> selectedFiles s) ->
       NoDup (path <$> selectedFiles s') /\
       (path item ∈ (path <$> selectedFiles s')
        <-> path item ∉ (path <$> selectedFiles s)))
    else w' = w /\ s' = s.
Proof.
  unfold onClick. destruct (String.eqb (type item) "dir").
  { destruct (toggleFolder_cases localeCompare githubToken repo item w s)
      as (w' & tree & Hrun & _).
    eexists _, _. split; [exact Hrun | done]. }
  destruct (isCodeFile item).
  2: { by exists w, s. }
  rewrite toggleFileSelection_cases. eexists _, _. split; [reflexivity |].
  split; [done |]. split; [done |]. simpl. intros Hnd.
  destruct (has_path (path item) (selectedFiles s)) eqn:Hhas.
  - destruct (without_path_paths (path item) (selectedFiles s) Hnd) as (H1 & H2 & _).
    split; [done |]. apply has_path_elem in Hhas. split; [done |]. intros Hno. done.
  - assert (Hno : path item ∉ (path <$> selectedFiles s)).
    { intros Hin%has_path_elem. congruence. }
    rewrite fmap_app. simpl. split.
    + apply NoDup_app. split; [done |]. split.
      * intros p Hp [-> | []%elem_of_nil]%elem_of_cons. done.
      * apply NoDup_singleton.
    + split; [done |]. intros _. apply elem_of_app. right. apply list_elem_of_here.
Qed.

Lemma click_selects_code_files_only_witness :
  exists w' s',
    onClick Host.alphabeticCollation "tok" (Some Samples.repo) Samples.a_js
      (Samples.offline, Samples.empty_explorer) = (Normal tt, (w', s')) /\
    selectedFiles s' = [Samples.a_js] /\
    NoDup (path <$> selectedFiles s') /\
    (path Samples.a_js ∈ (path <$> selectedFiles s')
     <-> path Samples.a_js ∉ (path <$> @nil Item)).
Proof.
  destruct (click_selects_code_files_only Host.alphabeticCollation "tok" Samples.repo
              Samples.a_js Samples.offline Samples.empty_explorer)
    as (w' & s' & Hrun & _ & Hs & Hnd).
  exists w', s'. split; [exact Hrun |]. split; [by rewrite Hs |].
  apply Hnd. simpl. constructor.
Defined.

(** C5 as stated fails. A click on the directory [src] and a click on
    [notes.md], which is not a code file, complete normally: nothing named
    InvalidSelectionTarget, or any other error, is raised. The selection
    operation itself has no guard and would select the directory. *)
Lemma click_on_directory_raises_nothing :
  let st := (Samples.offline, Samples.empty_explorer) in
  (onClick Host.alphabeticCollation "tok" (Some Samples.repo) Samples.src_dir st).1
  = Normal tt /\
  onClick Host.alphabeticCollation "tok" (Some Samples.repo) Samples.notes_md st
  = (Normal tt, st) /\
  ~ (exists e,
       (onClick Host.alphabeticCollation "tok" (Some Samples.repo) Samples.src_dir st).1
       = Throw e) /\
  selectedFiles (toggleFileSelection Samples.src_dir st).2.2 = [Samples.src_dir].
Proof.
  repeat split; try reflexivity. intros [e He]. discriminate He.
Qed.

End Selection.

(** ** FileExplorer: more on selection and expansion *)

Set Warnings "-clear-no-such-hyp".

Module SelectionExtras.
Import Js Net FileExplorer ExplorerHandlers.
Local Open Scope js_scope.

Lemma without_path_appended (file : Item) (files : list Item) :
  has_path (path file) files = false ->
  without_path (path file) (files ++ [file]) = files.
Proof.
  unfold has_path. induction files as [|f rest IH]; simpl.
  - by rewrite String.eqb_refl.
  - intros [Hf Hrest]%orb_false_elim. rewrite Hf. by rewrite IH.
Qed.

Lemma has_path_appended (file : Item) (files : list Item) :
  has_path (path file) (files ++ [file]) = true.
Proof.
  unfold has_path. rewrite existsb_app. simpl.
  by rewrite String.eqb_refl, orb_true_r.
Qed.

Lemma without_path_permutation (p : string) (files : list Item) :
  has_path p files = true ->
  path <$> files ≡ₚ p :: (path <$> without_path p files).
Proof.
  unfold has_path. induction files as [|f rest IH]; simpl; [done |].
  destruct (String.eqb (path f) p) eqn:E; simpl.
  - intros _. apply String.eqb_eq in E. by rewrite E.
  - intros H. rewrite (IH H). apply Permutation_swap.
Qed.

Lemma with_selected_same (s : State) : with_selected s (selectedFiles s) = s.
Proof. by destruct s. Qed.

(** Two clicks on the same code file, one after the other. *)
Definition toggleTwice (file : Item) : M State unit :=
  toggleFileSelection file ;; toggleFileSelection file.

(** X1. Toggling the selection of a file twice gives back the selected
    paths: when the file was not selected the selection is exactly as
    before; when it was, its entry has moved to the end, so the selected
    paths are the same up to order. Nothing else of the state changes. *)
Theorem toggle_twice_keeps_selected_paths (file : Item) (w : World) (s : State) :
  NoDup (path <$> selectedFiles s) ->
  exists selected,
    toggleTwice file (w, s) = (Normal tt, (w, with_selected s selected)) /\
    path <$> selected ≡ₚ path <$> selectedFiles s /\
    (has_path (path file) (selectedFiles s) = false -> selected = selectedFiles s) /\
    (has_path (path file) (selectedFiles s) = true ->
     selected = without_path (path file) (selectedFiles s) ++ [file]).
Proof.
  intros Hnd. unfold toggleTwice, bind.
  rewrite toggleFileSelection_cases, toggleFileSelection_cases. simpl.
  destruct (has_path (path file) (selectedFiles s)) eqn:Hhas.
  - destruct (without_path_paths (path file) (selectedFiles s) Hnd) as (_ & Hnot & _).
    assert (Hnow : has_path (path file) (without_path (path file) (selectedFiles s)) = false).
    { destruct (has_path _ (without_path _ _)) eqn:E; [| done].
      by apply has_path_elem in E. }
    rewrite Hnow. eexists. split; [reflexivity |]. split; [| done].
    rewrite fmap_app. simpl. rewrite (without_path_permutation _ _ Hhas).
    by rewrite <- Permutation_cons_append.
  - rewrite has_path_appended, without_path_appended by done.
    exists (selectedFiles s). done.
Qed.

Lemma toggle_twice_keeps_selected_paths_witness :
  exists selected,
    toggleTwice Samples.a_js
      (Samples.offline, with_selected Samples.empty_explorer [Samples.a_js; Samples.b_py])
    = (Normal tt, (Samples.offline, with_selected Samples.empty_explorer selected)) /\
    path <$> selected ≡ₚ ["a.js"; "b.py"] /\
    selected = [Samples.b_py; Samples.a_js].
Proof.
  destruct (toggle_twice_keeps_selected_paths Samples.a_js Samples.offline
              (with_selected Samples.empty_explorer [Samples.a_js; Samples.b_py]))
    as (selected & Hrun & Hperm & _ & Hmoved).
  { simpl. repeat (constructor; [set_solver |]). constructor. }
  exists selected. split; [exact Hrun |]. split; [exact Hperm |].
  apply Hmoved. reflexivity.
Defined.

Section Clicks.
Variable localeCompare : string -> string -> Z.
Variable githubToken : string.
Variable repo : Repo.

(** A series of clicks on rendered items. *)
Fixpoint clicks (items : list Item) : M State unit :=
  match items with
  | [] => ret tt
  | item :: rest => onClick localeCompare githubToken (Some repo) item ;; clicks rest
  end.

(** Every selected entry is a code file and no directory, and no two
    entries share a path. *)
Definition selection_ok (selected : list Item) : Prop :=
  NoDup (path <$> selected) /\
  Forall (fun f => isCodeFile f = true /\ type f <> "dir") selected.

Lemma without_path_Forall (P : Item -> Prop) (p : string) (files : list Item) :
  Forall P files -> Forall P (without_path p files).
Proof.
  induction 1 as [|f rest Hf Hrest IH]; simpl; [constructor |].
  destruct (String.eqb (path f) p); [done | by constructor].
Qed.

Lemma onClick_keeps_selection_ok (item : Item) (w : World) (s : State) :
  selection_ok (selectedFiles s) ->
  exists w' s',
    onClick localeCompare githubToken (Some repo) item (w, s) = (Normal tt, (w', s')) /\
    selection_ok (selectedFiles s').
Proof.
  intros [Hnd Hall]. unfold onClick.
  destruct (String.eqb (type item) "dir") eqn:Hdir.
  { destruct (toggleFolder_cases localeCompare githubToken repo item w s)
      as (w' & tree & Hrun & _).
    eexists _, _. split; [exact Hrun |]. by split. }
  destruct (isCodeFile item) eqn:Hcode.
  2: { exists w, s. by split. }
  rewrite toggleFileSelection_cases. eexists _, _. split; [reflexivity |]. simpl.
  destruct (has_path (path item) (selectedFiles s)) eqn:Hhas.
  - destruct (without_path_paths (path item) (selectedFiles s) Hnd) as (H1 & _).
    split; [done | by apply without_path_Forall].
  - split.
    + rewrite fmap_app. apply NoDup_app. split; [done |]. split; [| apply NoDup_singleton].
      intros p Hp [-> | []%elem_of_nil]%elem_of_cons.
      apply has_path_elem in Hp. congruence.
    + apply Forall_app. split; [done |]. constructor; [| constructor].
      split; [done |]. by apply String.eqb_neq.
Qed.

End Clicks.

(** X2. Whatever is clicked, in whatever order, the selection holds code
    files only, never a directory, and never two entries with one path,
    provided it started that way (the empty selection does). No click
    raises an error. *)
Theorem clicks_keep_selection_ok
    (localeCompare : string -> string -> Z) (githubToken : string) (repo : Repo)
    (items : list Item) (w : World) (s : State) :
  selection_ok (selectedFiles s) ->
  exists w' s',
    clicks localeCompare githubToken repo items (w, s) = (Normal tt, (w', s')) /\
    selection_ok (selectedFiles s').
Proof.
  revert w s. induction items as [|item rest IH]; intros w s Hok.
  - exists w, s. by split.
  - destruct (onClick_keeps_selection_ok localeCompare githubToken repo item w s Hok)
      as (w1 & s1 & Hrun & Hok1).
    destruct (IH w1 s1 Hok1) as (w' & s' & Hrest & Hok').
    exists w', s'. split; [| done].
    cbn [clicks]. unfold bind. by rewrite Hrun.
Qed.

Lemma clicks_keep_selection_ok_witness :
  exists w' s',
    clicks Host.alphabeticCollation "tok" Samples.repo
      [Samples.a_js; Samples.src_dir; Samples.notes_md; Samples.b_py; Samples.a_js]
      (Samples.offline, Samples.empty_explorer) = (Normal tt, (w', s')) /\
    selection_ok (selectedFiles s').
Proof.
  apply (clicks_keep_selection_ok Host.alphabeticCollation "tok" Samples.repo
           [Samples.a_js; Samples.src_dir; Samples.notes_md; Samples.b_py; Samples.a_js]
           Samples.offline Samples.empty_explorer).
  split; simpl; constructor.
Defined.

(** Two clicks on a folder, as rendered before and after the first. *)
Definition toggleFolderTwice (localeCompare : string -> string -> Z) (githubToken : string)
    (repo : Repo) (folder folder' : Item) : M State unit :=
  toggleFolder localeCompare githubToken (Some repo) folder ;;
  toggleFolder localeCompare githubToken (Some repo) folder'.

(** X3. Toggling a folder twice leaves the set of expanded folders and
    the selection as they were, whichever way the folder started and
    whatever the listing request, if one was sent, came back with. *)
Theorem toggle_folder_twice_restores_expanded
    (localeCompare : string -> string -> Z) (githubToken : string) (repo : Repo)
    (folder folder' : Item) (w : World) (s : State) :
  path folder' = path folder ->
  exists w' s',
    toggleFolderTwice localeCompare githubToken repo folder folder' (w, s)
    = (Normal tt, (w', s')) /\
    expandedFolders s' = expandedFolders s /\
    selectedFiles s' = selectedFiles s.
Proof.
  intros Hpath. unfold toggleFolderTwice, bind.
  destruct (toggleFolder_cases localeCompare githubToken repo folder w s)
    as (w1 & tree1 & Hrun1 & _).
  rewrite Hrun1.
  match goal with |- context [toggleFolder _ _ _ _ (w1, ?st)] => set (s1 := st) end.
  destruct (toggleFolder_cases localeCompare githubToken repo folder' w1 s1)
    as (w2 & tree2 & Hrun2 & _).
  rewrite Hrun2. eexists _, _. split; [reflexivity |]. split; [| done].
  subst s1. simpl. rewrite Hpath.
  destruct (decide (path folder ∈ expandedFolders s)) as [Hin | Hout].
  - destruct (decide (path folder ∈ expandedFolders s ∖ {[path folder]})) as [H | H];
      [set_solver |].
    apply set_eq. intros p. rewrite elem_of_union, elem_of_difference, elem_of_singleton.
    destruct (decide (p = path folder)) as [-> | Hne]; naive_solver.
  - destruct (decide (path folder ∈ {[path folder]} ∪ expandedFolders s)) as [H | H];
      [| set_solver].
    set_solver.
Qed.

Lemma toggle_folder_twice_restores_expanded_witness :
  exists w' s',
    toggleFolderTwice Host.alphabeticCollation "tok" Samples.repo
      Samples.lib_dir Samples.lib_dir (Samples.offline, Samples.empty_explorer)
    = (Normal tt, (w', s')) /\
    expandedFolders s' = expandedFolders Samples.empty_explorer /\
    selectedFiles s' = selectedFiles Samples.empty_explorer.
Proof.
  apply (toggle_folder_twice_restores_expanded Host.alphabeticCollation "tok" Samples.repo
           Samples.lib_dir Samples.lib_dir Samples.offline Samples.empty_explorer).
  reflexivity.
Defined.

End SelectionExtras.

(** ** FileExplorer: more on the tree *)

Module TreeExtras.
Import Js Net FileExplorer JsFacts TreeFacts ExplorerHandlers ExplorerFacts.
Local Open Scope js_scope.

Lemma Forall_same_keys {A K} (key : A -> K) (P P' : A -> Prop) (l l' : list A) :
  (forall b b', key b = key b' -> P b -> P' b') ->
  map key l = map key l' ->
  Forall P l -> Forall P' l'.
Proof.
  intros HP Hkeys Hl. revert l' Hkeys.
  induction Hl as [|x l Hx Hl IH]; intros [|x' l'] Hkeys; try discriminate; [constructor |].
  injection Hkeys as Hk Hkeys. constructor; [by apply (HP x) | by apply IH].
Qed.

Lemma StronglySorted_same_keys {A K} (key : A -> K) (R : A -> A -> Prop) (l l' : list A) :
  (forall a b a' b', key a = key a' -> key b = key b' -> R a b -> R a' b') ->
  map key l = map key l' ->
  StronglySorted R l -> StronglySorted R l'.
Proof.
  intros HR Hkeys Hs. revert l' Hkeys.
  induction Hs as [|x l Hs IH Hx]; intros [|x' l'] Hkeys; try discriminate; [constructor |].
  injection Hkeys as Hk Hkeys. constructor; [by apply IH |].
  apply (Forall_same_keys key (R x) (R x') l l'); [| done | done].
  intros b b' Hb. by apply HR.
Qed.

(** X4. Substituting fetched children never reorders or resizes a sibling
    group: a group that [processFileTree] left in order is still in order
    under the same comparator, with the same paths at the same places. *)
Theorem updateTree_keeps_sibling_order
    (localeCompare : string -> string -> Z) (target : string)
    (processedChildren items : list Item) (next : nat) :
  StronglySorted (before (compareItems localeCompare)) items ->
  StronglySorted (before (compareItems localeCompare))
                 (updateTree target processedChildren items next).1 /\
  path <$> (updateTree target processedChildren items next).1 = path <$> items.
Proof.
  intros Hs. pose proof (updateTree_keeps_fields target processedChildren items next) as Hk.
  split.
  - apply (StronglySorted_same_keys
             (fun it => (name it, path it, type it, isCodeFile it, isTestFile it))
             _ items); [| done | done].
    intros a b a' b' [= Hn _ Ht _ _] [= Hn' _ Ht' _ _]. unfold before, compareItems.
    by rewrite Hn, Ht, Hn', Ht'.
  - assert (E : forall l : list Item,
               path <$> l
               = map (fun k : string * string * string * bool * bool => k.1.1.1.2)
                   (map (fun it => (name it, path it, type it, isCodeFile it, isTestFile it)) l)).
    { intros l. rewrite map_map. done. }
    by rewrite !E, Hk.
Qed.

Lemma updateTree_keeps_sibling_order_witness :
  StronglySorted (before (compareItems Host.alphabeticCollation))
                 (updateTree "src" Samples.src_children Samples.sample_tree 100).1 /\
  path <$> (updateTree "src" Samples.src_children Samples.sample_tree 100).1
  = ["lib"; "src"; "a.js"].
Proof.
  apply (updateTree_keeps_sibling_order Host.alphabeticCollation "src"
           Samples.src_children Samples.sample_tree 100).
  repeat (constructor; [| repeat (constructor; [by vm_compute |]); constructor]).
  constructor.
Defined.

(** X5. Substituting the children of a path that no node of the tree has
    leaves the contents of the whole tree as they were. *)
Theorem updateTree_without_target_keeps_contents
    (target : string) (processedChildren items : list Item) (next : nat) :
  existsb (mentions target) items = false ->
  map contents (updateTree target processedChildren items next).1 = map contents items.
Proof.
  revert next. induction items as [|x l IH]; intros next; simpl; [done |].
  intros [Hx Hl]%orb_false_elim.
  pose proof (updateItem_contents target processedChildren x next Hx) as Hc.
  destruct (updateItem target processedChildren x next) as [x' n1].
  specialize (IH n1 Hl). destruct (updateTree target processedChildren l n1) as [l' n2].
  simpl in *. by rewrite Hc, IH.
Qed.

Lemma updateTree_without_target_keeps_contents_witness :
  map contents (updateTree "docs" Samples.src_children Samples.sample_tree 100).1
  = map contents Samples.sample_tree.
Proof.
  apply (updateTree_without_target_keeps_contents "docs" Samples.src_children
           Samples.sample_tree 100).
  reflexivity.
Defined.

End TreeExtras.

(** ** FileExplorer: loading, re-expansion and the filter *)

Module ExplorerLoading.
Import Js Net FileExplorer JsFacts TreeFacts ExplorerHandlers ExplorerFacts SelectionExtras.
Local Open Scope js_scope.

Section Loading.
Variable localeCompare : string -> string -> Z.
Variable githubToken : string.

Lemma fetchFolderContents_success (repo : Repo) (folder : Item) (entries : list RawEntry)
    (w : World) (s : State) :
  let rq := contents_request githubToken ("/" +:+ path folder) (full_name repo) in
  listing w (sent w) rq = Normal entries ->
  exists w',
    fetchFolderContents localeCompare githubToken (Some repo) folder (w, s)
    = (Normal tt,
       (w', with_tree s
              (updateTree (path folder)
                 (processFileTree localeCompare entries (fullPath folder) (fresh w)).1
                 (fileTree s) (fresh w + length entries)).1)) /\
    sent w' = sent w ++ [rq] /\ listing w' = listing w.
Proof.
  intros rq Hl. unfold fetchFolderContents. run_monad. fold rq. rewrite Hl. simpl.
  destruct (updateTree _ _ _ _) as [tree n]. simpl. by eexists.
Qed.

Lemma processFileTree_length (entries : list RawEntry) (basePath : string) (next : nat) :
  length (processFileTree localeCompare entries basePath next).1 = length entries.
Proof.
  unfold processFileTree. simpl. rewrite (sort_perm (compareItems localeCompare)).
  revert next. induction entries as [|e l IH]; intros next; simpl; [done | by rewrite IH].
Qed.

End Loading.

(** X6. Expanding a folder of the tree whose listing comes back with at
    least one entry sends one request and puts the processed entries under
    that folder: the node at the folder's place is a copy of the folder
    whose children are the processed listing. Collapsing and expanding
    the folder again, as rendered from the new tree, sends nothing more
    and leaves the tree alone. *)
Theorem reexpansion_of_populated_folder_sends_nothing
    (localeCompare : string -> string -> Z) (githubToken : string) (repo : Repo)
    (folder : Item) (i : nat) (entry : RawEntry) (entries : list RawEntry)
    (w : World) (s : State) :
  let rq := contents_request githubToken ("/" +:+ path folder) (full_name repo) in
  fileTree s !! i = Some folder ->
  path folder ∉ expandedFolders s ->
  no_children folder = true ->
  listing w (sent w) rq = Normal (entry :: entries) ->
  exists w1 s1 folder1,
    toggleFolder localeCompare githubToken (Some repo) folder (w, s)
    = (Normal tt, (w1, s1)) /\
    sent w1 = sent w ++ [rq] /\
    fileTree s1 !! i = Some folder1 /\
    path folder1 = path folder /\
    (exists o,
       folder1 =
         with_children o folder
           (Some (processFileTree localeCompare (entry :: entries) (fullPath folder)
                    (fresh w)).1)) /\
    exists s3,
      toggleFolderTwice localeCompare githubToken repo folder1 folder1 (w1, s1)
      = (Normal tt, (w1, s3)) /\
      fileTree s3 = fileTree s1 /\
      expandedFolders s3 = expandedFolders s1.
Proof.
  intros rq Hi Hout Hno Hl.
  destruct (fetchFolderContents_success localeCompare githubToken repo folder
              (entry :: entries) w s Hl) as (w1 & Hfetch & Hsent & _).
  remember (processFileTree localeCompare (entry :: entries) (fullPath folder)
              (fresh w)).1 as processed eqn:Hprocessed.
  assert (Hlen : length processed = S (length entries))
    by (rewrite Hprocessed; by rewrite processFileTree_length).
  assert (Hrun : toggleFolder localeCompare githubToken (Some repo) folder (w, s)
                 = (Normal tt,
                    (w1, with_expanded
                           (with_tree s
                              (updateTree (path folder) processed (fileTree s)
                                 (fresh w + length (entry :: entries))).1)
                           ({[path folder]} ∪ expandedFolders s)))).
  { unfold toggleFolder. unfold bind at 1, get_state at 1. cbn [fst snd].
    destruct (decide (path folder ∈ expandedFolders s)); [done |].
    rewrite Hno. unfold bind. by rewrite Hfetch. }
  destruct (updateTree_lookup (path folder) processed (fileTree s)
              (fresh w + length (entry :: entries)) i folder Hi) as (n & _ & Hlook).
  rewrite updateItem_eq, String.eqb_refl in Hlook. simpl in Hlook.
  set (folder1 := with_children n folder (Some processed)) in *.
  eexists w1, _, folder1. split; [exact Hrun |]. split; [exact Hsent |].
  split; [exact Hlook |]. split; [done |]. split.
  { by exists n. }
  clear Hprocessed.
  match goal with
  | |- context [toggleFolderTwice _ _ _ _ _ (w1, ?st)] => set (s1 := st)
  end.
  unfold toggleFolderTwice, bind.
  destruct (toggleFolder_cases localeCompare githubToken repo folder1 w1 s1)
    as (w2 & tree2 & Hrun2 & Hcase2).
  assert (Hin1 : path folder1 ∈ expandedFolders s1) by (subst s1; simpl; set_solver).
  destruct (decide (path folder1 ∈ expandedFolders s1)) as [_ | Hn]; [| done].
  destruct Hcase2 as [-> ->]. rewrite Hrun2.
  match goal with
  | |- context [toggleFolder _ _ _ _ (w1, ?st)] => set (s2 := st)
  end.
  destruct (toggleFolder_cases localeCompare githubToken repo folder1 w1 s2)
    as (w3 & tree3 & Hrun3 & Hcase3).
  assert (Hout2 : path folder1 ∉ expandedFolders s2) by (subst s2; simpl; set_solver).
  destruct (decide (path folder1 ∈ expandedFolders s2)) as [Hy | _]; [done |].
  assert (Hch : exists c cs, children folder1 = Some (c :: cs)).
  { unfold folder1. cbn [with_children children].
    destruct processed as [|c cs]; [done | by exists c, cs]. }
  destruct Hch as (c & cs & Hch). rewrite Hch in Hcase3. destruct Hcase3 as [-> ->].
  rewrite Hrun3. eexists. split; [reflexivity |]. split; [done |].
  subst s2 s1. simpl. set_solver.
Qed.

Lemma reexpansion_of_populated_folder_sends_nothing_witness :
  let state := FileExplorer.mkState [Samples.src_dir] [] ∅ "" false in
  let world := Samples.serving [Samples.entry "main.js" "file" None] in
  exists w1 s1 folder1,
    toggleFolder Host.alphabeticCollation "tok" (Some Samples.repo) Samples.src_dir
      (world, state) = (Normal tt, (w1, s1)) /\
    length (sent w1) = 1%nat /\
    fileTree s1 !! 0%nat = Some folder1 /\
    (map name <$> children folder1) = Some ["main.js"] /\
    exists s3,
      toggleFolderTwice Host.alphabeticCollation "tok" Samples.repo folder1 folder1 (w1, s1)
      = (Normal tt, (w1, s3)) /\
      fileTree s3 = fileTree s1.
Proof.
  intros state world.
  destruct (reexpansion_of_populated_folder_sends_nothing Host.alphabeticCollation "tok"
              Samples.repo Samples.src_dir 0 (Samples.entry "main.js" "file" None) []
              world state)
    as (w1 & s1 & folder1 & Hrun & Hsent & Hlook & _ & (o & Hfolder) & s3 & Htwice & Htree & _).
  - reflexivity.
  - simpl. set_solver.
  - reflexivity.
  - reflexivity.
  - exists w1, s1, folder1. split; [exact Hrun |]. split; [by rewrite Hsent |].
    split; [exact Hlook |]. split; [by rewrite Hfolder |]. by exists s3.
Defined.

End ExplorerLoading.

(** ** FileExplorer: the root listing and the filter *)

Module ExplorerRoot.
Import Js Net FileExplorer JsFacts ExplorerHandlers ExplorerFacts.
Local Open Scope js_scope.

(** X7. Loading the root listing never throws and always ends with the
    loading flag off. It leaves the selection and the expanded folders as
    they were. When the listing arrives the tree becomes the processed
    listing and the error message is cleared; when it does not (or no
    repository is chosen) the message "Failed to fetch repository contents"
    is set, the error is logged, and the tree that was shown stays. *)
Theorem fetchRepoContents_keeps_tree_on_failure
    (localeCompare : string -> string -> Z) (githubToken : string)
    (selectedRepo : option Repo) (p : string) (w : World) (s : State) :
  exists w' s',
    fetchRepoContents localeCompare githubToken selectedRepo p (w, s)
    = (Normal tt, (w', s')) /\
    isLoading s' = false /\
    selectedFiles s' = selectedFiles s /\
    expandedFolders s' = expandedFolders s /\
    match selectedRepo with
    | Some repo =>
        let rq := contents_request githubToken
                    (if negb (String.eqb p "") then "/" +:+ p else "") (full_name repo) in
        sent w' = sent w ++ [rq] /\
        match listing w (sent w) rq with
        | Normal data =>
            error s' = "" /\ errlog w' = errlog w /\
            fileTree s' = (processFileTree localeCompare data "" (fresh w)).1
        | Throw e =>
            error s' = "Failed to fetch repository contents" /\
            errlog w' = errlog w ++ [("Fetch error:", e)] /\
            fileTree s' = fileTree s
        end
    | None =>
        sent w' = sent w /\
        error s' = "Failed to fetch repository contents" /\
        errlog w' =
          errlog w ++
          [("Fetch error:",
            TypeError "Cannot read properties of null (reading 'full_name')")] /\
        fileTree s' = fileTree s
    end.
Proof.
  unfold fetchRepoContents. destruct selectedRepo as [repo|]; run_monad.
  - destruct (listing w (sent w) _) as [data|e]; simpl;
      eexists _, _; (split; [reflexivity |]); simpl; done.
  - eexists _, _. split; [reflexivity |]. simpl. done.
Qed.

Lemma filter_sublist {A} (p q : A -> bool) (l : list A) :
  (forall x, x ∈ l -> p x = true -> q x = true) ->
  sublist (List.filter p l) (List.filter q l).
Proof.
  induction l as [|x l IH]; intros H; simpl; [constructor |].
  assert (IH' : sublist (List.filter p l) (List.filter q l)).
  { apply IH. intros y Hy. apply H. by right. }
  destruct (p x) eqn:Hp.
  - rewrite (H x); [by constructor | by left | done].
  - destruct (q x); [by constructor | done].
Qed.

Lemma filter_sublist_self {A} (p : A -> bool) (l : list A) : sublist (List.filter p l) l.
Proof.
  induction l as [|x l IH]; simpl; [constructor |].
  destruct (p x); by constructor.
Qed.

(** X8. On a processed listing the three views nest: what the "test"
    filter shows is shown, in the same order, by the "code" filter, what
    the "code" filter shows is shown with no type filter, and every view is
    a part of the listing in its order, whatever the search term. *)
Theorem filter_views_nest
    (toLowerCase : string -> string) (searchTerm : string)
    (localeCompare : string -> string -> Z)
    (entries : list RawEntry) (basePath : string) (next : nat) :
  let items := (processFileTree localeCompare entries basePath next).1 in
  sublist (filterFiles toLowerCase searchTerm "test" items)
          (filterFiles toLowerCase searchTerm "code" items) /\
  sublist (filterFiles toLowerCase searchTerm "code" items)
          (filterFiles toLowerCase searchTerm "all" items) /\
  sublist (filterFiles toLowerCase searchTerm "all" items) items.
Proof.
  intros items. unfold filterFiles. split; [| split].
  - apply filter_sublist. intros it Hin. unfold matchesFilter. simpl.
    intros [Hm Ht]%andb_true_iff. rewrite Hm. simpl.
    destruct (processFileTree_elem _ _ _ _ _ Hin) as (o & e & _ & ->).
    by apply test_name_is_code_name.
  - apply filter_sublist. intros it _. unfold matchesFilter. simpl.
    by intros [Hm _]%andb_true_iff.
  - apply filter_sublist_self.
Qed.

Lemma includes_empty (s : string) : includes s "" = true.
Proof. by destruct s. Qed.

(** X9. With an empty search term nothing is hidden by the search: with
    no type filter every item is kept, and the "code" filter keeps exactly
    the code files. This needs only that the host lower-cases the empty
    string to itself. *)
Theorem empty_search_hides_nothing
    (toLowerCase : string -> string) (items : list Item) :
  toLowerCase "" = "" ->
  filterFiles toLowerCase "" "all" items = items /\
  filterFiles toLowerCase "" "code" items = List.filter isCodeFile items.
Proof.
  intros Hlow. unfold filterFiles, matchesFilter. simpl. rewrite Hlow. split.
  - induction items as [|x l IH]; simpl; [done |].
    by rewrite includes_empty, IH.
  - induction items as [|x l IH]; simpl; [done |].
    rewrite includes_empty, IH. done.
Qed.

Lemma empty_search_hides_nothing_witness :
  filterFiles Host.foldCases "" "all" Samples.sample_tree = Samples.sample_tree /\
  filterFiles Host.foldCases "" "code" Samples.sample_tree
  = List.filter isCodeFile Samples.sample_tree.
Proof.
  apply (empty_search_hides_nothing Host.foldCases Samples.sample_tree).
  reflexivity.
Defined.

End ExplorerRoot.

(** ** TestCaseGenerator: the requests and the results of a run *)

Module GeneratorExtras.
Import Js Net TestCaseGenerator GeneratorFacts.
Import FileExplorer(Item, name, path, download_url).
Local Open Scope js_scope.


(** The requests of a run over [files] that starts after [hist]. *)
Fixpoint run_requests (answers : list Request -> Request -> FetchOutcome)
    (hist : list Request) (files : list Item) : list Request :=
  match files with
  | [] => []
  | file :: rest =>
      let new := (retrieved answers hist file).2
                 ++ [generation_request (retrieved answers hist file).1] in
      new ++ run_requests answers (hist ++ new) rest
  end.

(** The map [generatedTestCases] after the writes of a run. *)
Definition recorded (entries : list (string * JsValue)) (m : gmap string JsValue)
  : gmap string JsValue :=
  fold_left (fun acc kv => <[kv.1 := kv.2]> acc) entries m.

Lemma processFiles_trace (files : list Item) :
  forall (i : Z) (acc : list Summary) (w : World) (s : State),
    testCaseSummaries s = acc ->
    exists sums w' s',
      processFiles files i acc (w, s) = (Normal (acc ++ sums), (w', s')) /\
      sent w' = sent w ++ run_requests (net w) (sent w) files /\
      map filePath sums = map path files /\
      testCaseSummaries s' = acc ++ sums /\
      generatedTestCases s'
      = recorded (zip (map filePath sums) (map testCases sums)) (generatedTestCases s).
Proof.
  induction files as [|file rest IH]; intros i acc w s Hacc.
  - exists [], w, s. simpl. unfold ret. rewrite !app_nil_r. by repeat split.
  - cbn [processFiles]. unfold bind at 1. unfold setCurrentFileIndex at 1, modify at 1.
    cbn [fst snd].
    set (s1 := mkState i _ _ _ _ _).
    destruct (fetchFileContent_retrieved file w s1) as (w1 & Hfetch & Hsent1 & Hnet1).
    unfold bind at 1. rewrite Hfetch.
    set (content := (retrieved (net w) (sent w) file).1) in *.
    destruct (generateTestCasesForFile_cases content (name file) w1 s1)
      as (tcs & w2 & Hgen & Hnet2 & (n & Hlen) & _).
    destruct (generateTestCasesForFile_outcome content (name file) w1 s1)
      as (tcs' & w2' & Hgen' & Hsent2 & _).
    rewrite Hgen in Hgen'. injection Hgen' as <- <-.
    unfold bind at 1. rewrite Hgen.
    unfold bind at 1, lift at 1. rewrite Hlen.
    unfold bind at 1. unfold setTestCaseSummaries at 1, modify at 1. cbn [fst snd].
    unfold bind at 1. unfold setGeneratedTestCases at 1, modify at 1. cbn [fst snd].
    set (sm := mkSummary (name file) (path file) n "completed" tcs).
    set (s2 := mkState _ _ _ _ _ _).
    destruct (IH (i + 1) (acc ++ [sm]) w2 s2 eq_refl)
      as (sums & w' & s' & Hrun & Hsent & Hpaths & Hts & Hmap).
    exists (sm :: sums), w', s'. rewrite Hrun.
    rewrite <- app_assoc in *. simpl. repeat split; try done.
    + rewrite Hsent, Hsent2, Hsent1, Hnet2, Hnet1. by rewrite <- !app_assoc.
    + by rewrite Hpaths.
Qed.

Lemma run_requests_posts (answers : list Request -> Request -> FetchOutcome)
    (files : list Item) :
  forall hist,
    length (List.filter (fun rq => String.eqb (method rq) "POST")
              (run_requests answers hist files)) = length files /\
    length (run_requests answers hist files)
    = (length files
       + length (List.filter (fun f => match direct_url f with
                                       | Some _ => true
                                       | None => false
                                       end) files))%nat.
Proof.
  induction files as [|file rest IH]; intros hist; simpl; [done |].
  rewrite !List.filter_app, !length_app.
  destruct (IH (hist ++ (retrieved answers hist file).2
                ++ [generation_request (retrieved answers hist file).1])) as [IH1 IH2].
  rewrite IH1, IH2. unfold retrieved.
  destruct (direct_url file); simpl; lia.
Qed.

(** X11. A run sends its requests one file after the other: for each
    file the content request, if the file has a direct URL, and then one
    generation request whose body is the text just retrieved (the
    placeholder when retrieval failed). So a run over N files posts to the
    backend exactly N times and sends one request more for each file with
    a direct URL. *)
Theorem run_sends_one_generation_request_per_file
    (selectedFiles : list Item) (w : World) (s : State) :
  exists w' s',
    startGeneration selectedFiles (w, s) = (Normal tt, (w', s')) /\
    sent w' = sent w ++ run_requests (net w) (sent w) selectedFiles /\
    length (List.filter (fun rq => String.eqb (method rq) "POST")
              (run_requests (net w) (sent w) selectedFiles))
    = length selectedFiles /\
    length (run_requests (net w) (sent w) selectedFiles)
    = (length selectedFiles
       + length (List.filter (fun f => match direct_url f with
                                       | Some _ => true
                                       | None => false
                                       end) selectedFiles))%nat.
Proof.
  unfold startGeneration.
  unfold setIsGenerating, setError, setCurrentFileIndex, setTestCaseSummaries,
    setGeneratedTestCases.
  do 5 (unfold bind at 1, modify at 1; cbn [fst snd]).
  cbn [currentFileIndex testCaseSummaries isGenerating error generatedTestCases reported].
  set (s0 := mkState _ _ _ _ _ _).
  destruct (processFiles_trace selectedFiles 0 [] w s0 eq_refl)
    as (sums & w' & s' & Hrun & Hsent & _).
  unfold try_finally, try_catch. unfold bind at 1. rewrite Hrun.
  unfold onTestCasesGenerated, modify. cbn [fst snd].
  eexists w', _. split; [reflexivity |]. split; [exact Hsent |].
  apply run_requests_posts.
Qed.

Lemma recorded_lookup (entries : list (string * JsValue)) :
  forall (m : gmap string JsValue) (k : string) (v : JsValue),
    NoDup entries.*1 -> (k, v) ∈ entries -> recorded entries m !! k = Some v.
Proof.
  unfold recorded. induction entries as [|[k0 v0] rest IH]; intros m k v Hnd Hin; simpl.
  - by apply elem_of_nil in Hin.
  - simpl in Hnd. apply NoDup_cons in Hnd as [Hk0 Hnd].
    apply elem_of_cons in Hin as [[= -> ->] | Hin].
    + clear IH. revert m. induction rest as [|[k1 v1] rest IHr]; intros m; simpl.
      * apply lookup_insert_eq.
      * simpl in Hk0, Hnd. apply not_elem_of_cons in Hk0 as [Hne Hk0].
        apply NoDup_cons in Hnd as [_ Hnd].
        rewrite insert_insert_ne by done. by apply IHr.
    + by apply IH.
Qed.

Lemma recorded_dom (entries : list (string * JsValue)) :
  forall m : gmap string JsValue,
    dom (recorded entries m) = list_to_set entries.*1 ∪ dom m.
Proof.
  unfold recorded. induction entries as [|[k0 v0] rest IH]; intros m; simpl.
  - set_solver.
  - rewrite IH, dom_insert_L. set_solver.
Qed.

(** X12. After a run over files with distinct paths, the map of
    generated test cases holds exactly the paths of the selection,
    whatever it held before, and gives for the path of each summary the
    test cases of that summary. *)
Theorem run_records_test_cases_by_path
    (selectedFiles : list Item) (w : World) (s : State) :
  NoDup (path <$> selectedFiles) ->
  exists w' s',
    startGeneration selectedFiles (w, s) = (Normal tt, (w', s')) /\
    dom (generatedTestCases s') = list_to_set (path <$> selectedFiles) /\
    filePath <$> testCaseSummaries s' = path <$> selectedFiles /\
    forall sm, sm ∈ testCaseSummaries s' ->
               generatedTestCases s' !! filePath sm = Some (testCases sm).
Proof.
  intros Hnd. unfold startGeneration.
  unfold setIsGenerating, setError, setCurrentFileIndex, setTestCaseSummaries,
    setGeneratedTestCases.
  do 5 (unfold bind at 1, modify at 1; cbn [fst snd]).
  cbn [currentFileIndex testCaseSummaries isGenerating error generatedTestCases reported].
  set (s0 := mkState _ _ _ _ _ _).
  destruct (processFiles_trace selectedFiles 0 [] w s0 eq_refl)
    as (sums & w' & s' & Hrun & _ & Hpaths & Hts & Hmap).
  unfold try_finally, try_catch. unfold bind at 1. rewrite Hrun.
  unfold onTestCasesGenerated, modify. cbn [fst snd].
  eexists w', _. split; [reflexivity |].
  cbn [currentFileIndex testCaseSummaries isGenerating error generatedTestCases reported].
  rewrite Hts, Hmap. simpl in *.
  assert (Hkeys : (zip (map filePath sums) (map testCases sums)).*1 = path <$> selectedFiles).
  { rewrite fst_zip; [done |]. by rewrite !length_map. }
  split; [| split; [done |]].
  - rewrite recorded_dom, Hkeys. subst s0. simpl. set_solver.
  - intros sm Hsm. apply recorded_lookup; [by rewrite Hkeys |].
    clear -Hsm. induction sums as [|x l IH]; [by apply elem_of_nil in Hsm |].
    apply elem_of_cons in Hsm as [-> | Hsm]; simpl; [left | right; by apply IH].
Qed.

Lemma run_records_test_cases_by_path_witness :
  exists w' s',
    startGeneration [Samples.a_js; Samples.b_py] (Samples.offline, Samples.empty_generator)
    = (Normal tt, (w', s')) /\
    dom (generatedTestCases s') = list_to_set ["a.js"; "b.py"] /\
    filePath <$> testCaseSummaries s' = ["a.js"; "b.py"] /\
    forall sm, sm ∈ testCaseSummaries s' ->
               generatedTestCases s' !! filePath sm = Some (testCases sm).
Proof.
  apply (run_records_test_cases_by_path [Samples.a_js; Samples.b_py]
           Samples.offline Samples.empty_generator).
  simpl. repeat (constructor; [set_solver |]). constructor.
Defined.

End GeneratorExtras.

(** ** TestCaseGenerator: the final code *)

Module FinalCode.
Import Js Net TestCaseGenerator GeneratorFacts JsFacts.
Import FileExplorer(Item, name, path).
Local Open Scope js_scope.

Definition nullish (v : JsValue) : bool :=
  match v with
  | JUndefined | JNull => true
  | _ => false
  end.

(** The value has a text: no object in it, reached through arrays, has a
    property named [toString] of its own. *)
Fixpoint printable (v : JsValue) : bool :=
  match v with
  | JArr elems => forallb printable elems
  | JObj props =>
      match assoc "toString" props with
      | Some _ => false
      | None => true
      end
  | _ => true
  end.

(** The property [k] of the test case can be read and has a text. *)
Definition prints (testCase : JsValue) (k : string) : bool :=
  match get testCase k with
  | Normal v => printable v
  | Throw _ => false
  end.

(** The test cases of the summary are an array; none of its elements is
    [null] or [undefined], and the [input] and the [output] of each have a
    text. *)
Definition renderable (sm : Summary) : bool :=
  match testCases sm with
  | JArr cases => forallb (fun c => prints c "input" && prints c "output") cases
  | _ => false
  end.

Fixpoint concat_strings (parts : list string) : string :=
  match parts with
  | [] => ""
  | part :: rest => part +:+ concat_strings rest
  end.

Definition opening (fileName : string) : string :=
  "// Test cases for " +:+ fileName +:+ nl
  +:+ "describe('" +:+ fileName +:+ "', () => {" +:+ nl.

Definition closing : string := "});" +:+ nl +:+ nl.

(** [stubs] are the stubs of [cases], numbered from [first] + 1. *)
Definition stubs_of (first : Z) (cases : list JsValue) (stubs : list string) : Prop :=
  length stubs = length cases /\
  forall k c, cases !! k = Some c ->
    exists stub, stubs !! k = Some stub /\ testStub (first + Z.of_nat k) c = Normal stub.

(** [block] is the test group of [sm]: its opening lines, one stub per
    test case, its closing lines. *)
Definition block_of (sm : Summary) (block : string) : Prop :=
  exists cases stubs,
    testCases sm = JArr cases /\ stubs_of 0 cases stubs /\
    block = opening (fileName sm) +:+ concat_strings stubs +:+ closing.

Lemma app_empty_r (s : string) : s +:+ "" = s.
Proof. induction s as [|c s IH]; [done |]. by rewrite app_String, IH. Qed.

Lemma toString_cases :
  forall v : JsValue,
    match toString v with
    | Normal _ => printable v = true
    | Throw e => printable v = false /\ ename e = "TypeError"
    end.
Proof.
  fix IH 1. intros v. destruct v as [| |b|n|s|elems|props]; try (simpl; done).
  - by destruct b.
  - cbn [toString printable].
    match goal with
    | |- context [match ?run elems with _ => _ end] =>
        assert (Helems :
          match run elems with
          | Normal _ => forallb printable elems = true
          | Throw e => forallb printable elems = false /\ ename e = "TypeError"
          end)
    end.
    { clear -IH. revert elems. fix IHelems 1. intros [|e rest]; [done |].
      pose proof (IH e) as He. pose proof (IHelems rest) as Hrest.
      cbn [forallb]. cbn fix beta iota.
      destruct e as [| |b|n|s|elems|props]; cbn [printable] in *.
      - cbn iota. destruct ((fix elements (es : list JsValue) := _) rest); [done |].
        by destruct Hrest.
      - cbn iota. destruct ((fix elements (es : list JsValue) := _) rest); [done |].
        by destruct Hrest.
      - destruct (toString (JBool b)); [| by destruct He].
        destruct ((fix elements (es : list JsValue) := _) rest); [done | by destruct Hrest].
      - destruct (toString (JNum n)); [| by destruct He].
        destruct ((fix elements (es : list JsValue) := _) rest); [done | by destruct Hrest].
      - destruct (toString (JStr s)); [| by destruct He].
        destruct ((fix elements (es : list JsValue) := _) rest); [done | by destruct Hrest].
      - destruct (toString (JArr elems)); [| by destruct He as [-> ?]].
        rewrite He.
        destruct ((fix elements (es : list JsValue) := _) rest); [done | by destruct Hrest].
      - destruct (toString (JObj props)); [| by destruct He as [-> ?]].
        rewrite He.
        destruct ((fix elements (es : list JsValue) := _) rest); [done | by destruct Hrest]. }
    match goal with
    | |- context [match ?run elems with _ => _ end] => destruct (run elems)
    end; done.
  - simpl. by destruct (assoc "toString" props).
Qed.

Lemma get_throws_TypeError (v : JsValue) (k : string) (e : JsError) :
  get v k = Throw e -> ename e = "TypeError".
Proof.
  destruct v; simpl; try done; try (by intros [= <-]);
    by destruct (String.eqb k "length").
Qed.

Lemma testStub_cases (index : Z) (testCase : JsValue) :
  match testStub index testCase with
  | Normal _ => prints testCase "input" && prints testCase "output" = true
  | Throw e =>
      prints testCase "input" && prints testCase "output" = false /\ ename e = "TypeError"
  end.
Proof.
  unfold testStub, prints.
  destruct (get testCase "input") as [input|e] eqn:Hin.
  2: { split; [done |]. by eapply get_throws_TypeError. }
  pose proof (toString_cases input) as Hinput.
  destruct (toString input) as [inputText|e].
  2: { destruct Hinput as [-> He]. done. }
  rewrite Hinput.
  destruct (get testCase "output") as [output|e] eqn:Hout.
  2: { split; [done |]. by eapply get_throws_TypeError. }
  pose proof (toString_cases output) as Houtput.
  destruct (toString output) as [outputText|e]; [done |].
  by destruct Houtput as [-> He].
Qed.

Lemma appendTestCases_cases (cases : list JsValue) :
  forall (finalCode : string) (index : Z),
    match appendTestCases finalCode index cases with
    | Normal text =>
        forallb (fun c => prints c "input" && prints c "output") cases = true /\
        exists stubs, stubs_of index cases stubs /\
                      text = finalCode +:+ concat_strings stubs
    | Throw e =>
        forallb (fun c => prints c "input" && prints c "output") cases = false /\
        ename e = "TypeError"
    end.
Proof.
  induction cases as [|c rest IH]; intros finalCode index; simpl.
  - split; [done |]. exists []. split; [| by rewrite app_empty_r].
    split; [done |]. intros k c. by rewrite lookup_nil.
  - pose proof (testStub_cases index c) as Hc.
    destruct (testStub index c) as [stub|e] eqn:Hstub.
    2: { destruct Hc as [-> He]. done. }
    rewrite Hc. simpl. specialize (IH (finalCode +:+ stub) (index + 1)).
    destruct (appendTestCases (finalCode +:+ stub) (index + 1) rest) as [text|e]; [| done].
    destruct IH as (Hall & stubs & [Hlen Hstubs] & ->). split; [done |].
    exists (stub :: stubs). split; [| by rewrite string_app_assoc].
    split; [simpl; by rewrite Hlen |].
    intros [|k] c'; simpl.
    + intros [= <-]. exists stub. split; [done |]. by rewrite Z.add_0_r.
    + intros Hk. destruct (Hstubs k c' Hk) as (st & Hst & Hstub').
      exists st. split; [done |].
      rewrite <- Hstub'. f_equal. lia.
Qed.

Lemma appendSummary_cases (finalCode : string) (sm : Summary) :
  match appendSummary finalCode sm with
  | Normal text =>
      renderable sm = true /\ exists block, block_of sm block /\ text = finalCode +:+ block
  | Throw e => renderable sm = false /\ ename e = "TypeError"
  end.
Proof.
  unfold appendSummary, renderable, block_of.
  destruct (testCases sm) as [| | | | |cases|]; try done.
  pose proof (appendTestCases_cases cases
                (finalCode +:+ opening (fileName sm)) 0) as H.
  change (finalCode +:+ "// Test cases for " +:+ fileName sm +:+ nl
          +:+ "describe('" +:+ fileName sm +:+ "', () => {" +:+ nl)
    with (finalCode +:+ opening (fileName sm)).
  destruct (appendTestCases (finalCode +:+ opening (fileName sm)) 0 cases) as [text|e];
    [| done].
  destruct H as (Hall & stubs & Hstubs & ->). split; [done |].
  eexists. split; [by exists cases, stubs |].
  change ("});" +:+ nl +:+ nl) with closing. by rewrite !string_app_assoc.
Qed.

Lemma appendSummaries_cases (sums : list Summary) :
  forall finalCode : string,
    match appendSummaries finalCode sums with
    | Normal text =>
        forallb renderable sums = true /\
        exists blocks, Forall2 block_of sums blocks /\
                       text = finalCode +:+ concat_strings blocks
    | Throw e => forallb renderable sums = false /\ ename e = "TypeError"
    end.
Proof.
  induction sums as [|sm rest IH]; intros finalCode; simpl.
  - split; [done |]. exists []. split; [constructor | by rewrite app_empty_r].
  - pose proof (appendSummary_cases finalCode sm) as Hsm.
    destruct (appendSummary finalCode sm) as [code|e].
    2: { destruct Hsm as [-> He]. done. }
    destruct Hsm as (-> & block & Hblock & ->). simpl.
    specialize (IH (finalCode +:+ block)).
    destruct (appendSummaries (finalCode +:+ block) rest) as [text|e]; [| done].
    destruct IH as (Hall & blocks & Hblocks & ->). split; [done |].
    exists (block :: blocks). split; [by constructor | by rewrite string_app_assoc].
Qed.

(** X13. [generateFinalCode] changes nothing and yields the final code
    exactly when the test cases of every summary are an array none of
    whose elements is [null] or [undefined] and in which the [input] and
    the [output] of every element have a text (no object in them has a
    property named [toString] of its own); otherwise it throws a
    TypeError, which nothing catches. *)
Theorem final_code_needs_arrays_of_cases (w : World) (s : State) :
  exists result,
    generateFinalCode (w, s) = (result, (w, s)) /\
    match result with
    | Normal _ => forallb renderable (testCaseSummaries s) = true
    | Throw e =>
        forallb renderable (testCaseSummaries s) = false /\ ename e = "TypeError"
    end.
Proof.
  unfold generateFinalCode, bind, get_state, lift. simpl.
  eexists. split; [reflexivity |].
  pose proof (appendSummaries_cases (testCaseSummaries s) finalCodeHeader) as H.
  destruct (appendSummaries finalCodeHeader (testCaseSummaries s)); [by destruct H | done].
Qed.

(** X14. The final code is the header followed by one test group per
    summary, in the order of the summaries; each group is made from its
    own summary alone and holds one stub per test case, numbered from 1. *)
Theorem final_code_is_header_and_one_group_per_summary
    (w : World) (s : State) (text : string) (st : World * State) :
  generateFinalCode (w, s) = (Normal text, st) ->
  exists blocks,
    Forall2 block_of (testCaseSummaries s) blocks /\
    text = finalCodeHeader +:+ concat_strings blocks.
Proof.
  unfold generateFinalCode, bind, get_state, lift. simpl.
  pose proof (appendSummaries_cases (testCaseSummaries s) finalCodeHeader) as H.
  destruct (appendSummaries finalCodeHeader (testCaseSummaries s)) as [t|e]; [| done].
  intros [= <- _]. by destruct H as (_ & blocks & Hb & ->); exists blocks.
Qed.

End FinalCode.

Module RunThenRender.
Import Js Net TestCaseGenerator GeneratorFacts JsFacts FinalCode.
Import FileExplorer(Item, name, path).
Local Open Scope js_scope.

Lemma final_code_is_header_and_one_group_per_summary_witness :
  exists blocks,
    Forall2 block_of (testCaseSummaries Samples.after_mock_run) blocks /\
    Samples.after_mock_run_code = finalCodeHeader +:+ concat_strings blocks.
Proof.
  apply (final_code_is_header_and_one_group_per_summary Samples.offline
           Samples.after_mock_run Samples.after_mock_run_code
           (Samples.offline, Samples.after_mock_run)).
  reflexivity.
Defined.

Lemma generateTestCasesForFile_answered {S} (code fileName : string) (w : World) (s : S)
    (r : Response) (data test_cases : JsValue) :
  net w (sent w) (generation_request code) = Resolved r ->
  ok r = true -> json r = Normal data -> get data "test_cases" = Normal test_cases ->
  @generateTestCasesForFile S code fileName (w, s)
  = (Normal (or_else test_cases (JArr [])), (record_request (generation_request code) w, s)).
Proof.
  intros Hnet Hok Hjson Hget. unfold generateTestCasesForFile.
  unfold try_catch, bind, fetch, lift, ret, throw. simpl.
  by rewrite Hnet, Hok, Hjson, Hget.
Qed.

(** Every generation call is answered 2xx with [test_cases] truthy but
    not an array. *)
Definition every_answer_misshapen (answers : list Request -> Request -> FetchOutcome) : Prop :=
  forall hist code,
    exists r data test_cases,
      answers hist (generation_request code) = Resolved r /\
      ok r = true /\ json r = Normal data /\
      get data "test_cases" = Normal test_cases /\
      truthy test_cases = true /\
      match test_cases with JArr _ => False | _ => True end.

Lemma processFiles_misshapen (files : list Item) :
  forall (i : Z) (acc : list Summary) (w : World) (s : State),
    every_answer_misshapen (net w) ->
    testCaseSummaries s = acc ->
    exists sums w' s',
      processFiles files i acc (w, s) = (Normal (acc ++ sums), (w', s')) /\
      length sums = length files /\
      Forall (fun sm => renderable sm = false) sums /\
      testCaseSummaries s' = acc ++ sums /\
      error s' = error s.
Proof.
  induction files as [|file rest IH]; intros i acc w s Hbad Hacc.
  - exists [], w, s. simpl. unfold ret. rewrite app_nil_r. by repeat split.
  - cbn [processFiles]. unfold bind at 1. unfold setCurrentFileIndex at 1, modify at 1.
    cbn [fst snd].
    set (s1 := mkState i _ _ _ _ _).
    destruct (fetchFileContent_in_cases component_scope file w s1)
      as (content & w1 & Hfetch & Hnet1 & _).
    unfold bind at 1. unfold fetchFileContent. rewrite Hfetch.
    assert (Hbad1 : every_answer_misshapen (net w1)) by by rewrite Hnet1.
    destruct (Hbad1 (sent w1) content) as (r & data & v & Hans & Hok & Hjson & Hget & Ht & Hv).
    unfold bind at 1.
    rewrite (generateTestCasesForFile_answered content (name file) w1 s1 r data v
               Hans Hok Hjson Hget).
    unfold or_else. rewrite Ht.
    assert (Hlen : exists n, get v "length" = Normal n).
    { destruct v; simpl in *; try done; by eexists. }
    destruct Hlen as (n & Hlen).
    unfold bind at 1, lift at 1. rewrite Hlen.
    unfold bind at 1. unfold setTestCaseSummaries at 1, modify at 1. cbn [fst snd].
    unfold bind at 1. unfold setGeneratedTestCases at 1, modify at 1. cbn [fst snd].
    set (sm := mkSummary (name file) (path file) n "completed" v).
    set (s2 := mkState _ _ _ _ _ _).
    destruct (IH (i + 1) (acc ++ [sm]) (record_request (generation_request content) w1) s2)
      as (sums & w' & s' & Hrun & Hl & Hall & Hts & He); [done | done |].
    exists (sm :: sums), w', s'. rewrite Hrun.
    rewrite <- app_assoc in *. simpl. repeat split; try done.
    + by rewrite Hl.
    + constructor; [| done]. unfold renderable, sm. simpl. by destruct v.
Qed.

(** X15. A backend that answers 2xx with [test_cases] that are truthy but
    not an array does not fail the run: every file gets a summary and no
    error is shown. The failure comes later: asked for the final code of
    that run, [generateFinalCode] throws a TypeError. *)
Theorem misshapen_test_cases_break_final_code
    (file : Item) (rest : list Item) (w : World) (s : State) :
  every_answer_misshapen (net w) ->
  exists w1 s1 e,
    startGeneration (file :: rest) (w, s) = (Normal tt, (w1, s1)) /\
    error s1 = "" /\
    length (testCaseSummaries s1) = S (length rest) /\
    generateFinalCode (w1, s1) = (Throw e, (w1, s1)) /\
    ename e = "TypeError".
Proof.
  intros Hbad. unfold startGeneration.
  unfold setIsGenerating, setError, setCurrentFileIndex, setTestCaseSummaries,
    setGeneratedTestCases.
  do 5 (unfold bind at 1, modify at 1; cbn [fst snd]).
  cbn [currentFileIndex testCaseSummaries isGenerating error generatedTestCases reported].
  set (s0 := mkState _ _ _ _ _ _).
  destruct (processFiles_misshapen (file :: rest) 0 [] w s0 Hbad eq_refl)
    as (sums & w' & s' & Hrun & Hlen & Hall & Hts & He).
  unfold try_finally, try_catch. unfold bind at 1. rewrite Hrun.
  unfold onTestCasesGenerated, modify. cbn [fst snd].
  pose proof (appendSummaries_cases sums finalCodeHeader) as Hcode.
  destruct (appendSummaries finalCodeHeader sums) as [text|e] eqn:Happ.
  { destruct Hcode as [Hr _]. destruct Hall as [|sm l Hsm _]; [done |].
    simpl in Hr. by rewrite Hsm in Hr. }
  eexists w', _, e. split; [reflexivity |].
  cbn [currentFileIndex testCaseSummaries isGenerating error generatedTestCases reported].
  rewrite Hts, He. simpl. split; [done |]. split; [done |].
  unfold generateFinalCode, bind, get_state, lift. simpl.
  rewrite Happ. by destruct Hcode.
Qed.

Lemma misshapen_test_cases_break_final_code_witness :
  exists w1 s1 e,
    startGeneration [Samples.a_js; Samples.b_py]
      (Samples.misshapen_backend, Samples.empty_generator) = (Normal tt, (w1, s1)) /\
    error s1 = "" /\
    length (testCaseSummaries s1) = 2%nat /\
    generateFinalCode (w1, s1) = (Throw e, (w1, s1)) /\
    ename e = "TypeError".
Proof.
  apply (misshapen_test_cases_break_final_code Samples.a_js [Samples.b_py]
           Samples.misshapen_backend Samples.empty_generator).
  intros hist code.
  exists (mkResponse 200 "" (Normal (JObj [("test_cases", JStr "abc")]))),
         (JObj [("test_cases", JStr "abc")]), (JStr "abc").
  repeat split; reflexivity.
Defined.

Lemma mock_summaries_renderable (files : list Item) :
  forallb renderable (map mock_summary files) = true.
Proof. induction files as [|f l IH]; simpl; [done | exact IH]. Qed.

(** X16. When every generation call fails, the run still ends with
    summaries from which the final code can be made: [generateFinalCode]
    completes normally on the state the run leaves, with one test group of
    four stubs per selected file. *)
Theorem failed_run_still_renders (selectedFiles : list Item) (w : World) (s : State) :
  (forall hist code, generation_fails (net w hist (generation_request code)) = true) ->
  exists w1 s1 blocks,
    startGeneration selectedFiles (w, s) = (Normal tt, (w1, s1)) /\
    generateFinalCode (w1, s1)
    = (Normal (finalCodeHeader +:+ concat_strings blocks), (w1, s1)) /\
    Forall2 (fun file block => block_of (mock_summary file) block) selectedFiles blocks.
Proof.
  intros Hfail.
  destruct (startGeneration_mock selectedFiles w s
              (generation_calls_fail (net w) selectedFiles Hfail (sent w)))
    as (w1 & s1 & Hrun & Hts).
  pose proof (appendSummaries_cases (map mock_summary selectedFiles) finalCodeHeader)
    as Hcode.
  destruct (appendSummaries finalCodeHeader (map mock_summary selectedFiles))
    as [text|e] eqn:Happ.
  2: { destruct Hcode as [Hr _]. by rewrite mock_summaries_renderable in Hr. }
  destruct Hcode as (_ & blocks & Hblocks & ->).
  exists w1, s1, blocks. split; [exact Hrun |]. split.
  - unfold generateFinalCode, bind, get_state, lift. simpl. by rewrite Hts, Happ.
  - clear -Hblocks.
    remember (map mock_summary selectedFiles) as l eqn:El. revert selectedFiles El.
    induction Hblocks as [|sm b l bs Hb _ IH]; intros [|f fs] El; try discriminate;
      [constructor |].
    injection El as -> ->. constructor; [done | by apply IH].
Qed.

Lemma failed_run_still_renders_witness :
  exists w1 s1 blocks,
    startGeneration [Samples.a_js] (Samples.offline, Samples.empty_generator)
    = (Normal tt, (w1, s1)) /\
    generateFinalCode (w1, s1)
    = (Normal (finalCodeHeader +:+ concat_strings blocks), (w1, s1)) /\
    Forall2 (fun file block => block_of (mock_summary file) block) [Samples.a_js] blocks.
Proof.
  apply (failed_run_still_renders [Samples.a_js] Samples.offline Samples.empty_generator).
  intros hist code. reflexivity.
Defined.

End RunThenRender.

(** ** TestCaseViewer: what a push reports, and the numbered lines *)

Module ViewerExtras.
Import Js Net TestCaseViewer ViewerFacts JsFacts.
Local Open Scope js_scope.

(** The [sha] of the tip in the answer to the read of the default
    branch, when the answer is 2xx JSON with an [object]. *)
Definition tip_sha (answer : FetchOutcome) : option JsValue :=
  match answer with
  | Rejected _ => None
  | Resolved r =>
      if ok r then
        match json r with
        | Normal data =>
            match get data "object" with
            | Normal object =>
                match get object "sha" with
                | Normal sha => Some sha
                | Throw _ => None
                end
            | Throw _ => None
            end
        | Throw _ => None
        end
      else None
  end.

(** X17. The branch step reads the tip of the default branch and, only
    when that read gave a tip, asks once for the new branch to be created
    at that tip under [refs/heads/] and the chosen branch name. It sends
    nothing else, and nothing at all when no repository is chosen. *)
Theorem branch_is_created_from_the_tip_read
    (githubToken : string) (selectedRepo : option Repo) (w : World) (s : State) :
  exists w',
    createBranchIfNotExists githubToken selectedRepo (w, s) = (Normal tt, (w', s)) /\
    sent w' =
      sent w ++
      match selectedRepo with
      | None => []
      | Some repo =>
          let read := default_ref_request githubToken (full_name repo)
                        (default_branch repo) in
          read ::
          match tip_sha (net w (sent w) read) with
          | Some sha =>
              [mkRequest "POST"
                 ("https://api.github.com/repos/" +:+ full_name repo +:+ "/git/refs")
                 (json_headers githubToken)
                 (Some (JObj [("ref", JStr ("refs/heads/" +:+ branchName s));
                              ("sha", sha)]))]
          | None => []
          end
      end.
Proof.
  unfold createBranchIfNotExists, tip_sha. destruct selectedRepo as [repo|]; run_monad.
  2: { eexists. split; [reflexivity |]. simpl. by rewrite app_nil_r. }
  destruct (net w (sent w) _) as [e|r1]; [by eexists |].
  destruct (ok r1); simpl; [| by eexists].
  destruct (json r1) as [data|e]; [| by eexists].
  destruct (get data "object") as [object|e]; [| by eexists].
  destruct (get object "sha") as [sha|e]; [| by eexists].
  destruct (net w _ _) as [e|r2]; simpl.
  { eexists. split; [reflexivity |]. simpl. by rewrite <- app_assoc. }
  destruct (negb (ok r2) && negb (Net.status r2 =? 422)); simpl;
    (eexists; split; [reflexivity |]; simpl; by rewrite <- app_assoc).
Qed.

Section Push.
Variable generatedCode : string.
Variable githubToken : string.
Variable repo : Repo.

(** The message shown for the answer to a refused or failed write. *)
Definition failure_reason (answer : FetchOutcome) : string :=
  match answer with
  | Rejected e => message e
  | Resolved r =>
      match json r with
      | Throw e => message e
      | Normal errorData =>
          match get errorData "message" with
          | Throw e => message e
          | Normal msg =>
              match toString (or_else msg (JStr "Failed to create/update file")) with
              | Normal text => text
              | Throw e => message e
              end
          end
      end
  end.

Definition write_accepted (answer : FetchOutcome) : bool :=
  match answer with
  | Resolved r => ok r
  | Rejected _ => false
  end.

Lemma createOrUpdateFile_outcome (w : World) (s : State) :
  let check := existing_file_request githubToken (full_name repo) (fileName s)
                 (branchName s) in
  if has_lone_surrogate generatedCode then
    createOrUpdateFile generatedCode githubToken (Some repo) (w, s)
    = (Throw (URIError "URI malformed"), (record_request check w, s))
  else
    exists put result,
      method put = "PUT" /\
      createOrUpdateFile generatedCode githubToken (Some repo) (w, s)
      = (result, (record_request put (record_request check w), s)) /\
      match result with
      | Normal _ => write_accepted (net w (sent w ++ [check]) put) = true
      | Throw e =>
          write_accepted (net w (sent w ++ [check]) put) = false /\
          message e = failure_reason (net w (sent w ++ [check]) put)
      end.
Proof.
  intros check.
  destruct (checkExistingFile_cases githubToken (Some repo) repo w s eq_refl)
    as (v & Hcheck & _).
  fold check in Hcheck.
  pose proof (fileContent_cases generatedCode) as Hcontent.
  unfold createOrUpdateFile.
  destruct (has_lone_surrogate generatedCode).
  { unfold bind at 1. rewrite Hcheck. unfold bind at 1, lift at 1. by rewrite Hcontent. }
  unfold bind at 1. rewrite Hcheck. unfold bind at 1, lift at 1. rewrite Hcontent.
  unfold bind at 1, get_state at 1. cbn [fst snd].
  unfold bind at 1, lift at 1. cbn [repo_field].
  unfold bind at 1, fetch at 1. cbn [fst snd].
  set (put := put_file_request githubToken (full_name repo) (btoa generatedCode) s v).
  change (net (record_request check w)) with (net w).
  change (sent (record_request check w)) with (sent w ++ [check]).
  exists put.
  destruct (net w (sent w ++ [check]) put) as [e|r] eqn:Hput.
  { simpl. by eexists. }
  unfold write_accepted, failure_reason. destruct (ok r) eqn:Hok; simpl.
  { by eexists. }
  run_monad. destruct (json r) as [errorData|e]; [| by eexists].
  destruct (get errorData "message") as [msg|e]; [| by eexists].
  destruct (toString (or_else msg (JStr "Failed to create/update file"))); by eexists.
Qed.

Lemma failure_reason_of_message (r : Response) (props : list (string * JsValue))
    (reason : string) :
  json r = Normal (JObj props) ->
  assoc "message" props = Some (JStr reason) -> reason <> "" ->
  failure_reason (Resolved r) = reason.
Proof.
  intros Hjson Hmsg Hne. unfold failure_reason. rewrite Hjson. simpl. rewrite Hmsg. simpl.
  unfold or_else. simpl. destruct (String.eqb reason "") eqn:E; [| done].
  by apply String.eqb_eq in E.
Qed.

End Push.

(** X18. With a repository chosen, a push never throws and ends with the
    loading flag off. When the code holds a lone surrogate, encoding it
    throws after the existence check: that check is the last request, no
    write is sent, the status is "error" and the message is "Failed to
    push to GitHub: URI malformed". Otherwise the last request is the
    write. When the write is answered 2xx the status is "success" and the
    message names the repository and the branch; otherwise the status is
    "error" and the message is "Failed to push to GitHub: " followed by
    the reason: the transport error, or the [message] of the server's JSON
    answer as a text, or "Failed to create/update file" when that answer
    has no message, or the error of reading the answer (not JSON, [null],
    a message that has no text). How the branch step went has no part in
    the outcome. *)
Theorem push_reports_the_write
    (generatedCode githubToken : string) (repo : Repo) (w : World) (s : State) :
  exists w' s' hist last,
    pushToGitHub generatedCode githubToken (Some repo) (w, s) = (Normal tt, (w', s')) /\
    sent w' = hist ++ [last] /\
    isLoading s' = false /\
    if has_lone_surrogate generatedCode then
      last = existing_file_request githubToken (full_name repo) (fileName s)
               (branchName s) /\
      pushStatus s' = "error" /\
      pushMessage s' = "Failed to push to GitHub: URI malformed"
    else
      method last = "PUT" /\
      if write_accepted (net w hist last) then
        pushStatus s' = "success" /\
        pushMessage s' = "Successfully pushed test cases to " +:+ repo_name repo +:+ "/"
                         +:+ branchName s
      else
        pushStatus s' = "error" /\
        pushMessage s' = "Failed to push to GitHub: " +:+ failure_reason (net w hist last).
Proof.
  unfold pushToGitHub, setPushStatus, setPushMessage, setIsLoading.
  do 3 (unfold bind at 1, modify at 1; cbn [fst snd]).
  cbn [pushStatus pushMessage fileName commitMessage branchName isLoading].
  set (s1 := mkState _ _ _ _ _ _).
  destruct (createBranchIfNotExists_cases githubToken (Some repo) w s1)
    as (w1 & Hbranch & Hnet1 & _).
  pose proof (createOrUpdateFile_outcome generatedCode githubToken repo w1 s1) as Hwrite.
  unfold try_finally, try_catch. unfold bind at 1. rewrite Hbranch.
  unfold bind at 1.
  destruct (has_lone_surrogate generatedCode).
  { cbv zeta in Hwrite. rewrite Hwrite. run_monad.
    eexists _, _, _, _. split; [reflexivity |]. simpl. by repeat split. }
  destruct Hwrite as (put & result & Hput & Hwrite & Hresult).
  rewrite Hwrite. rewrite Hnet1 in Hresult.
  subst s1. simpl in Hresult.
  destruct result as [[]|e].
  - run_monad. eexists _, _, _, put. split; [reflexivity |]. simpl.
    split; [reflexivity |]. split; [done |]. split; [done |]. by rewrite Hresult.
  - destruct Hresult as [Hno Hmsg]. run_monad.
    eexists _, _, _, put. split; [reflexivity |]. simpl.
    split; [reflexivity |]. split; [done |]. split; [done |]. by rewrite Hno, Hmsg.
Qed.

(** The write is refused with a JSON answer that carries a message. *)
Example refused_write_shows_server_message :
  let world :=
    mkWorld (fun _ _ => Resolved (mkResponse 409 ""
                          (Normal (JObj [("message", JStr "sha does not match")]))))
            (fun _ _ => Throw (mkError "AxiosError" "Network Error")) [] [] 100 in
  let outcome :=
    pushToGitHub "// tests" "tok" (Some Samples.repo) (world, initial_state) in
  outcome.1 = Normal tt /\
  pushStatus outcome.2.2 = "error" /\
  pushMessage outcome.2.2 = "Failed to push to GitHub: sha does not match".
Proof. vm_compute. by repeat split. Qed.

(** The code holds the lone surrogate U+D800: the push stops after the
    existence check. *)
Example lone_surrogate_stops_the_push :
  let code := "// " +:+ String "237"%char (String "160"%char (String "128"%char "")) in
  let outcome :=
    pushToGitHub code "tok" (Some Samples.repo) (Samples.answering 404, initial_state) in
  outcome.1 = Normal tt /\
  method <$> sent outcome.2.1 = ["GET"; "GET"] /\
  pushStatus outcome.2.2 = "error" /\
  pushMessage outcome.2.2 = "Failed to push to GitHub: URI malformed".
Proof. vm_compute. by repeat split. Qed.

End ViewerExtras.

(** ** TestCaseViewer: numbered lines *)

Module ViewerLines.
Import Js Net TestCaseViewer JsFacts.

Lemma split_nonempty (sep : ascii) (s : string) : split sep s <> [].
Proof.
  induction s as [|c s IH]; simpl; [done |].
  destruct (Ascii.eqb c sep); [done |]. by destruct (split sep s).
Qed.

Lemma join_prefix (sep a : string) (parts : list string) :
  forall b,
    fold_left (fun acc q => acc +:+ sep +:+ q) parts (a +:+ b)
    = a +:+ fold_left (fun acc q => acc +:+ sep +:+ q) parts b.
Proof.
  induction parts as [|p parts IH]; intros b; simpl; [done |].
  by rewrite <- IH, string_app_assoc.
Qed.

Lemma join_split (c : ascii) (s : string) :
  join (String c EmptyString) (split c s) = s.
Proof.
  induction s as [|x s IH]; simpl; [done |].
  pose proof (split_nonempty c s) as Hne.
  destruct (Ascii.eqb x c) eqn:E.
  - apply Ascii.eqb_eq in E as ->. destruct (split c s) as [|p ps]; [done |].
    simpl in *.
    change (EmptyString +:+ String c EmptyString +:+ p)
      with (String c EmptyString +:+ p).
    by rewrite join_prefix, IH.
  - destruct (split c s) as [|p ps]; [done |]. simpl in *.
    change (String x p) with (String x "" +:+ p).
    by rewrite join_prefix, IH.
Qed.

Lemma numberLines_lookup (lines : list string) :
  forall (index : Z) (k : nat) (l : Line),
    numberLines index lines !! k = Some l ->
    number l = index + Z.of_nat k + 1 /\ lines !! k = Some (content l).
Proof.
  induction lines as [|line rest IH]; intros index k l; simpl; [by rewrite lookup_nil |].
  destruct k as [|k]; simpl.
  - intros [= <-]. simpl. split; [lia | done].
  - intros Hk. destruct (IH (index + 1) k l Hk) as [Hn Hc]. split; [lia | done].
Qed.

Lemma numberLines_contents (lines : list string) :
  forall index, map content (numberLines index lines) = lines.
Proof. induction lines as [|line rest IH]; intros index; simpl; [done | by rewrite IH]. Qed.

(** X19. The numbered lines of the viewer lose nothing: joined with
    line feeds their contents give back the generated code. The k-th line
    carries the number k, counting from 1, and there are as many lines as
    the "Lines of Code" figure says, at least one even for empty code. *)
Theorem numbered_lines_give_back_the_code (generatedCode : string) :
  join nl (map content (formatCodeWithLineNumbers generatedCode)) = generatedCode /\
  (forall (k : nat) (l : Line),
     formatCodeWithLineNumbers generatedCode !! k = Some l ->
     number l = Z.of_nat k + 1) /\
  Z.of_nat (length (formatCodeWithLineNumbers generatedCode)) = linesOfCode generatedCode /\
  1 <= linesOfCode generatedCode.
Proof.
  unfold formatCodeWithLineNumbers, linesOfCode. repeat split.
  - rewrite numberLines_contents. apply join_split.
  - intros k l Hk. destruct (numberLines_lookup _ 0 k l Hk) as [Hn _]. lia.
  - rewrite <- (numberLines_contents (split "010" generatedCode) 0) at 2.
    by rewrite length_map.
  - pose proof (split_nonempty "010" generatedCode).
    destruct (split "010" generatedCode); [done | simpl; lia].
Qed.

End ViewerLines.

(** ** App: the steps and the stored token *)

Module AppFlow.
Import Js Net App.

(** X20. After signing in and choosing a repository, a reload of the page
    finds the stored token and goes straight to the file step with that
    token, but with no repository: the repository is not stored. The file
    explorer mounted with these props sends no request and keeps its
    state, so no tree is ever loaded. *)
Theorem reload_after_sign_in_has_no_repository
    (token : string) (repo : Repo) (page : Page)
    (localeCompare : string -> string -> Z) (w : World) (s : FileExplorer.State) :
  token <> "" ->
  let after := reload (handleAuthSuccess token repo page) in
  currentStep after.1 = "files" /\
  githubToken after.1 = token /\
  selectedRepo after.1 = None /\
  after.2 !! "github_token" = Some token /\
  FileExplorer.loadOnMount localeCompare (githubToken after.1) (selectedRepo after.1) (w, s)
  = (Normal tt, (w, s)).
Proof.
  intros Hne. destruct page as [st storage]. unfold reload, handleAuthSuccess, onMount.
  simpl. rewrite lookup_insert_eq.
  destruct (String.eqb token "") eqn:E; [by apply String.eqb_eq in E |].
  simpl. repeat split; try done.
  - apply lookup_insert_eq.
  - unfold FileExplorer.loadOnMount. by rewrite andb_false_r.
Qed.

Lemma reload_after_sign_in_has_no_repository_witness :
  let after := reload (handleAuthSuccess "ghp_token" Samples.repo (initial_state, ∅)) in
  currentStep after.1 = "files" /\
  githubToken after.1 = "ghp_token" /\
  selectedRepo after.1 = None /\
  after.2 !! "github_token" = Some "ghp_token" /\
  FileExplorer.loadOnMount Host.alphabeticCollation (githubToken after.1)
    (selectedRepo after.1) (Samples.offline, Samples.empty_explorer)
  = (Normal tt, (Samples.offline, Samples.empty_explorer)).
Proof.
  apply (reload_after_sign_in_has_no_repository "ghp_token" Samples.repo
           (initial_state, ∅) Host.alphabeticCollation Samples.offline
           Samples.empty_explorer).
  discriminate.
Defined.

(** X21. Reset forgets the session: whatever the page held, after a reset
    the token is gone from the storage, and a reload starts again at the
    sign-in step with the initial state. *)
Theorem reset_then_reload_starts_over (page : Page) :
  (handleReset page).2 !! "github_token" = None /\
  currentStep (handleReset page).1 = "auth" /\
  selectedRepo (handleReset page).1 = None /\
  (reload (handleReset page)).1 = initial_state.
Proof.
  destruct page as [st storage]. unfold reload, handleReset, onMount. simpl.
  rewrite lookup_delete_eq. done.
Qed.

End AppFlow.

Module AppInvariant.
Import Js Net App.
Import FileExplorer(Item).
Import TestCaseGenerator(Summary).

(** What can happen to the page: a call of one of the handlers that
    [App] hands to its children, a click on Reset, or a reload. *)
Inductive Event : Type :=
| AuthSuccess (token : string) (repo : Repo)
| FilesSelected (files : list Item)
| TestCasesGenerated (summaries : list Summary)
| CodeGenerated (code : string)
| Reset
| Reload.

Definition apply_event (page : Page) (ev : Event) : Page :=
  match ev with
  | AuthSuccess token repo => handleAuthSuccess token repo page
  | FilesSelected files => handleFilesSelected files page
  | TestCasesGenerated summaries => handleTestCasesGenerated summaries page
  | CodeGenerated code => handleCodeGenerated code page
  | Reset => handleReset page
  | Reload => reload page
  end.

(** [steps.findIndex(step => step.id === currentStep)] of the progress
    indicator. *)
Definition currentIndex (st : State) : Z :=
  findIndex (fun id => String.eqb id (currentStep st)) ["auth"; "files"; "generate"; "view"].

(** The step is one the progress indicator knows, and a token held in the
    state is the token in the storage. *)
Definition page_ok (page : Page) : Prop :=
  0 <= currentIndex page.1 <= 3 /\
  (githubToken page.1 <> "" -> page.2 !! "github_token" = Some (githubToken page.1)).

Lemma apply_event_ok (page : Page) (ev : Event) : page_ok page -> page_ok (apply_event page ev).
Proof.
  destruct page as [st storage]. intros [Hstep Htok].
  destruct ev; simpl; unfold page_ok, currentIndex in *; simpl in *.
  - split; [lia |]. intros _. apply lookup_insert_eq.
  - split; [lia | done].
  - done.
  - split; [lia | done].
  - split; [lia | done].
  - unfold reload, onMount. simpl. destruct (storage !! "github_token") as [saved|] eqn:E.
    + destruct (String.eqb saved ""); simpl; [split; [lia | done] | split; [lia | done]].
    + simpl. split; [lia | done].
Qed.

(** X22. Whatever happens to a freshly loaded page, in whatever order,
    the current step stays one of the four steps of the progress
    indicator, so its lookup never comes back with -1, and a token held
    in the state is always the token kept in the storage. *)
Theorem page_stays_ok (storage : gmap string string) (events : list Event) :
  page_ok (fold_left apply_event events (reload (initial_state, storage))).
Proof.
  assert (H0 : page_ok (reload (initial_state, storage))).
  { unfold reload, onMount, page_ok, currentIndex. simpl.
    destruct (storage !! "github_token") as [saved|] eqn:E; simpl.
    - destruct (String.eqb saved ""); simpl; (split; [lia | done]).
    - split; [lia | done]. }
  revert H0. generalize (reload (initial_state, storage)).
  induction events as [|ev events IH]; intros page Hok; simpl; [done |].
  apply IH. by apply apply_event_ok.
Qed.

End AppInvariant.

(** ** FileExplorer: a folder whose listing fails *)

Module ExplorerFailures.
Import Js Net FileExplorer ExplorerHandlers.

(** X24. A folder listing that fails is silent. Expanding a collapsed
    folder without children when the listing request fails, or when no
    repository is selected, completes normally: the folder is marked
    expanded, the tree and the component's error message are as before,
    and the failure is only logged. Without a repository no request is
    sent at all. *)
Theorem failed_folder_listing_is_silent
    (localeCompare : string -> string -> Z) (githubToken : string)
    (selectedRepo : option Repo) (folder : Item) (w : World) (s : State) :
  path folder ∉ expandedFolders s ->
  no_children folder = true ->
  match selectedRepo with
  | Some repo =>
      exists e,
        listing w (sent w)
          (contents_request githubToken ("/" +:+ path folder) (full_name repo))
        = Throw e
  | None => True
  end ->
  exists w',
    toggleFolder localeCompare githubToken selectedRepo folder (w, s)
    = (Normal tt,
       (w', mkState (fileTree s) (selectedFiles s) ({[path folder]} ∪ expandedFolders s)
              (error s) (isLoading s))) /\
    length (errlog w') = S (length (errlog w)) /\
    fresh w' = fresh w /\
    sent w' = sent w ++
      match selectedRepo with
      | Some repo => [contents_request githubToken ("/" +:+ path folder) (full_name repo)]
      | None => []
      end.
Proof.
  intros Hout Hno Hfail. unfold toggleFolder. run_monad.
  destruct (decide (path folder ∈ expandedFolders s)) as [Hin|_]; [done |].
  rewrite Hno. unfold fetchFolderContents. run_monad.
  destruct selectedRepo as [repo|]; simpl.
  - destruct Hfail as [e He]. rewrite He. simpl. eexists. split; [reflexivity |].
    simpl. rewrite length_app. simpl. split; [lia |]. done.
  - eexists. split; [reflexivity |]. simpl. rewrite length_app, app_nil_r. simpl.
    split; [lia |]. done.
Qed.

Lemma failed_folder_listing_is_silent_witness :
  exists w',
    toggleFolder Host.alphabeticCollation "tok" (Some Samples.repo) Samples.src_dir
      (Samples.offline, Samples.empty_explorer)
    = (Normal tt,
       (w', mkState Samples.sample_tree [] ({[path Samples.src_dir]} ∪ ∅) "" false)) /\
    length (errlog w') = 1%nat /\
    fresh w' = 100%nat /\
    sent w' = [contents_request "tok" ("/" +:+ path Samples.src_dir) "octo/demo"].
Proof.
  apply (failed_folder_listing_is_silent Host.alphabeticCollation "tok" (Some Samples.repo)
           Samples.src_dir Samples.offline Samples.empty_explorer).
  - set_solver.
  - reflexivity.
  - by eexists.
Defined.

End ExplorerFailures.

(** ** Content written by the viewer and read by the generator *)

Module ContentRoundTrip.
Import Js Net TestCaseViewer JsFacts.

(** Three bytes at a time, as [b64_encode] takes them. *)
Lemma bytes_ind3 (P : list N -> Prop) :
  P [] -> (forall a, P [a]) -> (forall a b, P [a; b]) ->
  (forall a b c rest, P rest -> P (a :: b :: c :: rest)) ->
  forall bytes, P bytes.
Proof.
  intros H0 H1 H2 H3.
  fix go 1. intros [|a [|b [|c rest]]]; [done.. |]. apply H3, go.
Qed.

Ltac euclid := zify; Z.to_euclidean_division_equations; lia.

Definition sextets : list N := map N.of_nat (seq 0 64).

Lemma sextet_elem (n : N) : (n < 64)%N -> n ∈ sextets.
Proof.
  intros H. rewrite <- (N2Nat.id n). apply list_elem_of_fmap_2, elem_of_seq. lia.
Qed.

Lemma b64_value_digit (n : N) : (n < 64)%N -> b64_value (b64_digit n) = Some n.
Proof.
  intros H.
  assert (Hall : Forall (fun n => b64_value (b64_digit n) = Some n) sextets)
    by (repeat constructor).
  eapply Forall_forall in Hall; [exact Hall |]. by apply sextet_elem.
Qed.

Lemma b64_digit_plain (n : N) :
  (n < 64)%N ->
  b64_digit n <> "="%char /\ is_ascii_whitespace (b64_digit n) = false.
Proof.
  intros H.
  assert (Hall : Forall (fun n => b64_digit n <> "="%char
                                  /\ is_ascii_whitespace (b64_digit n) = false) sextets)
    by (repeat constructor; done).
  eapply Forall_forall in Hall; [exact Hall |]. by apply sextet_elem.
Qed.

(** [strip_padding] tests the last characters against the padding sign. *)
Lemma not_padding {A} (x : ascii) (a b : A) :
  x <> "="%char -> match x with "="%char => a | _ => b end = b.
Proof.
  intros Hx. destruct x as [[] [] [] [] [] [] [] []]; try reflexivity. done.
Qed.

(** The shape of an encoding: sextet digits, then padding that fills the
    last group of four. *)
Lemma b64_encode_shape (bytes : list N) :
  Forall (fun b => (b < 256)%N) bytes ->
  exists (digits : list N) (padding : list ascii),
    b64_encode bytes = map b64_digit digits ++ padding
    /\ Forall (fun d => (d < 64)%N) digits
    /\ b64_decode digits = bytes
    /\ (padding = [] /\ (length digits mod 4 = 0)%nat
        \/ padding = ["="%char] /\ (length digits mod 4 = 3)%nat
        \/ padding = ["="%char; "="%char] /\ (length digits mod 4 = 2)%nat).
Proof.
  induction bytes as [|a|a b|a b c rest IH] using bytes_ind3; intros Hbytes.
  - exists [], []. repeat split; auto.
  - apply Forall_cons in Hbytes as [Ha _].
    exists [a / 4; (a mod 4) * 16]%N, ["="%char; "="%char].
    split; [reflexivity |]. split; [repeat (apply List.Forall_cons; [euclid |]); apply List.Forall_nil |].
    split; [| auto]. simpl. f_equal. euclid.
  - apply Forall_cons in Hbytes as [Ha Hbytes]. apply Forall_cons in Hbytes as [Hb _].
    exists [a / 4; (a mod 4) * 16 + b / 16; (b mod 16) * 4]%N, ["="%char].
    split; [reflexivity |]. split; [repeat (apply List.Forall_cons; [euclid |]); apply List.Forall_nil |].
    split; [| auto]. simpl. f_equal; [euclid |]. f_equal. euclid.
  - apply Forall_cons in Hbytes as [Ha Hbytes]. apply Forall_cons in Hbytes as [Hb Hbytes].
    apply Forall_cons in Hbytes as [Hc Hbytes].
    destruct (IH Hbytes) as (digits & padding & Henc & Hdigits & Hdec & Hpad).
    exists (a / 4 :: (a mod 4) * 16 + b / 16 :: (b mod 16) * 4 + c / 64 :: c mod 64
            :: digits)%N, padding.
    split; [simpl; by rewrite Henc |].
    split; [repeat (apply List.Forall_cons; [euclid |]); done |].
    split.
    + simpl. rewrite Hdec. f_equal; [euclid |]. f_equal; [euclid |]. f_equal. euclid.
    + change (length (_ :: _ :: _ :: _ :: digits)) with (4 + length digits)%nat.
      replace (4 + length digits)%nat with (length digits + 1 * 4)%nat by lia.
      by rewrite Nat.Div0.mod_add.
Qed.

Lemma strip_padding_shape (digits : list N) (padding : list ascii) :
  Forall (fun d => (d < 64)%N) digits ->
  (padding = [] /\ (length digits mod 4 = 0)%nat
   \/ padding = ["="%char] /\ (length digits mod 4 = 3)%nat
   \/ padding = ["="%char; "="%char] /\ (length digits mod 4 = 2)%nat) ->
  strip_padding (map b64_digit digits ++ padding) = map b64_digit digits.
Proof.
  intros Hdigits Hpad.
  assert (Hlast : forall x r, reverse (map b64_digit digits) = x :: r -> x <> "="%char).
  { intros x r Hrev.
    assert (Hx : x ∈ map b64_digit digits)
      by (apply elem_of_reverse; rewrite Hrev; left).
    apply list_elem_of_fmap_1 in Hx as (d & -> & Hd).
    eapply Forall_forall in Hdigits; [| exact Hd]. by apply b64_digit_plain. }
  unfold strip_padding. rewrite length_app, length_map.
  destruct Hpad as [[-> H]|[[-> H]|[-> H]]]; simpl length;
    rewrite Nat.Div0.add_mod, H.
  - change ((0 + 0 mod 4) mod 4 =? 0)%nat with true. rewrite app_nil_r.
    destruct (reverse (map b64_digit digits)) as [|x r] eqn:Hrev; [done |].
    apply not_padding, (Hlast x r eq_refl).
  - change ((3 + 1 mod 4) mod 4 =? 0)%nat with true.
    rewrite reverse_app. change (reverse ["="%char]) with ["="%char]. simpl app.
    destruct (reverse (map b64_digit digits)) as [|x r] eqn:Hrev.
    + apply (f_equal reverse) in Hrev. rewrite reverse_involutive in Hrev.
      by rewrite Hrev.
    + rewrite (not_padding x _ _ (Hlast x r eq_refl)).
      by rewrite <- Hrev, reverse_involutive.
  - change ((2 + 2 mod 4) mod 4 =? 0)%nat with true.
    rewrite reverse_app. change (reverse ["="%char; "="%char]) with ["="%char; "="%char].
    simpl app. apply reverse_involutive.
Qed.

Lemma mapM_b64_value (digits : list N) :
  Forall (fun d => (d < 64)%N) digits ->
  mapM b64_value (map b64_digit digits) = Some digits.
Proof.
  induction 1 as [|d digits Hd _ IH]; [done |].
  simpl. rewrite (b64_value_digit d Hd). simpl. by rewrite IH.
Qed.

Lemma filter_all {A} (P : A -> Prop) `{!forall x, Decision (P x)} (l : list A) :
  Forall P l -> filter P l = l.
Proof.
  induction 1 as [|x l Hx _ IH]; [done |]. by rewrite filter_cons_True, IH.
Qed.

Lemma b64_encode_plain (bytes : list N) :
  Forall (fun b => (b < 256)%N) bytes ->
  Forall (fun c => is_ascii_whitespace c = false) (b64_encode bytes).
Proof.
  intros Hbytes.
  destruct (b64_encode_shape bytes Hbytes) as (digits & padding & -> & Hdigits & _ & Hpad).
  apply Forall_app. split.
  - apply Forall_fmap. eapply Forall_impl; [exact Hdigits |].
    intros d Hd. by apply b64_digit_plain.
  - destruct Hpad as [[-> _]|[[-> _]|[-> _]]]; repeat constructor.
Qed.

Lemma bytes_of_string (s : string) :
  Forall (fun b => (b < 256)%N) (map N_of_ascii (String.list_ascii_of_string s)).
Proof.
  apply Forall_fmap, Forall_forall. intros c _. apply N_ascii_bounded.
Qed.

Lemma chars_of_bytes (cs : list ascii) : map ascii_of_N (map N_of_ascii cs) = cs.
Proof.
  induction cs as [|c cs IH]; simpl; [done |]. by rewrite ascii_N_embedding, IH.
Qed.

Lemma atob_btoa (s : string) : atob (btoa s) = Normal s.
Proof.
  unfold atob, btoa. rewrite String.list_ascii_of_string_of_list_ascii.
  pose proof (bytes_of_string s) as Hbytes.
  rewrite (filter_all _ _ (b64_encode_plain _ Hbytes)).
  destruct (b64_encode_shape _ Hbytes) as (digits & padding & -> & Hdigits & Hdec & Hpad).
  rewrite (strip_padding_shape _ _ Hdigits Hpad), length_map.
  replace (length digits mod 4 =? 1)%nat with false
    by (by destruct Hpad as [[_ ->]|[[_ ->]|[_ ->]]]).
  rewrite (mapM_b64_value _ Hdigits), Hdec.
  by rewrite chars_of_bytes, String.string_of_list_ascii_of_string.
Qed.

(** X23. What the viewer writes, the generator's API tier reads back:
    when the contents API serves, with any line feeds inserted, the
    [content] that [createOrUpdateFile] put in its request body for
    [generatedCode], the API tier (in a scope that binds [selectedRepo]
    and [githubToken]) returns the UTF-8 bytes of [generatedCode], one
    character per byte. The empty text is the exception: served without a
    line feed it is falsy and the tier throws. (A text that holds a lone
    surrogate has no request body: encoding it throws.) *)
Theorem pushed_content_is_read_back {S}
    (generatedCode token : string) (repo : Repo) (st : TestCaseViewer.State)
    (existingFileSha data : JsValue) (file : FileExplorer.Item) (encoded served : string)
    (response : Response) (w : World) (s : S) :
  fileContent generatedCode = Normal encoded ->
  get (requestBody encoded st existingFileSha) "content"
  = Normal (JStr (remove_newlines served)) ->
  net w (sent w) (TestCaseGenerator.api_request (full_name repo) (FileExplorer.path file) token)
  = Resolved response ->
  ok response = true ->
  json response = Normal data ->
  get data "type" = Normal (JStr "file") ->
  get data "content" = Normal (JStr served) ->
  exists w' bytes,
    utf8_bytes generatedCode = Normal bytes /\
    TestCaseGenerator.fetchViaApi
      (TestCaseGenerator.mkScope (Some (Some repo)) (Some token)) file (w, s)
    = (if String.eqb served ""
       then Throw (Error "Invalid file data received from GitHub API")
       else Normal bytes,
       (w', s)).
Proof.
  intros Hencoded Hbody Hnet Hok Hjson Hty Hcontent.
  unfold fileContent in Hencoded.
  destruct (utf8_bytes generatedCode) as [bytes|e] eqn:Hbytes; [| done].
  injection Hencoded as <-.
  assert (Hserved : remove_newlines served = btoa bytes).
  { unfold requestBody, get in Hbody. simpl in Hbody. congruence. }
  unfold TestCaseGenerator.fetchViaApi, bind, lift, fetch, throw. simpl.
  rewrite Hnet. simpl. rewrite Hok. simpl. rewrite Hjson. simpl.
  rewrite Hty. simpl. rewrite Hcontent. simpl.
  destruct (String.eqb served "") eqn:Hempty; simpl; [by eexists _, bytes |].
  rewrite Hserved, atob_btoa. by eexists _, bytes.
Qed.

Lemma pushed_content_is_read_back_witness :
  let served := "b2s=" +:+ nl in
  let data := JObj [("type", JStr "file"); ("content", JStr served)] in
  let w := mkWorld (fun _ _ => Resolved (mkResponse 200 "" (Normal data)))
                   (fun _ _ => Throw (mkError "AxiosError" "Network Error")) [] [] 100 in
  exists w' bytes,
    utf8_bytes "ok" = Normal bytes /\
    TestCaseGenerator.fetchViaApi
      (TestCaseGenerator.mkScope (Some (Some Samples.repo)) (Some "tok")) Samples.a_js
      (w, tt)
    = (Normal bytes, (w', tt)).
Proof.
  intros served data w.
  apply (pushed_content_is_read_back "ok" "tok" Samples.repo initial_state JUndefined
           data Samples.a_js "b2s=" served (mkResponse 200 "" (Normal data)) w tt);
    reflexivity.
Defined.

End ContentRoundTrip.
